(** * JupyterLab document registry and document context

    A shallow embedding of [packages/docregistry/src/registry.ts] (the
    [DocumentRegistry] class and its [Private] namespace) and of the
    behaviour of the document [Context] that the specification describes
    and the test suite [docregistry/context] exercises.

    JavaScript strings are modelled by [string]; objects used as
    dictionaries ([Object.create(null)]) by [gmap string _]; arrays by
    [list]; thrown errors by an explicit [Completion] type. *)

From Stdlib Require Import Ascii String List Arith Lia Bool.
From stdpp Require Import base decidable option list strings gmap fin_maps.
From Equations Require Import Equations.
Import ListNotations.

Local Open Scope string_scope.
Local Open Scope list_scope.

(** ** JavaScript string primitives used by the sources *)

Module JSString.

(** [String.prototype.toLowerCase], on the ASCII range: the letters
    [A]..[Z] are mapped to [a]..[z], every other code unit is kept. *)
Definition lower_ascii (c : ascii) : ascii :=
  let n := nat_of_ascii c in
  if ((65 <=? n)%nat && (n <=? 90)%nat)%bool then ascii_of_nat (n + 32) else c.

Fixpoint toLowerCase (s : string) : string :=
  match s with
  | EmptyString => EmptyString
  | String c r => String (lower_ascii c) (toLowerCase r)
  end.

Definition dot : ascii := "."%char.

(** [s.split('.')]: the list of the maximal dot-free pieces of [s]; it is
    never empty ([''.split('.')] is [['']]). *)
Fixpoint split_dot (s : string) : list string :=
  match s with
  | EmptyString => [EmptyString]
  | String c r =>
      if Ascii.eqb c dot then EmptyString :: split_dot r
      else match split_dot r with
           | h :: t => String c h :: t
           | [] => [String c EmptyString]
           end
  end.

(** [parts.join('.')]. *)
Fixpoint join_dot (parts : list string) : string :=
  match parts with
  | [] => EmptyString
  | [p] => p
  | p :: ps => (p ++ String dot (join_dot ps))%string
  end.

(** [a.slice(n)] for [0 <= n]. *)
Definition slice {A} (n : nat) (a : list A) : list A := skipn n a.

(** [a.shift()], for its effect on the array. *)
Definition shift {A} (a : list A) : list A := tl a.

(** [a.indexOf(x) !== -1] on an array of strings (strict equality). *)
Definition includes (x : string) (a : list string) : bool :=
  existsb (String.eqb x) a.

(** [s.replace(/\r\n/g, '\n')]: one left-to-right pass over [s] that
    replaces every match of the two-character sequence CR LF by LF. *)
Definition CR : ascii := ascii_of_nat 13.
Definition LF : ascii := ascii_of_nat 10.

Fixpoint replace_crlf_lf (s : string) : string :=
  match s with
  | EmptyString => EmptyString
  | String c r =>
      match r with
      | String d r' =>
          if Ascii.eqb c CR && Ascii.eqb d LF
          then String LF (replace_crlf_lf r')
          else String c (replace_crlf_lf r)
      | EmptyString => String c EmptyString
      end
  end.

(** [s.replace(/\n/g, '\r\n')]. *)
Fixpoint replace_lf_crlf (s : string) : string :=
  match s with
  | EmptyString => EmptyString
  | String c r =>
      if Ascii.eqb c LF then String CR (String LF (replace_lf_crlf r))
      else String c (replace_lf_crlf r)
  end.

(** [s.startsWith(t)]. *)
Fixpoint startsWith (t s : string) : bool :=
  match t, s with
  | EmptyString, _ => true
  | String a t', String b s' => Ascii.eqb a b && startsWith t' s'
  | String _ _, EmptyString => false
  end.

(** [s.indexOf(t) !== -1]. *)
Fixpoint contains (t s : string) : bool :=
  startsWith t s ||
  match s with
  | EmptyString => false
  | String _ r => contains t r
  end.

(** The part of [s] behind its first dot, empty when there is none. *)
Fixpoint after_first_dot (s : string) : string :=
  match s with
  | EmptyString => EmptyString
  | String c r => if Ascii.eqb c dot then r else after_first_dot r
  end.

(** The suffixes of [s] that begin at a dot, from the longest one. *)
Fixpoint dot_suffixes (s : string) : list string :=
  match s with
  | EmptyString => []
  | String c r =>
      if Ascii.eqb c dot then s :: dot_suffixes r else dot_suffixes r
  end.

Fixpoint has_dot (s : string) : bool :=
  match s with
  | EmptyString => false
  | String c r => Ascii.eqb c dot || has_dot r
  end.

(** *** Facts about the string primitives *)

Lemma split_dot_not_nil s : split_dot s <> [].
Proof.
  destruct s as [|c r]; simpl; [discriminate|].
  destruct (Ascii.eqb c dot); [discriminate|].
  destruct (split_dot r); discriminate.
Qed.

Lemma join_dot_cons p ps :
  ps <> [] -> join_dot (p :: ps) = (p ++ String dot (join_dot ps))%string.
Proof. destruct ps; [congruence | reflexivity]. Qed.

Lemma join_split s : join_dot (split_dot s) = s.
Proof.
  induction s as [|c r IH]; simpl; [reflexivity|].
  destruct (Ascii.eqb_spec c dot) as [->|Hc].
  - rewrite join_dot_cons by apply split_dot_not_nil.
    simpl. now rewrite IH.
  - pose proof (split_dot_not_nil r) as Hne.
    destruct (split_dot r) as [|h t]; [congruence|].
    destruct t as [|h' t'].
    + simpl in *. now rewrite IH.
    + change (join_dot (h :: h' :: t')) with
        (h ++ String dot (join_dot (h' :: t')))%string in IH.
      change (join_dot (String c h :: h' :: t')) with
        (String c (h ++ String dot (join_dot (h' :: t'))))%string.
      now rewrite IH.
Qed.

Lemma tl_split s :
  tl (split_dot s) =
  if has_dot s then split_dot (after_first_dot s) else [].
Proof.
  induction s as [|c r IH]; simpl; [reflexivity|].
  destruct (Ascii.eqb c dot); simpl; [reflexivity|].
  pose proof (split_dot_not_nil r) as Hne.
  destruct (split_dot r) as [|h t]; [congruence|].
  simpl in *. exact IH.
Qed.

Lemma after_first_dot_no_dot s : has_dot s = false -> after_first_dot s = EmptyString.
Proof.
  induction s as [|c r IH]; simpl; [reflexivity|].
  destruct (Ascii.eqb c dot); simpl; [discriminate | exact IH].
Qed.

Lemma join_tl_split s : join_dot (tl (split_dot s)) = after_first_dot s.
Proof.
  rewrite tl_split. destruct (has_dot s) eqn:Hd.
  - apply join_split.
  - now rewrite after_first_dot_no_dot.
Qed.

Lemma after_first_dot_length s :
  String.length (after_first_dot s) <= String.length s.
Proof.
  induction s as [|c r IH]; simpl; [lia|].
  destruct (Ascii.eqb c dot); lia.
Qed.

Lemma after_first_dot_shorter s :
  s <> EmptyString -> String.length (after_first_dot s) < String.length s.
Proof.
  destruct s as [|c r]; [congruence|]. intros _. simpl.
  destruct (Ascii.eqb c dot); [lia|].
  pose proof (after_first_dot_length r). lia.
Qed.

Lemma lower_ascii_dot c : Ascii.eqb (lower_ascii c) dot = Ascii.eqb c dot.
Proof. destruct c as [[] [] [] [] [] [] [] []]; reflexivity. Qed.

Lemma after_first_dot_lower s :
  after_first_dot (toLowerCase s) = toLowerCase (after_first_dot s).
Proof.
  induction s as [|c r IH]; simpl; [reflexivity|].
  rewrite lower_ascii_dot. destruct (Ascii.eqb c dot); [reflexivity | exact IH].
Qed.

Lemma dot_suffixes_step s :
  dot_suffixes s =
  if has_dot s
  then String dot (after_first_dot s) :: dot_suffixes (after_first_dot s)
  else [].
Proof.
  induction s as [|c r IH]; simpl; [reflexivity|].
  destruct (Ascii.eqb_spec c dot) as [->|_]; simpl; [reflexivity | exact IH].
Qed.

Lemma replace_lf_crlf_head r :
  match replace_lf_crlf r with
  | String c _ => c <> LF
  | EmptyString => r = EmptyString
  end.
Proof.
  destruct r as [|c r]; simpl; [reflexivity|].
  destruct (Ascii.eqb_spec c LF) as [->|Hc]; [discriminate | exact Hc].
Qed.

(** Writing every LF as CR LF is undone by replacing every CR LF by LF. *)
Lemma replace_crlf_lf_inverse u : replace_crlf_lf (replace_lf_crlf u) = u.
Proof.
  induction u as [|c r IH]; [reflexivity|].
  simpl. destruct (Ascii.eqb_spec c LF) as [->|Hc].
  - simpl. now rewrite IH.
  - pose proof (replace_lf_crlf_head r) as Hhead.
    simpl. destruct (replace_lf_crlf r) as [|d x] eqn:Hx.
    + now subst r.
    + destruct (Ascii.eqb_spec d LF) as [->|_]; [congruence|].
      rewrite andb_false_r. now rewrite IH.
Qed.

(** A string without CR LF is left as it is. *)
Lemma replace_crlf_lf_without s :
  contains (String CR (String LF EmptyString)) s = false -> replace_crlf_lf s = s.
Proof.
  induction s as [|c r IH]; [reflexivity|].
  intros H. simpl in H. apply orb_false_iff in H as [Hp Hr].
  destruct r as [|d r']; [reflexivity|].
  change (replace_crlf_lf (String c (String d r'))) with
    (if (Ascii.eqb c CR && Ascii.eqb d LF)%bool
     then String LF (replace_crlf_lf r')
     else String c (replace_crlf_lf (String d r'))).
  destruct (Ascii.eqb_spec c CR) as [->|_]; cbn [andb].
  - destruct (Ascii.eqb_spec d LF) as [->|_]; [discriminate Hp|].
    now rewrite (IH Hr).
  - now rewrite (IH Hr).
Qed.

(** A string without CR has no CR LF. *)
Lemma contains_CR_CRLF s :
  contains (String CR EmptyString) s = false ->
  contains (String CR (String LF EmptyString)) s = false.
Proof.
  induction s as [|c r IH]; [reflexivity|].
  cbn [contains startsWith]. intros H. apply orb_false_iff in H as [Hc Hr].
  rewrite (IH Hr), orb_false_r.
  rewrite andb_true_r in Hc. now rewrite Hc.
Qed.


End JSString.

(** ** The document registry ([registry.ts]) *)

Module DocumentRegistry.
Import JSString.

(** How a method ends: with a value, or with a thrown [Error]. *)
Inductive Completion (A : Type) : Type :=
| Return (value : A)
| Throw (message : string).
Arguments Return {A} value.
Arguments Throw {A} message.

(** [DocumentRegistry.SaveState], a union of four string literal types. *)
Inductive SaveState : Type :=
| started
| failed
| completed
| completed_manual.

#[global] Instance SaveState_eq_dec : EqDecision SaveState.
Proof. solve_decision. Defined.

(** The string each member of [SaveState] is. *)
Definition SaveState_literal (s : SaveState) : string :=
  match s with
  | started => "started"
  | failed => "failed"
  | completed => "completed"
  | completed_manual => "completed-manual"
  end.

(** [DocumentRegistry.IFileType]; [ft_] prefixes keep the field names apart
    from those of the widget factory. [Contents.ContentType] and
    [Contents.FileFormat] are string literal types of another package and
    are kept as strings; a [LabIcon] is represented by its name. *)
Record IFileType : Type := {
  ft_name : string;
  ft_mimeTypes : list string;
  ft_extensions : list string;
  ft_displayName : option string;
  ft_pattern : option string;
  ft_icon : option string;
  ft_iconClass : option string;
  ft_iconLabel : option string;
  ft_contentType : string;
  ft_fileFormat : string
}.

(** [Partial<IFileType>]. *)
Record PartialFileType : Type := {
  p_name : option string;
  p_mimeTypes : option (list string);
  p_extensions : option (list string);
  p_displayName : option string;
  p_pattern : option string;
  p_icon : option string;
  p_iconClass : option string;
  p_iconLabel : option string;
  p_contentType : option string;
  p_fileFormat : option string
}.

(** [DocumentRegistry.IModelFactory], its data members. *)
Record IModelFactory : Type := {
  mf_name : string;
  mf_contentType : string;
  mf_fileFormat : string
}.

(** [DocumentRegistry.IWidgetFactoryOptions], the data members of a
    widget factory. *)
Record IWidgetFactory : Type := {
  wf_name : string;
  wf_fileTypes : list string;
  wf_defaultFor : option (list string);
  wf_defaultRendered : option (list string);
  wf_readOnly : option bool;
  wf_modelName : option string;
  wf_preferKernel : option bool;
  wf_canStartKernel : option bool;
  wf_shutdownOnClose : option bool
}.

(** A widget extension is an object compared by identity. *)
Definition WidgetExtension : Type := nat.

Inductive ChangedType : Type :=
| widgetFactory | modelFactory | widgetExtension | fileType.

Inductive Change : Type := added | removed.

(** [DocumentRegistry.IChangedArgs]. *)
Record IChangedArgs : Type := {
  ca_type : ChangedType;
  ca_name : option string;
  ca_change : Change
}.

(** The private fields of the class. The [_changed] signal is represented
    by the list of the arguments it has been emitted with, oldest first. *)
Record Registry : Type := {
  _modelFactories : gmap string IModelFactory;
  _widgetFactories : gmap string IWidgetFactory;
  _defaultWidgetFactory : string;
  _defaultWidgetFactoryOverrides : gmap string string;
  _defaultWidgetFactories : gmap string string;
  _defaultRenderedWidgetFactories : gmap string string;
  _widgetFactoriesForFileType : gmap string (list string);
  _fileTypes : list IFileType;
  _extenders : gmap string (list WidgetExtension);
  _changed : list IChangedArgs;
  _isDisposed : bool
}.

(** The function a [DisposableDelegate] holds: [Private.noOp], or the
    closure [addWidgetFactory] builds, with the variable it captures. *)
Inductive Callback : Type :=
| noOp
| removeWidgetFactory (name : string).

(** [DisposableDelegate]: the callback, dropped once it has run. *)
Record DisposableDelegate : Type := { _fn : option Callback }.

(** What a method leaves behind: how it completed, the registry after it
    and the lines it wrote with [console.warn]. *)
Record Outcome (A : Type) : Type := {
  completion : Completion A;
  registry : Registry;
  warnings : list string
}.
Arguments completion {A} o.
Arguments registry {A} o.
Arguments warnings {A} o.

Definition emit (args : IChangedArgs) (r : Registry) : Registry :=
  {| _modelFactories := _modelFactories r;
     _widgetFactories := _widgetFactories r;
     _defaultWidgetFactory := _defaultWidgetFactory r;
     _defaultWidgetFactoryOverrides := _defaultWidgetFactoryOverrides r;
     _defaultWidgetFactories := _defaultWidgetFactories r;
     _defaultRenderedWidgetFactories := _defaultRenderedWidgetFactories r;
     _widgetFactoriesForFileType := _widgetFactoriesForFileType r;
     _fileTypes := _fileTypes r;
     _extenders := _extenders r;
     _changed := _changed r ++ [args];
     _isDisposed := _isDisposed r |}.

(** [find] of [@lumino/algorithm]: the first element that satisfies the
    predicate. *)
Definition find {A} (p : A -> bool) (a : list A) : option A := List.find p a.

(** [ArrayExt.removeFirstOf]: the array without the first occurrence of
    the value. *)
Fixpoint removeFirstOf {A} (eqb : A -> A -> bool) (a : list A) (x : A) : list A :=
  match a with
  | [] => []
  | y :: t => if eqb y x then t else y :: removeFirstOf eqb t x
  end.

(** *** [addWidgetFactory] *)

(** One turn of the loop over [factory.defaultFor]. *)
Definition defaultFor_step (factory : IWidgetFactory) (name : string)
    (st : string * gmap string string) (ft : string) : string * gmap string string :=
  if negb (includes ft (wf_fileTypes factory)) then st
  else if String.eqb ft "*" then (name, snd st)
  else (fst st, <[ft := name]> (snd st)).

(** One turn of the loop over [factory.defaultRendered]. *)
Definition defaultRendered_step (factory : IWidgetFactory) (name : string)
    (m : gmap string string) (ft : string) : gmap string string :=
  if negb (includes ft (wf_fileTypes factory)) then m
  else <[ft := name]> m.

(** One turn of the loop over [factory.fileTypes]. *)
Definition fileTypes_step (name : string)
    (m : gmap string (list string)) (ft : string) : gmap string (list string) :=
  match m !! ft with
  | None => <[ft := [name]]> m
  | Some l => <[ft := l ++ [name]]> m
  end.

Definition addWidgetFactory (factory : IWidgetFactory) (r : Registry)
  : Outcome DisposableDelegate :=
  let name := toLowerCase (wf_name factory) in
  if String.eqb name "" || String.eqb name "default" then
    {| completion := Throw "Invalid factory name"; registry := r; warnings := [] |}
  else
    match _widgetFactories r !! name with
    | Some _ =>
        {| completion := Return {| _fn := Some noOp |};
           registry := r;
           warnings := [("Duplicate registered factory " ++ name)%string] |}
    | None =>
        let defaults :=
          fold_left (defaultFor_step factory name)
            (default [] (wf_defaultFor factory))
            (_defaultWidgetFactory r, _defaultWidgetFactories r) in
        let rendered :=
          fold_left (defaultRendered_step factory name)
            (default [] (wf_defaultRendered factory))
            (_defaultRenderedWidgetFactories r) in
        let forFileType :=
          fold_left (fileTypes_step name) (wf_fileTypes factory)
            (_widgetFactoriesForFileType r) in
        let r' :=
          {| _modelFactories := _modelFactories r;
             _widgetFactories := <[name := factory]> (_widgetFactories r);
             _defaultWidgetFactory := fst defaults;
             _defaultWidgetFactoryOverrides := _defaultWidgetFactoryOverrides r;
             _defaultWidgetFactories := snd defaults;
             _defaultRenderedWidgetFactories := rendered;
             _widgetFactoriesForFileType := forFileType;
             _fileTypes := _fileTypes r;
             _extenders := _extenders r;
             _changed := _changed r;
             _isDisposed := _isDisposed r |} in
        {| completion := Return {| _fn := Some (removeWidgetFactory name) |};
           registry :=
             emit {| ca_type := widgetFactory; ca_name := Some name;
                     ca_change := added |} r';
           warnings := [] |}
    end.

(** The closure [addWidgetFactory] hands to its [DisposableDelegate]. *)
Definition removeWidgetFactory_body (name : string) (r : Registry) : Registry :=
  let keep (v : string) := negb (String.eqb v name) in
  let r' :=
    {| _modelFactories := _modelFactories r;
       _widgetFactories := delete name (_widgetFactories r);
       _defaultWidgetFactory :=
         if String.eqb (_defaultWidgetFactory r) name then ""
         else _defaultWidgetFactory r;
       _defaultWidgetFactoryOverrides :=
         filter (fun kv => keep (snd kv) = true) (_defaultWidgetFactoryOverrides r);
       _defaultWidgetFactories :=
         filter (fun kv => keep (snd kv) = true) (_defaultWidgetFactories r);
       _defaultRenderedWidgetFactories :=
         filter (fun kv => keep (snd kv) = true) (_defaultRenderedWidgetFactories r);
       _widgetFactoriesForFileType :=
         omap (fun l => match removeFirstOf String.eqb l name with
                        | [] => None
                        | l' => Some l'
                        end) (_widgetFactoriesForFileType r);
       _fileTypes := _fileTypes r;
       _extenders := _extenders r;
       _changed := _changed r;
       _isDisposed := _isDisposed r |} in
  emit {| ca_type := widgetFactory; ca_name := Some name; ca_change := removed |} r'.

(** Running a callback. *)
Definition call (fn : Callback) (r : Registry) : Registry :=
  match fn with
  | noOp => r
  | removeWidgetFactory name => removeWidgetFactory_body name r
  end.

(** [DisposableDelegate.dispose]: runs the callback the first time only. *)
Definition dispose (d : DisposableDelegate) (r : Registry)
  : DisposableDelegate * Registry :=
  match _fn d with
  | None => (d, r)
  | Some fn => ({| _fn := None |}, call fn r)
  end.

(** [getWidgetFactory]. *)
Definition getWidgetFactory (widgetName : string) (r : Registry)
  : option IWidgetFactory :=
  _widgetFactories r !! toLowerCase widgetName.

(** [getFileType]. *)
Definition getFileType (name : string) (r : Registry) : option IFileType :=
  let name := toLowerCase name in
  find (fun fileType => String.eqb (toLowerCase (ft_name fileType)) name)
       (_fileTypes r).

(** *** The default file types and the constructor *)

Section Defaults.

(** [trans.__] of the translation bundle the registry loads. *)
Variable trans : string -> string.

(** [new TextModelFactory()], of [./default]. *)
Variable TextModelFactory : IModelFactory.

Definition getFileTypeDefaults : IFileType :=
  {| ft_name := "default";
     ft_mimeTypes := [];
     ft_extensions := [];
     ft_displayName := Some (trans "default");
     ft_pattern := None;
     ft_icon := None;
     ft_iconClass := None;
     ft_iconLabel := None;
     ft_contentType := "file";
     ft_fileFormat := "text" |}.

(** The object spread [{ ...base, ...ft }]. *)
Definition spread (base : IFileType) (ft : PartialFileType) : IFileType :=
  {| ft_name := default (ft_name base) (p_name ft);
     ft_mimeTypes := default (ft_mimeTypes base) (p_mimeTypes ft);
     ft_extensions := default (ft_extensions base) (p_extensions ft);
     ft_displayName :=
       match p_displayName ft with Some d => Some d | None => ft_displayName base end;
     ft_pattern :=
       match p_pattern ft with Some d => Some d | None => ft_pattern base end;
     ft_icon :=
       match p_icon ft with Some d => Some d | None => ft_icon base end;
     ft_iconClass :=
       match p_iconClass ft with Some d => Some d | None => ft_iconClass base end;
     ft_iconLabel :=
       match p_iconLabel ft with Some d => Some d | None => ft_iconLabel base end;
     ft_contentType := default (ft_contentType base) (p_contentType ft);
     ft_fileFormat := default (ft_fileFormat base) (p_fileFormat ft) |}.

(** An entry of the table of [getDefaultFileTypes]. *)
Definition entry (name displayName : string) (mimeTypes extensions : list string)
    (icon : string) (fileFormat : option string) : PartialFileType :=
  {| p_name := Some name;
     p_mimeTypes := Some mimeTypes;
     p_extensions := Some extensions;
     p_displayName := Some (trans displayName);
     p_pattern := None;
     p_icon := Some icon;
     p_iconClass := None;
     p_iconLabel := None;
     p_contentType := None;
     p_fileFormat := fileFormat |}.

Definition partial (ft : IFileType) : PartialFileType :=
  {| p_name := Some (ft_name ft);
     p_mimeTypes := Some (ft_mimeTypes ft);
     p_extensions := Some (ft_extensions ft);
     p_displayName := ft_displayName ft;
     p_pattern := ft_pattern ft;
     p_icon := ft_icon ft;
     p_iconClass := ft_iconClass ft;
     p_iconLabel := ft_iconLabel ft;
     p_contentType := Some (ft_contentType ft);
     p_fileFormat := Some (ft_fileFormat ft) |}.

Definition getDefaultTextFileType : IFileType :=
  spread getFileTypeDefaults
    (entry "text" "Text" ["text/plain"] [".txt"] "fileIcon" None).

Definition getDefaultNotebookFileType : IFileType :=
  spread getFileTypeDefaults
    {| p_name := Some "notebook";
       p_mimeTypes := Some ["application/x-ipynb+json"];
       p_extensions := Some [".ipynb"];
       p_displayName := Some (trans "Notebook");
       p_pattern := None;
       p_icon := Some "notebookIcon";
       p_iconClass := None;
       p_iconLabel := None;
       p_contentType := Some "notebook";
       p_fileFormat := Some "json" |}.

Definition getDefaultDirectoryFileType : IFileType :=
  spread getFileTypeDefaults
    {| p_name := Some "directory";
       p_mimeTypes := Some ["text/directory"];
       p_extensions := Some [];
       p_displayName := Some (trans "Directory");
       p_pattern := None;
       p_icon := Some "folderIcon";
       p_iconClass := None;
       p_iconLabel := None;
       p_contentType := Some "directory";
       p_fileFormat := None |}.

Definition getDefaultFileTypes : list PartialFileType :=
  [ partial getDefaultTextFileType;
    partial getDefaultNotebookFileType;
    partial getDefaultDirectoryFileType;
    entry "markdown" "Markdown File" ["text/markdown"] [".md"] "markdownIcon" None;
    entry "PDF" "PDF File" ["application/pdf"] [".pdf"] "pdfIcon" None;
    entry "python" "Python File" ["text/x-python"] [".py"] "pythonIcon" None;
    entry "json" "JSON File" ["application/json"] [".json"] "jsonIcon" None;
    entry "csv" "CSV File" ["text/csv"] [".csv"] "spreadsheetIcon" None;
    entry "tsv" "TSV File" ["text/csv"] [".tsv"] "spreadsheetIcon" None;
    entry "r" "R File" ["text/x-rsrc"] [".r"] "rKernelIcon" None;
    entry "yaml" "YAML File" ["text/x-yaml"; "text/yaml"] [".yaml"; ".yml"] "yamlIcon" None;
    entry "svg" "Image" ["image/svg+xml"] [".svg"] "imageIcon" (Some "base64");
    entry "tiff" "Image" ["image/tiff"] [".tif"; ".tiff"] "imageIcon" (Some "base64");
    entry "jpeg" "Image" ["image/jpeg"] [".jpg"; ".jpeg"] "imageIcon" (Some "base64");
    entry "gif" "Image" ["image/gif"] [".gif"] "imageIcon" (Some "base64");
    entry "png" "Image" ["image/png"] [".png"] "imageIcon" (Some "base64");
    entry "bmp" "Image" ["image/bmp"] [".bmp"] "imageIcon" (Some "base64") ].

(** [DocumentRegistry.IOptions], without the translator, which is [trans]. *)
Record IOptions : Type := {
  textModelFactory : option IModelFactory;
  initialFileTypes : option (list PartialFileType)
}.

(** The fields as the constructor leaves them. *)
Definition constructed (factory : IModelFactory) (fts : list PartialFileType)
  : Registry :=
  {| _modelFactories := {[ "text" := factory ]};
     _widgetFactories := ∅;
     _defaultWidgetFactory := "";
     _defaultWidgetFactoryOverrides := ∅;
     _defaultWidgetFactories := ∅;
     _defaultRenderedWidgetFactories := ∅;
     _widgetFactoriesForFileType := ∅;
     _fileTypes := map (spread getFileTypeDefaults) fts;
     _extenders := ∅;
     _changed := [];
     _isDisposed := false |}.

(** The constructor of the class. *)
Definition constructor (options : IOptions) : Completion Registry :=
  let factory := textModelFactory options in
  if match factory with
     | Some factory => negb (String.eqb (mf_name factory) "text")
     | None => false
     end
  then Throw "Text model factory must have the name `text`"
  else
    let fts := default getDefaultFileTypes (initialFileTypes options) in
    Return (constructed (default TextModelFactory factory) fts).

End Defaults.

(** [nullTranslator], of [@jupyterlab/translation]: every message is its
    own translation. *)
Definition nullTranslator (message : string) : string := message.

(** A text model factory: its name has to be ['text']; the content type
    and the file format are the defaults [IModelFactory] documents. *)
Definition text_factory : IModelFactory :=
  {| mf_name := "text"; mf_contentType := "file"; mf_fileFormat := "text" |}.

(** The registry [new DocumentRegistry()] builds. *)
Definition default_registry : Registry :=
  constructed nullTranslator text_factory (getDefaultFileTypes nullTranslator).

(** *** [getFileTypesForPath] *)

Section FileTypesForPath.

(** [PathExt.basename] of [@jupyterlab/coreutils]. *)
Variable basename : string -> string.

(** [String.prototype.toLowerCase]. Which code units have a lower case,
    and what it is, is the table of the JavaScript engine; the method is
    taken as it is. *)
Variable toLowerCase : string -> string.

(** [name.match(pattern)] for a pattern that is a string, as [ft.pattern]
    is: [new RegExp(pattern)] throws a [SyntaxError] when the string is not
    a regular expression; otherwise the result says whether the match is
    other than [null]. The first argument is the name. *)
Variable String_match : string -> string -> Completion bool.

(** [Private.extname]. *)
Definition extname (path : string) : string :=
  let parts := split_dot (basename path) in
  let parts := shift parts in
  let ext := String dot (join_dot parts) in
  toLowerCase ext.

(** The predicate of the pattern search,
    [!!(ft.pattern && name.match(ft.pattern) !== null)]: an absent or empty
    pattern is not handed to [match]. *)
Definition pattern_matches (name : string) (ft : IFileType) : Completion bool :=
  match ft_pattern ft with
  | Some pattern =>
      if String.eqb pattern "" then Return false else String_match name pattern
  | None => Return false
  end.

(** [find] of [@lumino/algorithm] with a predicate that can throw: the
    elements are tried in order, and what the predicate throws ends the
    search. *)
Fixpoint find_or_throw {A} (p : A -> Completion bool) (a : list A)
  : Completion (option A) :=
  match a with
  | [] => Return None
  | x :: t =>
      match p x with
      | Throw e => Throw e
      | Return true => Return (Some x)
      | Return false => find_or_throw p t
      end
  end.

(** The predicate of the extension search. *)
Definition lists_extension (ext : string) (ft : IFileType) : bool :=
  includes ext (ft_extensions ft).

(** [if (ft) { fts.push(ft); }]. *)
Definition push_if (fts : list IFileType) (ft : option IFileType) : list IFileType :=
  match ft with
  | Some ft => fts ++ [ft]
  | None => fts
  end.

(** The next value of [ext]: ['.' + ext.split('.').slice(2).join('.')]. *)
Definition next_ext (ext : string) : string :=
  String dot (join_dot (slice 2 (split_dot ext))).

Lemma slice_2_tl {A} (a : list A) : slice 2 a = tl (tl a).
Proof. destruct a as [|x [|y a]]; reflexivity. Qed.

Lemma next_ext_after ext :
  next_ext ext = String dot (after_first_dot (after_first_dot ext)).
Proof.
  unfold next_ext. rewrite slice_2_tl, tl_split.
  destruct (has_dot ext) eqn:Hd.
  - now rewrite join_tl_split.
  - now rewrite (after_first_dot_no_dot ext Hd).
Qed.

Lemma next_ext_shorter ext :
  1 < String.length ext -> String.length (next_ext ext) < String.length ext.
Proof.
  intros Hlen. rewrite next_ext_after. simpl.
  destruct (after_first_dot ext) as [|c a] eqn:Ha; [simpl; lia|].
  assert (String.length (after_first_dot (String c a)) < String.length (String c a))
    by (apply after_first_dot_shorter; discriminate).
  assert (String.length (after_first_dot ext) < String.length ext)
    by (apply after_first_dot_shorter; intros ->; discriminate).
  rewrite Ha in *. lia.
Qed.

(** The [while (ext.length > 1)] loop of [getFileTypesForPath]. *)
Equations? ext_loop (fileTypes : list IFileType) (ext : string)
    (fts : list IFileType) : list IFileType by wf (String.length ext) lt :=
  ext_loop fileTypes ext fts with le_lt_dec (String.length ext) 1 := {
    | left _ => fts;
    | right _ =>
        ext_loop fileTypes (next_ext ext)
          (push_if fts (find (lists_extension ext) fileTypes)) }.
Proof. now apply next_ext_shorter. Qed.

(** [getFileTypesForPath]: what the pattern search throws leaves the
    method. *)
Definition getFileTypesForPath (path : string) (r : Registry)
  : Completion (list IFileType) :=
  let fts := [] in
  let name := basename path in
  match find_or_throw (pattern_matches name) (_fileTypes r) with
  | Throw e => Throw e
  | Return ft =>
      let fts := push_if fts ft in
      let ext := extname name in
      Return (ext_loop (_fileTypes r) ext fts)
  end.

(** What the description of [getFileTypesForPath] speaks of. The pattern of
    a file type matches the name; *)
Definition pattern_found (name : string) (ft : IFileType) : Prop :=
  exists pattern,
    ft_pattern ft = Some pattern /\ pattern <> "" /\
    String_match name pattern = Return true.

(** the file type has no pattern, or one that does not match the name; *)
Definition pattern_passed (name : string) (ft : IFileType) : Prop :=
  ft_pattern ft = None \/ ft_pattern ft = Some "" \/
  exists pattern,
    ft_pattern ft = Some pattern /\ String_match name pattern = Return false.

(** the pattern of the file type is not a regular expression, and the
    engine throws [e]. *)
Definition pattern_refused (name : string) (ft : IFileType) (e : string) : Prop :=
  exists pattern,
    ft_pattern ft = Some pattern /\ pattern <> "" /\
    String_match name pattern = Throw e.

(** The compound extensions of a name, from the longest to the shortest:
    the extension is the name from its first dot on, in lower case, and its
    compound extensions are its suffixes that start at a dot and are longer
    than the dot alone. *)
Definition longer_than_dot (ext : string) : bool :=
  (1 <? String.length ext)%nat.

Definition compound_extensions (name : string) : list string :=
  List.filter longer_than_dot
    (dot_suffixes (toLowerCase (String dot (after_first_dot name)))).

(** The first registered file type that lists the extension. *)
Definition first_listing (fileTypes : list IFileType) (ext : string)
  : option IFileType :=
  List.find (fun ft => bool_decide (ext ∈ ft_extensions ft)) fileTypes.

(** For each extension in turn, the first registered file type that lists
    it, when there is one. *)
Definition by_extension (fileTypes : list IFileType) (exts : list string)
  : list IFileType :=
  omap (first_listing fileTypes) exts.

End FileTypesForPath.

(** The registries the class can be in: built by the constructor, then
    changed by [addWidgetFactory], by the callback of a disposable, or by
    one of the other methods, none of which assigns to or deletes from
    [_widgetFactories]. *)
Inductive reachable : Registry -> Prop :=
| reach_constructor trans TextModelFactory options r :
    constructor trans TextModelFactory options = Return r -> reachable r
| reach_addWidgetFactory factory r :
    reachable r -> reachable (registry (addWidgetFactory factory r))
| reach_call fn r :
    reachable r -> reachable (call fn r)
| reach_other r r' :
    reachable r -> _widgetFactories r' = _widgetFactories r -> reachable r'.

(** No widget factory is registered under the empty name or under
    ['default']. *)
Definition valid_names (r : Registry) : Prop :=
  _widgetFactories r !! "" = None /\ _widgetFactories r !! "default" = None.

(** *** Registries to run the methods on *)

(** A file type with a pattern, as an extension would add one. *)
Definition dockerfile : IFileType :=
  {| ft_name := "dockerfile";
     ft_mimeTypes := ["text/x-dockerfile"];
     ft_extensions := [".dockerfile"];
     ft_displayName := Some "Dockerfile";
     ft_pattern := Some "^Dockerfile$";
     ft_icon := None;
     ft_iconClass := None;
     ft_iconLabel := None;
     ft_contentType := "file";
     ft_fileFormat := "text" |}.

(** A file type with a compound extension. *)
Definition table_json : IFileType :=
  {| ft_name := "table";
     ft_mimeTypes := ["application/json"];
     ft_extensions := [".table.json"];
     ft_displayName := None;
     ft_pattern := None;
     ft_icon := None;
     ft_iconClass := None;
     ft_iconLabel := None;
     ft_contentType := "file";
     ft_fileFormat := "json" |}.

Definition with_fileTypes (fts : list IFileType) (r : Registry) : Registry :=
  {| _modelFactories := _modelFactories r;
     _widgetFactories := _widgetFactories r;
     _defaultWidgetFactory := _defaultWidgetFactory r;
     _defaultWidgetFactoryOverrides := _defaultWidgetFactoryOverrides r;
     _defaultWidgetFactories := _defaultWidgetFactories r;
     _defaultRenderedWidgetFactories := _defaultRenderedWidgetFactories r;
     _widgetFactoriesForFileType := _widgetFactoriesForFileType r;
     _fileTypes := fts;
     _extenders := _extenders r;
     _changed := _changed r;
     _isDisposed := _isDisposed r |}.

Definition extended_registry : Registry :=
  with_fileTypes (_fileTypes default_registry ++ [dockerfile; table_json])
    default_registry.

(** A stand-in for the regular expression engine that knows two patterns:
    ['^Dockerfile$'], and ['('], which is not a regular expression. *)
Definition only_Dockerfile (name pattern : string) : Completion bool :=
  if String.eqb pattern "(" then
    Throw "SyntaxError: Invalid regular expression: /(/: Unterminated group"
  else Return (String.eqb pattern "^Dockerfile$" && String.eqb name "Dockerfile").

(** A file type whose pattern is not a regular expression: [pattern] is a
    string, and nothing checks it when a file type is registered. *)
Definition unbalanced : PartialFileType :=
  {| p_name := Some "unbalanced";
     p_mimeTypes := None;
     p_extensions := None;
     p_displayName := None;
     p_pattern := Some "(";
     p_icon := None;
     p_iconClass := None;
     p_iconLabel := None;
     p_contentType := None;
     p_fileFormat := None |}.

(** [new DocumentRegistry({ initialFileTypes })] with the default file
    types and this one. *)
Definition registry_with_unbalanced : Completion Registry :=
  constructor nullTranslator text_factory
    {| textModelFactory := None;
       initialFileTypes := Some (getDefaultFileTypes nullTranslator ++ [unbalanced]) |}.

Definition same_name (path : string) : string := path.

(** A widget factory for every file type, the global default. *)
Definition editor : IWidgetFactory :=
  {| wf_name := "Editor";
     wf_fileTypes := ["*"; "markdown"];
     wf_defaultFor := Some ["*"; "python"];
     wf_defaultRendered := None;
     wf_readOnly := None;
     wf_modelName := Some "text";
     wf_preferKernel := None;
     wf_canStartKernel := None;
     wf_shutdownOnClose := None |}.

(** Another factory whose name differs from that of [editor] in case only. *)
Definition EDITOR : IWidgetFactory :=
  {| wf_name := "EDITOR";
     wf_fileTypes := ["json"];
     wf_defaultFor := Some ["json"];
     wf_defaultRendered := Some ["json"];
     wf_readOnly := Some true;
     wf_modelName := None;
     wf_preferKernel := None;
     wf_canStartKernel := None;
     wf_shutdownOnClose := None |}.

Definition registry_with_editor : Registry :=
  registry (addWidgetFactory editor default_registry).

(** The values the specification gives for the save state. *)
Definition spec_save_states : list string :=
  ["idle"; "started"; "completed"; "completed-manual"; "failed"].

(** *** Facts: the save state *)

Lemma SaveState_literal_cases (v : string) :
  (exists s, SaveState_literal s = v) <->
  v ∈ ["started"; "failed"; "completed"; "completed-manual"].
Proof.
  split.
  - intros [[] <-]; simpl; set_solver.
  - rewrite !elem_of_cons, elem_of_nil.
    intros [->|[->|[->|[->|[]]]]];
      [exists started | exists failed | exists completed | exists completed_manual];
      reflexivity.
Qed.

(** *** Facts: [getFileTypesForPath] *)

Section FileTypesForPathFacts.

Variable basename : string -> string.
Variable toLowerCase : string -> string.
Variable String_match : string -> string -> Completion bool.

Lemma push_if_app fts (ft : option IFileType) :
  push_if fts ft = fts ++ option_list ft.
Proof. destruct ft; simpl; [reflexivity | now rewrite app_nil_r]. Qed.

Lemma longer_than_dot_suffixes s :
  List.filter longer_than_dot (dot_suffixes s) =
  List.filter longer_than_dot
    (String dot (after_first_dot s) :: dot_suffixes (after_first_dot s)).
Proof.
  rewrite (dot_suffixes_step s). destruct (has_dot s) eqn:Hd; [reflexivity|].
  now rewrite (after_first_dot_no_dot s Hd).
Qed.

Lemma includes_elem_of ext (a : list string) :
  includes ext a = bool_decide (ext ∈ a).
Proof.
  unfold includes. induction a as [|x a IH]; [reflexivity|]. simpl. rewrite IH.
  destruct (String.eqb_spec ext x) as [->|N]; simpl.
  - symmetry. apply bool_decide_eq_true. apply list_elem_of_here.
  - destruct (decide (ext ∈ a)) as [I|NI].
    + rewrite !bool_decide_eq_true_2; [reflexivity | now apply list_elem_of_further | exact I].
    + rewrite !bool_decide_eq_false_2; [reflexivity | | exact NI].
      intros [?|?]%elem_of_cons; congruence.
Qed.

Lemma find_lists_extension fileTypes ext :
  find (lists_extension ext) fileTypes = first_listing fileTypes ext.
Proof.
  unfold find, first_listing, lists_extension.
  induction fileTypes as [|ft l IH]; [reflexivity|]. simpl.
  now rewrite includes_elem_of, IH.
Qed.

(** The loop, started on a dot followed by [rest], collects the file types
    of the dotted suffixes of that string. *)
Lemma ext_loop_dot_suffixes fileTypes n :
  forall rest fts, String.length rest <= n ->
    ext_loop fileTypes (String dot rest) fts =
    fts ++ by_extension fileTypes
             (List.filter longer_than_dot (String dot rest :: dot_suffixes rest)).
Proof.
  induction n as [|n IH]; intros rest fts Hlen.
  - destruct rest; [|simpl in Hlen; lia].
    rewrite ext_loop_equation_1.
    destruct (le_lt_dec _ _) as [Hle|Hgt]; [|simpl in Hgt; lia].
    simpl. now rewrite app_nil_r.
  - rewrite ext_loop_equation_1.
    destruct (le_lt_dec _ _) as [Hle|Hgt].
    + destruct rest; [|simpl in Hle; lia]. simpl. now rewrite app_nil_r.
    + rewrite ext_loop_clause_1_equation_2, next_ext_after.
      assert (Hrest : rest <> EmptyString) by (intros ->; simpl in Hgt; lia).
      pose proof (after_first_dot_shorter rest Hrest) as Hshort.
      change (after_first_dot (String dot rest)) with rest.
      rewrite IH by lia.
      rewrite push_if_app, <- app_assoc. f_equal.
      assert (Hlong : longer_than_dot (String dot rest) = true)
        by (apply Nat.ltb_lt; exact Hgt).
      cbn [List.filter]. rewrite Hlong.
      fold (List.filter longer_than_dot (dot_suffixes rest)).
      rewrite (longer_than_dot_suffixes rest).
      unfold by_extension at 2. cbn [omap list_omap].
      rewrite find_lists_extension.
      destruct (first_listing fileTypes (String dot rest)); reflexivity.
Qed.

Lemma extname_after path :
  extname basename toLowerCase path =
  toLowerCase (String dot (after_first_dot (basename path))).
Proof. unfold extname, shift. now rewrite join_tl_split. Qed.

(** The lower case of a string that starts with a dot starts with a dot. *)
Hypothesis toLowerCase_dot :
  forall s, exists t, toLowerCase (String dot s) = String dot t.

Lemma ext_loop_compound_extensions fileTypes name fts :
  ext_loop fileTypes (extname basename toLowerCase name) fts =
  fts ++ by_extension fileTypes (compound_extensions toLowerCase (basename name)).
Proof.
  rewrite extname_after. unfold compound_extensions.
  destruct (toLowerCase_dot (after_first_dot (basename name))) as [t ->].
  rewrite (ext_loop_dot_suffixes _ _ _ _ (le_n _)).
  cbn [dot_suffixes]. now rewrite Ascii.eqb_refl.
Qed.

(** How the pattern of one file type fares. *)
Lemma pattern_matches_true name ft :
  pattern_matches String_match name ft = Return true <->
  pattern_found String_match name ft.
Proof.
  unfold pattern_matches, pattern_found.
  destruct (ft_pattern ft) as [p|]; [|split; [discriminate | intros (? & ? & _); discriminate]].
  destruct (String.eqb_spec p "") as [->|N].
  - split; [discriminate | intros (q & [= <-] & Hq & _); congruence].
  - split; [intros H; eauto | intros (q & [= <-] & _ & H); exact H].
Qed.

Lemma pattern_matches_false name ft :
  pattern_matches String_match name ft = Return false <->
  pattern_passed String_match name ft.
Proof.
  unfold pattern_matches, pattern_passed.
  destruct (ft_pattern ft) as [p|]; [|split; auto].
  destruct (String.eqb_spec p "") as [->|N].
  - split; auto.
  - split.
    + intros H. right. right. eauto.
    + intros [?|[[= ->]|(q & [= <-] & H)]]; [discriminate | congruence | exact H].
Qed.

Lemma pattern_matches_throw name ft e :
  pattern_matches String_match name ft = Throw e <->
  pattern_refused String_match name ft e.
Proof.
  unfold pattern_matches, pattern_refused.
  destruct (ft_pattern ft) as [p|]; [|split; [discriminate | intros (? & ? & _); discriminate]].
  destruct (String.eqb_spec p "") as [->|N].
  - split; [discriminate | intros (q & [= <-] & Hq & _); congruence].
  - split; [intros H; eauto | intros (q & [= <-] & _ & H); exact H].
Qed.

(** What the search with a predicate that can throw ends with. *)
Lemma find_or_throw_Throw {A} (p : A -> Completion bool) (a : list A) e :
  find_or_throw p a = Throw e <->
  exists before x after,
    a = before ++ x :: after /\
    Forall (fun y => p y = Return false) before /\ p x = Throw e.
Proof.
  induction a as [|y a IH]; simpl.
  - split; [discriminate | intros ([|? ?] & ? & ? & ? & _); discriminate].
  - destruct (p y) as [[|]|e'] eqn:Hy.
    + split; [discriminate|].
      intros ([|z before] & x & after & Heq & Hb & Hx); injection Heq as <- _.
      * congruence.
      * inversion Hb; congruence.
    + rewrite IH. split.
      * intros (before & x & after & -> & Hb & Hx).
        exists (y :: before), x, after. auto.
      * intros ([|z before] & x & after & Heq & Hb & Hx); injection Heq as <- ->.
        -- congruence.
        -- inversion Hb; subst. exists before, x, after. auto.
    + split.
      * intros [= ->]. exists [], y, a. auto.
      * intros ([|z before] & x & after & Heq & Hb & Hx); injection Heq as <- _.
        -- congruence.
        -- inversion Hb; congruence.
Qed.

Lemma find_or_throw_Some {A} (p : A -> Completion bool) (a : list A) x :
  find_or_throw p a = Return (Some x) <->
  exists before after,
    a = before ++ x :: after /\
    Forall (fun y => p y = Return false) before /\ p x = Return true.
Proof.
  induction a as [|y a IH]; simpl.
  - split; [discriminate | intros ([|? ?] & ? & ? & _); discriminate].
  - destruct (p y) as [[|]|e'] eqn:Hy.
    + split.
      * intros [= ->]. exists [], a. auto.
      * intros ([|z before] & after & Heq & Hb & Hx); injection Heq as <- _.
        -- reflexivity.
        -- inversion Hb; congruence.
    + rewrite IH. split.
      * intros (before & after & -> & Hb & Hx).
        exists (y :: before), after. auto.
      * intros ([|z before] & after & Heq & Hb & Hx); injection Heq as <- ->.
        -- congruence.
        -- inversion Hb; subst. exists before, after. auto.
    + split; [discriminate|].
      intros ([|z before] & after & Heq & Hb & Hx); injection Heq as <- _.
      * congruence.
      * inversion Hb; congruence.
Qed.

Lemma find_or_throw_None {A} (p : A -> Completion bool) (a : list A) :
  find_or_throw p a = Return None <-> Forall (fun y => p y = Return false) a.
Proof.
  induction a as [|y a IH]; simpl.
  - split; [constructor | reflexivity].
  - destruct (p y) as [[|]|e'] eqn:Hy.
    + split; [discriminate | intros H; inversion H; congruence].
    + rewrite IH. split; [now constructor | intros H; now inversion H].
    + split; [discriminate | intros H; inversion H; congruence].
Qed.

Lemma Forall_pattern_passed name (l : list IFileType) :
  Forall (fun ft => pattern_matches String_match name ft = Return false) l <->
  Forall (pattern_passed String_match name) l.
Proof.
  split; intros H; eapply Forall_impl; try exact H;
    intros ft; apply pattern_matches_false.
Qed.

Lemma by_extension_nil fileTypes exts :
  by_extension fileTypes exts = [] <->
  Forall (fun ext => Forall (fun ft => ext ∉ ft_extensions ft) fileTypes) exts.
Proof.
  unfold by_extension. induction exts as [|e l IH]; cbn [omap list_omap].
  - split; [constructor | reflexivity].
  - unfold first_listing at 1.
    destruct (List.find _ fileTypes) as [ft|] eqn:He.
    + split; [discriminate|]. intros H. inversion H as [|? ? Hno _]; subst.
      apply List.find_some in He as [Hin Hft].
      apply bool_decide_eq_true in Hft.
      rewrite List.Forall_forall in Hno. now apply Hno in Hin.
    + rewrite IH. split; [|intros H; now inversion H].
      intros H. constructor; [|exact H].
      apply List.Forall_forall. intros ft Hin Hext.
      pose proof (List.find_none _ _ He ft Hin) as Hn. simpl in Hn.
      apply bool_decide_eq_false in Hn. contradiction.
Qed.

End FileTypesForPathFacts.

(** *** Facts: [addWidgetFactory] *)

Lemma addWidgetFactory_throws factory r :
  (exists m, completion (addWidgetFactory factory r) = Throw m) <->
  toLowerCase (wf_name factory) = "" \/ toLowerCase (wf_name factory) = "default".
Proof.
  unfold addWidgetFactory.
  destruct (String.eqb_spec (toLowerCase (wf_name factory)) "") as [E1|N1];
    [simpl; split; eauto|].
  destruct (String.eqb_spec (toLowerCase (wf_name factory)) "default") as [E2|N2];
    [simpl; split; eauto|].
  simpl. split; [|intros [?|?]; congruence].
  intros [m Hm].
  destruct (_widgetFactories r !! toLowerCase (wf_name factory)); discriminate.
Qed.

Lemma addWidgetFactory_valid_names factory r :
  valid_names r -> valid_names (registry (addWidgetFactory factory r)).
Proof.
  intros [H1 H2]. unfold addWidgetFactory.
  destruct (String.eqb_spec (toLowerCase (wf_name factory)) "") as [E1|N1];
    [split; assumption|].
  destruct (String.eqb_spec (toLowerCase (wf_name factory)) "default") as [E2|N2];
    [split; assumption|].
  simpl.
  destruct (_widgetFactories r !! toLowerCase (wf_name factory));
    [split; assumption|].
  split; simpl; rewrite lookup_insert_ne by congruence; assumption.
Qed.

Lemma call_valid_names fn r : valid_names r -> valid_names (call fn r).
Proof.
  intros [H1 H2]. destruct fn as [|name]; [split; assumption|].
  split; simpl; apply lookup_delete_None; auto.
Qed.

Lemma reachable_valid_names r : reachable r -> valid_names r.
Proof.
  induction 1 as [trans tmf options r Hc|factory r _ IH|fn r _ IH|r r' _ IH Heq].
  - unfold constructor in Hc.
    destruct (match textModelFactory options with
              | Some f => negb (String.eqb (mf_name f) "text")
              | None => false
              end); [discriminate|].
    injection Hc as <-. split; apply lookup_empty.
  - now apply addWidgetFactory_valid_names.
  - now apply call_valid_names.
  - unfold valid_names. now rewrite Heq.
Qed.

Lemma addWidgetFactory_registered factory r old :
  valid_names r ->
  _widgetFactories r !! toLowerCase (wf_name factory) = Some old ->
  addWidgetFactory factory r =
  {| completion := Return {| _fn := Some noOp |};
     registry := r;
     warnings :=
       [("Duplicate registered factory " ++ toLowerCase (wf_name factory))%string] |}.
Proof.
  intros [H1 H2] Hreg. unfold addWidgetFactory.
  destruct (String.eqb_spec (toLowerCase (wf_name factory)) "") as [E1|N1];
    [congruence|].
  destruct (String.eqb_spec (toLowerCase (wf_name factory)) "default") as [E2|N2];
    [congruence|].
  simpl. now rewrite Hreg.
Qed.

(** *** The registry on concrete inputs *)

Lemma toLowerCase_keeps_dot s :
  exists t, toLowerCase (String dot s) = String dot t.
Proof. exists (toLowerCase s). reflexivity. Qed.

Example getFileTypesForPath_compound :
  getFileTypesForPath same_name toLowerCase only_Dockerfile "Data.Table.JSON"
    extended_registry
  = Return [table_json;
            spread (getFileTypeDefaults nullTranslator)
              (entry nullTranslator "json" "JSON File" ["application/json"] [".json"]
                 "jsonIcon" None)].
Proof. reflexivity. Qed.

Example getFileTypesForPath_pattern :
  getFileTypesForPath same_name toLowerCase only_Dockerfile "Dockerfile"
    extended_registry
  = Return [dockerfile].
Proof. reflexivity. Qed.

Example getFileTypesForPath_unknown :
  getFileTypesForPath same_name toLowerCase only_Dockerfile "archive.tar.gz"
    extended_registry
  = Return [].
Proof. reflexivity. Qed.

Example getFileTypesForPath_inner_extension :
  getFileTypesForPath same_name toLowerCase only_Dockerfile "notes.ipynb.md"
    extended_registry
  = Return [spread (getFileTypeDefaults nullTranslator)
              (entry nullTranslator "markdown" "Markdown File" ["text/markdown"]
                 [".md"] "markdownIcon" None)].
Proof. reflexivity. Qed.

Example addWidgetFactory_first :
  let r := registry_with_editor in
  _widgetFactories r !! "editor" = Some editor /\
  _defaultWidgetFactory r = "editor" /\
  _defaultWidgetFactories r = ∅ /\
  _widgetFactoriesForFileType r !! "*" = Some ["editor"] /\
  _widgetFactoriesForFileType r !! "markdown" = Some ["editor"] /\
  _changed r =
    [{| ca_type := widgetFactory; ca_name := Some "editor"; ca_change := added |}].
Proof. vm_compute. repeat split; reflexivity. Qed.

Example addWidgetFactory_then_dispose :
  let o := addWidgetFactory editor default_registry in
  match completion o with
  | Return d =>
      let r := snd (dispose d (registry o)) in
      _widgetFactories r = ∅ /\ _defaultWidgetFactory r = "" /\
      _widgetFactoriesForFileType r = ∅ /\ length (_changed r) = 2
  | Throw _ => False
  end.
Proof. vm_compute. repeat split; reflexivity. Qed.

(** *** The registry against its description *)

(** C1, as the specification has it, fails: the specification lists
    ['idle'] among the values of the save state, and no member of
    [SaveState] is that string. *)
Lemma saveState_idle_is_no_SaveState :
  "idle" ∈ spec_save_states /\ ~ exists s, SaveState_literal s = "idle".
Proof.
  split; [set_solver|].
  intros [[] H]; discriminate H.
Qed.

(** C1, amended: the values a [saveState] notification carries are exactly
    the four strings ['started'], ['failed'], ['completed'] and
    ['completed-manual']; each of them is one of the values the
    specification lists. *)
Theorem saveState_ranges_over_four_values :
  (forall v : string,
     (exists s, SaveState_literal s = v) <->
     v ∈ ["started"; "failed"; "completed"; "completed-manual"]) /\
  (forall s : SaveState, SaveState_literal s ∈ spec_save_states).
Proof.
  split; [apply SaveState_literal_cases|].
  intros []; unfold spec_save_states; simpl; set_solver.
Qed.

(** C9, as it is stated, fails where a registered file type has a pattern
    that is not a regular expression: for a name that the file type of
    markdown would match by its extension, [getFileTypesForPath] returns no
    list, the [SyntaxError] of the engine leaves it. *)
Lemma getFileTypesForPath_throws_on_unbalanced_pattern :
  exists r,
    registry_with_unbalanced = Return r /\
    getFileTypesForPath same_name toLowerCase only_Dockerfile "notes.md" r =
    Throw "SyntaxError: Invalid regular expression: /(/: Unterminated group" /\
    ~ exists fts,
        getFileTypesForPath same_name toLowerCase only_Dockerfile "notes.md" r
        = Return fts.
Proof.
  eexists. split; [reflexivity|].
  split; [reflexivity|]. intros [fts H]. discriminate H.
Qed.

(** C9, amended. Going through the registered file types in order,
    [getFileTypesForPath] throws what the engine throws when it comes to a
    pattern that is not a regular expression before it comes to one that
    matches the basename. Otherwise it returns first the first registered
    file type whose pattern matches the basename, when there is one, then,
    for the compound extensions of the basename from the longest to the
    shortest, the first registered file type that lists the extension; the
    result is empty exactly when nothing matches. [extname] takes the
    basename of the name it is given once more. *)
Theorem getFileTypesForPath_order
    (basename toLowerCase : string -> string)
    (String_match : string -> string -> Completion bool)
    (path : string) (r : Registry) :
  (forall s, exists t, toLowerCase (String dot s) = String dot t) ->
  let name := basename path in
  let exts := compound_extensions toLowerCase (basename name) in
  let result := getFileTypesForPath basename toLowerCase String_match path r in
  (forall e,
     result = Throw e <->
     exists before ft after,
       _fileTypes r = before ++ ft :: after /\
       Forall (pattern_passed String_match name) before /\
       pattern_refused String_match name ft e) /\
  (forall fts,
     result = Return fts <->
     (Forall (pattern_passed String_match name) (_fileTypes r) /\
      fts = by_extension (_fileTypes r) exts) \/
     (exists before ft after,
        _fileTypes r = before ++ ft :: after /\
        Forall (pattern_passed String_match name) before /\
        pattern_found String_match name ft /\
        fts = ft :: by_extension (_fileTypes r) exts)) /\
  (result = Return [] <->
   Forall (pattern_passed String_match name) (_fileTypes r) /\
   Forall (fun ext => Forall (fun ft => ext ∉ ft_extensions ft) (_fileTypes r)) exts).
Proof.
  intros Hdot name exts result. subst result. unfold getFileTypesForPath.
  fold name.
  assert (Hloop : forall o,
             ext_loop (_fileTypes r) (extname basename toLowerCase name)
               (push_if [] o) =
             option_list o ++ by_extension (_fileTypes r) exts).
  { intros o. rewrite (ext_loop_compound_extensions basename toLowerCase Hdot).
    now rewrite push_if_app. }
  cbv zeta.
  destruct (find_or_throw (pattern_matches String_match name) (_fileTypes r))
    as [[ft|]|e0] eqn:Hfind.
  - rewrite Hloop. simpl.
    apply find_or_throw_Some in Hfind as (before & after & Heq & Hb & Hft).
    apply Forall_pattern_passed in Hb. apply pattern_matches_true in Hft.
    assert (Hnot : ~ Forall (pattern_passed String_match name) (_fileTypes r)).
    { rewrite Heq. intros Hall. apply Forall_app in Hall as [_ Hall].
      inversion Hall as [|? ? Hp _]; subst.
      apply pattern_matches_false in Hp. apply pattern_matches_true in Hft.
      congruence. }
    split; [|split].
    + intros e. split; [discriminate|].
      intros (before' & ft' & after' & Heq' & Hb' & Hft').
      exfalso.
      assert (Hthrow : find_or_throw (pattern_matches String_match name)
                         (_fileTypes r) = Throw e).
      { apply find_or_throw_Throw. exists before', ft', after'.
        split; [exact Heq'|]. split; [now apply Forall_pattern_passed|].
        now apply pattern_matches_throw. }
      assert (Hsome : find_or_throw (pattern_matches String_match name)
                        (_fileTypes r) = Return (Some ft)).
      { apply find_or_throw_Some. exists before, after.
        split; [exact Heq|]. split; [now apply Forall_pattern_passed|].
        now apply pattern_matches_true. }
      congruence.
    + intros fts. split.
      * intros [= <-]. right. exists before, ft, after. auto.
      * intros [[Hall _]|(before' & ft' & after' & Heq' & Hb' & Hft' & ->)];
          [contradiction|].
        assert (Hsome : find_or_throw (pattern_matches String_match name)
                          (_fileTypes r) = Return (Some ft')).
        { apply find_or_throw_Some. exists before', after'.
          split; [exact Heq'|]. split; [now apply Forall_pattern_passed|].
          now apply pattern_matches_true. }
        assert (Hsome0 : find_or_throw (pattern_matches String_match name)
                           (_fileTypes r) = Return (Some ft)).
        { apply find_or_throw_Some. exists before, after.
          split; [exact Heq|]. split; [now apply Forall_pattern_passed|].
          now apply pattern_matches_true. }
        congruence.
    + split; [discriminate | intros [Hall _]; contradiction].
  - rewrite Hloop. simpl.
    apply find_or_throw_None, Forall_pattern_passed in Hfind.
    split; [|split].
    + intros e. split; [discriminate|].
      intros (before' & ft' & after' & Heq' & Hb' & Hft'). exfalso.
      rewrite Heq' in Hfind. apply Forall_app in Hfind as [_ Hall].
      inversion Hall as [|? ? Hp _]; subst.
      apply pattern_matches_false in Hp. apply pattern_matches_throw in Hft'.
      congruence.
    + intros fts. split.
      * intros [= <-]. now left.
      * intros [[_ ->]|(before' & ft' & after' & Heq' & Hb' & Hft' & ->)];
          [reflexivity|]. exfalso.
        rewrite Heq' in Hfind. apply Forall_app in Hfind as [_ Hall].
        inversion Hall as [|? ? Hp _]; subst.
        apply pattern_matches_false in Hp. apply pattern_matches_true in Hft'.
        congruence.
    + rewrite <- by_extension_nil. split.
      * intros [= H]. auto.
      * intros [_ ->]. reflexivity.
  - assert (Hnot : ~ Forall (pattern_passed String_match name) (_fileTypes r)).
    { intros Hall. apply Forall_pattern_passed, find_or_throw_None in Hall.
      congruence. }
    split; [|split].
    + intros e. split.
      * intros [= <-].
        apply find_or_throw_Throw in Hfind as (before & ft & after & Heq & Hb & Hft).
        exists before, ft, after. split; [exact Heq|].
        split; [now apply Forall_pattern_passed | now apply pattern_matches_throw].
      * intros (before & ft & after & Heq & Hb & Hft). f_equal.
        assert (Hthrow : find_or_throw (pattern_matches String_match name)
                           (_fileTypes r) = Throw e).
        { apply find_or_throw_Throw. exists before, ft, after.
          split; [exact Heq|]. split; [now apply Forall_pattern_passed|].
          now apply pattern_matches_throw. }
        congruence.
    + intros fts. split; [discriminate|].
      intros [[Hall _]|(before & ft & after & Heq & Hb & Hft & _)];
        [contradiction|]. exfalso.
      assert (Hsome : find_or_throw (pattern_matches String_match name)
                        (_fileTypes r) = Return (Some ft)).
      { apply find_or_throw_Some. exists before, after.
        split; [exact Heq|]. split; [now apply Forall_pattern_passed|].
        now apply pattern_matches_true. }
      congruence.
    + split; [discriminate | intros [Hall _]; contradiction].
Qed.

Lemma getFileTypesForPath_order_witness :
  let name := "Data.Table.JSON" in
  let exts := compound_extensions toLowerCase name in
  let result :=
    getFileTypesForPath same_name toLowerCase only_Dockerfile name extended_registry in
  exts = [".table.json"; ".json"] /\
  (forall fts,
     result = Return fts <->
     (Forall (pattern_passed only_Dockerfile name) (_fileTypes extended_registry) /\
      fts = by_extension (_fileTypes extended_registry) exts) \/
     (exists before ft after,
        _fileTypes extended_registry = before ++ ft :: after /\
        Forall (pattern_passed only_Dockerfile name) before /\
        pattern_found only_Dockerfile name ft /\
        fts = ft :: by_extension (_fileTypes extended_registry) exts)).
Proof.
  split; [reflexivity|].
  exact (proj1 (proj2 (getFileTypesForPath_order same_name toLowerCase
                         only_Dockerfile "Data.Table.JSON" extended_registry
                         (fun s => ex_intro _ (toLowerCase s) eq_refl)))).
Defined.

(** C10: on a registry the class can be in, [addWidgetFactory] with a
    factory whose lower-cased name is registered already leaves the
    registry as it is (no table is changed and [changed] is not emitted) and
    returns a disposable whose [dispose] leaves any registry as it is; and
    [addWidgetFactory] throws exactly when the lower-cased name is empty or
    ['default']. *)
Theorem addWidgetFactory_duplicate_is_noop (factory : IWidgetFactory) (r : Registry) :
  let name := toLowerCase (wf_name factory) in
  let o := addWidgetFactory factory r in
  (reachable r -> is_Some (_widgetFactories r !! name) ->
   registry o = r /\
   exists d, completion o = Return d /\ forall r0, snd (dispose d r0) = r0) /\
  ((exists m, completion o = Throw m) <-> name = "" \/ name = "default").
Proof.
  intros name o. split; [|apply addWidgetFactory_throws].
  intros Hreach [old Hold]. subst o.
  rewrite (addWidgetFactory_registered factory r old
             (reachable_valid_names r Hreach) Hold).
  simpl. split; [reflexivity|].
  eexists. split; [reflexivity|]. intros r0. reflexivity.
Qed.

Lemma addWidgetFactory_duplicate_is_noop_witness :
  reachable registry_with_editor /\
  is_Some (_widgetFactories registry_with_editor !! toLowerCase (wf_name EDITOR)) /\
  registry (addWidgetFactory EDITOR registry_with_editor) = registry_with_editor /\
  exists d, completion (addWidgetFactory EDITOR registry_with_editor) = Return d /\
            forall r0, snd (dispose d r0) = r0.
Proof.
  assert (Hr : reachable registry_with_editor).
  { apply reach_addWidgetFactory.
    apply (reach_constructor nullTranslator text_factory
             {| textModelFactory := None; initialFileTypes := None |}).
    reflexivity. }
  assert (Hs : is_Some (_widgetFactories registry_with_editor
                          !! toLowerCase (wf_name EDITOR))).
  { exists editor. vm_compute. reflexivity. }
  split; [exact Hr|]. split; [exact Hs|].
  exact (proj1 (addWidgetFactory_duplicate_is_noop EDITOR registry_with_editor) Hr Hs).
Defined.

End DocumentRegistry.

(** ** The storage gateway *)

(** The contents manager ([manager.contents] in the test suite) is part of
    [@jupyterlab/services] and not among the sources; the specification
    describes it as the Storage Gateway. *)
Module Contents.

Definition Error : Type := string.

Definition forbidden_403 : Error := "Invalid response: 403 Forbidden".
Definition not_found_404 : Error := "Invalid response: 404 Not Found".
Definition conflict_409 : Error := "Invalid response: 409 Conflict".

(** [Contents.IModel] without its content: the metadata of a file. *)
Record IModel : Type := {
  path : string;
  last_modified : nat;
  format : string
}.

(** [Contents.ICheckpointModel]. *)
Record ICheckpointModel : Type := {
  id : nat;
  cp_last_modified : nat
}.

#[global] Instance IModel_eq_dec : EqDecision IModel.
Proof. solve_decision. Defined.

#[global] Instance ICheckpointModel_eq_dec : EqDecision ICheckpointModel.
Proof. solve_decision. Defined.

Record File : Type := {
  content : string;
  modified : nat
}.

Record Checkpoint : Type := {
  model : ICheckpointModel;
  snapshot : string
}.

Inductive Request : Type :=
| GET (path : string)
| PUT (path : string) (content : string)
| PATCH (oldPath newPath : string)
| DELETE (path : string)
| POST_checkpoint (path : string)
| GET_checkpoints (path : string)
| DELETE_checkpoint (path : string) (checkpointID : nat)
| POST_restore (path : string) (checkpointID : nat).

(** The requests that change what is stored. *)
Definition is_write (q : Request) : bool :=
  match q with
  | GET _ | GET_checkpoints _ => false
  | _ => true
  end.

(** Modelled from the spec: the Storage Gateway of section 6, which is not
    among the sources: a store addressed by path, with the checkpoints of
    each path (newest first), the paths it protects against writes (the mock
    of the test suite refuses ['readonly.txt'] with [403 Forbidden]), a
    clock for the modification times, and the requests it has received,
    oldest first. *)
Record Storage : Type := {
  files : gmap string File;
  checkpoints : gmap string (list Checkpoint);
  protected : gset string;
  clock : nat;
  log : list Request
}.

Definition request (q : Request) (st : Storage) : Storage :=
  {| files := files st; checkpoints := checkpoints st;
     protected := protected st; clock := clock st; log := log st ++ [q] |}.

Definition metadata (p : string) (f : File) : IModel :=
  {| path := p; last_modified := modified f; format := "text" |}.

(** Modelled from the spec: [get(path, options)] of the gateway, which
    answers with the content and the metadata. *)
Definition get (p : string) (st : Storage) : (Error + string * IModel) * Storage :=
  let st := request (GET p) st in
  match files st !! p with
  | Some f => (inr (content f, metadata p f), st)
  | None => (inl not_found_404, st)
  end.

(** Modelled from the spec: [save(path, content)] of the gateway, which
    answers with the metadata and is refused on a protected path. *)
Definition save (p : string) (c : string) (st : Storage)
  : (Error + IModel) * Storage :=
  let st := request (PUT p c) st in
  if decide (p ∈ protected st) then (inl forbidden_403, st)
  else
    let f := {| content := c; modified := S (clock st) |} in
    (inr (metadata p f),
     {| files := <[p := f]> (files st); checkpoints := checkpoints st;
        protected := protected st; clock := S (clock st); log := log st |}).

(** Modelled from the spec: [rename(old, new)] of the gateway. *)
Definition rename (old new : string) (st : Storage)
  : (Error + IModel) * Storage :=
  let st := request (PATCH old new) st in
  match files st !! old with
  | None => (inl not_found_404, st)
  | Some f =>
      if decide (old ∈ protected st ∨ new ∈ protected st)
      then (inl forbidden_403, st)
      else if decide (is_Some (files st !! new)) then (inl conflict_409, st)
      else
        let f' := {| content := content f; modified := S (clock st) |} in
        (inr (metadata new f'),
         {| files := <[new := f']> (delete old (files st));
            checkpoints := checkpoints st;
            protected := protected st; clock := S (clock st); log := log st |})
  end.

(** Modelled from the spec: [delete(path)] of the gateway. *)
Definition delete_file (p : string) (st : Storage) : (Error + unit) * Storage :=
  let st := request (DELETE p) st in
  match files st !! p with
  | None => (inl not_found_404, st)
  | Some _ =>
      if decide (p ∈ protected st) then (inl forbidden_403, st)
      else
        (inr tt,
         {| files := delete p (files st); checkpoints := checkpoints st;
            protected := protected st; clock := clock st; log := log st |})
  end.

(** Modelled from the spec: [createCheckpoint(path)] of the gateway; a
    checkpoint is a snapshot of the stored document, with an opaque id and
    a timestamp the gateway assigns. *)
Definition createCheckpoint (p : string) (st : Storage)
  : (Error + ICheckpointModel) * Storage :=
  let st := request (POST_checkpoint p) st in
  match files st !! p with
  | None => (inl not_found_404, st)
  | Some f =>
      let m := {| id := S (clock st); cp_last_modified := S (clock st) |} in
      let cp := {| model := m; snapshot := content f |} in
      (inr m,
       {| files := files st;
          checkpoints :=
            <[p := cp :: default [] (checkpoints st !! p)]> (checkpoints st);
          protected := protected st; clock := S (clock st); log := log st |})
  end.

(** Modelled from the spec: [listCheckpoints(path)] of the gateway. *)
Definition listCheckpoints (p : string) (st : Storage)
  : (Error + list ICheckpointModel) * Storage :=
  let st := request (GET_checkpoints p) st in
  match files st !! p with
  | None => (inl not_found_404, st)
  | Some _ => (inr (map model (default [] (checkpoints st !! p))), st)
  end.

Definition has_id (i : nat) (cp : Checkpoint) : bool := Nat.eqb (id (model cp)) i.

(** Modelled from the spec: [deleteCheckpoint(path, id)] of the gateway. *)
Definition deleteCheckpoint (p : string) (i : nat) (st : Storage)
  : (Error + unit) * Storage :=
  let st := request (DELETE_checkpoint p i) st in
  let cps := default [] (checkpoints st !! p) in
  if existsb (has_id i) cps then
    (inr tt,
     {| files := files st;
        checkpoints :=
          <[p := List.filter (fun cp => negb (has_id i cp)) cps]> (checkpoints st);
        protected := protected st; clock := clock st; log := log st |})
  else (inl not_found_404, st).

(** Modelled from the spec: [restoreCheckpoint(path, id)] of the gateway,
    which puts the snapshot back as the stored document. *)
Definition restoreCheckpoint (p : string) (i : nat) (st : Storage)
  : (Error + unit) * Storage :=
  let st := request (POST_restore p i) st in
  match List.find (has_id i) (default [] (checkpoints st !! p)) with
  | None => (inl not_found_404, st)
  | Some cp =>
      if decide (p ∈ protected st) then (inl forbidden_403, st)
      else
        let f := {| content := snapshot cp; modified := S (clock st) |} in
        (inr tt,
         {| files := <[p := f]> (files st); checkpoints := checkpoints st;
            protected := protected st; clock := S (clock st); log := log st |})
  end.

(** The store of the mock: empty, with ['readonly.txt'] protected. *)
Definition mock : Storage :=
  {| files := ∅; checkpoints := ∅; protected := {[ "readonly.txt" ]};
     clock := 0; log := [] |}.

End Contents.

(** ** The document context *)

(** The [Context] class ([context.ts]) is not among the sources;
    [registry.ts] declares its interface ([IContext], [IModel],
    [SaveState]) and the test suite [docregistry/context] exercises it.
    The operations below follow section 4.1 of the specification, without
    the collaborative provider, which the test suite does not configure.
    The test suite is followed where it fixes what the specification leaves
    open or states otherwise: [save] writes content that was loaded with
    CR LF line endings back with CR LF line endings (test 'should preserve
    CRLF line endings upon save'), and [saveAs] leaves the file at the old
    path in place (test 'should save the document to a different path
    chosen by the user'). *)
Module DocContext.
Import JSString.

(** [DocumentRegistry.IModel], the members the context uses. *)
Class IModel (M : Type) : Type := {
  dirty : M -> bool;
  set_dirty : bool -> M -> M;
  toString : M -> string;
  fromString : string -> M -> M;
  initialize : M -> M
}.

(** Modelled from the spec: the Model (section 2), as the
    [TextModelFactory] of the test suite creates it ([./default] is not
    among the sources): a string and the dirty flag, which a change of the
    content sets. *)
Record TextModel : Type := {
  value : string;
  text_dirty : bool
}.

#[export] Instance TextModel_IModel : IModel TextModel := {|
  dirty := text_dirty;
  set_dirty b m := {| value := value m; text_dirty := b |};
  toString := value;
  fromString s m := {| value := s; text_dirty := true |};
  initialize m := m
|}.

Definition createNew : TextModel := {| value := ""; text_dirty := false |}.

(** Modelled from the spec: the data model of the Context (section 3) with
    the members of [IContext]. The signals [saveState], [pathChanged],
    [fileChanged] and [disposed] are represented by the lists of the values
    they were emitted with, oldest first; the [ready] promise is resolved
    when [isReady] holds; [useCRLF] remembers whether [save] is to write
    the line endings as CR LF. *)
Record State : Type := {
  path : string;
  model : TextModel;
  contentsModel : option Contents.IModel;
  isReady : bool;
  isDisposed : bool;
  useCRLF : bool;
  saveState : list DocumentRegistry.SaveState;
  pathChanged : list string;
  fileChanged : list Contents.IModel;
  disposed : list unit
}.

Record World : Type := {
  ctx : State;
  storage : Contents.Storage
}.

(** What an operation resolves to. *)
Inductive Value : Type :=
| undefined
| checkpoint (m : Contents.ICheckpointModel)
| checkpoint_list (l : list Contents.ICheckpointModel).

(** How the promise of an operation is settled. *)
Inductive Settled : Type :=
| Resolved (v : Value)
| Rejected (e : Contents.Error).

(** Modelled from the spec: the outputs of the conflict and rename policy
    (section 4.3). *)
Inductive Choice : Type :=
| proceed_with_path (p : string)
| overwrite
| cancel.

Definition disposed_error : Contents.Error := "Disposed".

#[global] Instance Value_eq_dec : EqDecision Value.
Proof. solve_decision. Defined.

#[global] Instance Settled_eq_dec : EqDecision Settled.
Proof. unfold Contents.Error. solve_decision. Defined.

(** *** Field updates *)

Definition set_path (p : string) (c : State) : State :=
  {| path := p; model := model c; contentsModel := contentsModel c;
     isReady := isReady c; isDisposed := isDisposed c; useCRLF := useCRLF c;
     saveState := saveState c; pathChanged := pathChanged c ++ [p];
     fileChanged := fileChanged c; disposed := disposed c |}.

Definition set_model (m : TextModel) (c : State) : State :=
  {| path := path c; model := m; contentsModel := contentsModel c;
     isReady := isReady c; isDisposed := isDisposed c; useCRLF := useCRLF c;
     saveState := saveState c; pathChanged := pathChanged c;
     fileChanged := fileChanged c; disposed := disposed c |}.

Definition updateContentsModel (m : Contents.IModel) (c : State) : State :=
  {| path := path c; model := model c; contentsModel := Some m;
     isReady := isReady c; isDisposed := isDisposed c; useCRLF := useCRLF c;
     saveState := saveState c; pathChanged := pathChanged c;
     fileChanged := fileChanged c ++ [m]; disposed := disposed c |}.

Definition set_useCRLF (b : bool) (c : State) : State :=
  {| path := path c; model := model c; contentsModel := contentsModel c;
     isReady := isReady c; isDisposed := isDisposed c; useCRLF := b;
     saveState := saveState c; pathChanged := pathChanged c;
     fileChanged := fileChanged c; disposed := disposed c |}.

Definition emit_saveState (s : DocumentRegistry.SaveState) (c : State) : State :=
  {| path := path c; model := model c; contentsModel := contentsModel c;
     isReady := isReady c; isDisposed := isDisposed c; useCRLF := useCRLF c;
     saveState := saveState c ++ [s]; pathChanged := pathChanged c;
     fileChanged := fileChanged c; disposed := disposed c |}.

(** Modelled from the spec: the context is populated; the model is
    initialized and [ready] resolves. *)
Definition populate (c : State) : State :=
  {| path := path c; model := initialize (model c);
     contentsModel := contentsModel c;
     isReady := true; isDisposed := isDisposed c; useCRLF := useCRLF c;
     saveState := saveState c; pathChanged := pathChanged c;
     fileChanged := fileChanged c; disposed := disposed c |}.

Definition new_Context (p : string) : State :=
  {| path := p; model := createNew; contentsModel := None;
     isReady := false; isDisposed := false; useCRLF := false;
     saveState := []; pathChanged := []; fileChanged := []; disposed := [] |}.

(** *** The operations *)

(** Modelled from the spec: the string [save] hands to the gateway, which
    is what the serializer of the model produces; following the test
    'should preserve CRLF line endings upon save', its LF are written as
    CR LF when the content loaded last was marked so by [load]. *)
Definition serialized (c : State) : string :=
  let content := toString (model c) in
  if useCRLF c then replace_lf_crlf content else content.

(** Modelled from the spec: the write of [save] and of [initialize(true)]
    (section 4.1): [started], the write to the gateway at the current path,
    then [failed] and the error, or the new metadata, a clean model and
    [completed] or [completed-manual]. *)
Definition write (manual : bool) (w : World) : Settled * World :=
  let c := emit_saveState DocumentRegistry.started (ctx w) in
  match Contents.save (path c) (serialized c) (storage w) with
  | (inl e, st) =>
      (Rejected e,
       {| ctx := emit_saveState DocumentRegistry.failed c; storage := st |})
  | (inr m, st) =>
      let c := set_model (set_dirty false (model c)) c in
      let c := updateContentsModel m c in
      let terminal := if manual then DocumentRegistry.completed_manual
                      else DocumentRegistry.completed in
      (Resolved undefined, {| ctx := emit_saveState terminal c; storage := st |})
  end.

(** Modelled from the spec: a conflict (section 4.1), the stored document
    being newer than the last-known metadata. *)
Definition newer_than_known (remote : Contents.IModel) (c : State) : bool :=
  match contentsModel c with
  | Some known => (Contents.last_modified known <? Contents.last_modified remote)%nat
  | None => false
  end.

(** Modelled from the spec: [save(manual)] (section 4.1); [choice] is what
    the conflict policy answers when it is consulted, and anything but
    [overwrite] abandons the save without an error. *)
Definition save (manual : bool) (choice : Choice) (w : World)
  : Settled * World :=
  if isDisposed (ctx w) then (Rejected disposed_error, w)
  else
    let '(r, st) := Contents.get (path (ctx w)) (storage w) in
    let w := {| ctx := ctx w; storage := st |} in
    let conflict :=
      match r with
      | inr (_, remote) => newer_than_known remote (ctx w)
      | inl _ => false
      end in
    if conflict && negb (match choice with overwrite => true | _ => false end)
    then (Resolved undefined, w)
    else write manual w.

(** Modelled from the spec: the load of [revert()] and of
    [initialize(false)] (section 4.1): the stored content is fetched, its
    CR LF are replaced by LF, the result is handed to the deserializer of
    the model, the dirty flag is cleared and the metadata is refreshed.
    The tests of [save] have the content "foo", CR, LF, "bar" written back
    with CR LF and the content "foo", LF, "bar" with LF; which other
    contents are written back with CR LF neither they nor the specification
    say. Here a content with a CR is; what is stated of [save] below is
    about contents without CR and contents in which every LF follows a CR,
    where looking for CR and looking for CR LF come to the same. *)
Definition load (initializeModel : bool) (w : World) : Settled * World :=
  match Contents.get (path (ctx w)) (storage w) with
  | (inl e, st) => (Rejected e, {| ctx := ctx w; storage := st |})
  | (inr (content, m), st) =>
      let c := ctx w in
      let c := set_useCRLF (contains (String CR EmptyString) content) c in
      let c := set_model (fromString (replace_crlf_lf content) (model c)) c in
      let c := set_model (set_dirty false (model c)) c in
      let c := updateContentsModel m c in
      let c := if initializeModel then populate c else c in
      (Resolved undefined, {| ctx := c; storage := st |})
  end.

(** Modelled from the spec: [revert()]. *)
Definition revert (w : World) : Settled * World :=
  if isDisposed (ctx w) then (Rejected disposed_error, w)
  else load false w.

(** Modelled from the spec: [initialize(isNew)] (section 4.1): a first save
    of the model as it is, or a load of the stored document; the context is
    ready once that has succeeded. *)
Definition initialize_context (isNew : bool) (w : World) : Settled * World :=
  if isDisposed (ctx w) then (Rejected disposed_error, w)
  else if isNew then
    match write false w with
    | (Resolved v, w) =>
        (Resolved v, {| ctx := populate (ctx w); storage := storage w |})
    | (Rejected e, w) => (Rejected e, w)
    end
  else load true w.

(** Modelled from the spec: [rename(newPath)] (section 4.1); on a failure
    nothing changes locally. *)
Definition rename (newPath : string) (w : World) : Settled * World :=
  if isDisposed (ctx w) then (Rejected disposed_error, w)
  else
    match Contents.rename (path (ctx w)) newPath (storage w) with
    | (inl e, st) => (Rejected e, {| ctx := ctx w; storage := st |})
    | (inr m, st) =>
        (Resolved undefined,
         {| ctx := updateContentsModel m (set_path newPath (ctx w));
            storage := st |})
    end.

(** Modelled from the spec: where [saveAs] is to save. *)
Inductive Destination : Type :=
| Cancelled
| SamePath (rest : list Choice)
| NewPath (p : string).

(** Modelled from the spec: the policy loop of [saveAs] (sections 4.1 and
    4.3): the answers of the policy are taken in turn; a proposed path that
    exists in the store is a collision, and the policy is asked again; a
    policy with no answer left cancels. *)
Fixpoint destination (answers : list Choice) (current : string)
    (candidate : option string) (st : Contents.Storage)
  : Destination * Contents.Storage :=
  match answers with
  | [] => (Cancelled, st)
  | cancel :: _ => (Cancelled, st)
  | overwrite :: _ =>
      match candidate with
      | Some p => (NewPath p, st)
      | None => (Cancelled, st)
      end
  | proceed_with_path p :: rest =>
      if String.eqb p current then (SamePath rest, st)
      else
        match Contents.get p st with
        | (inr _, st) => destination rest current (Some p) st
        | (inl _, st) => (NewPath p, st)
        end
  end.

(** Modelled from the spec: [saveAs()] (section 4.1): a no-op on [cancel],
    a manual save when the path stays, and otherwise the move of the context
    to the new path followed by a manual write; as the test 'should save
    the document to a different path chosen by the user' expects, the file
    at the old path stays. *)
Definition saveAs (answers : list Choice) (w : World) : Settled * World :=
  if isDisposed (ctx w) then (Rejected disposed_error, w)
  else
    match destination answers (path (ctx w)) None (storage w) with
    | (Cancelled, st) => (Resolved undefined, {| ctx := ctx w; storage := st |})
    | (SamePath rest, st) =>
        save true (hd cancel rest) {| ctx := ctx w; storage := st |}
    | (NewPath p, st) =>
        write true {| ctx := set_path p (ctx w); storage := st |}
    end.

(** Modelled from the spec: [createCheckpoint()]; the checkpoint
    operations pass through to the gateway at the current path. *)
Definition createCheckpoint (w : World) : Settled * World :=
  if isDisposed (ctx w) then (Rejected disposed_error, w)
  else
    match Contents.createCheckpoint (path (ctx w)) (storage w) with
    | (inl e, st) => (Rejected e, {| ctx := ctx w; storage := st |})
    | (inr m, st) => (Resolved (checkpoint m), {| ctx := ctx w; storage := st |})
    end.

(** Modelled from the spec: [listCheckpoints()]. *)
Definition listCheckpoints (w : World) : Settled * World :=
  if isDisposed (ctx w) then (Rejected disposed_error, w)
  else
    match Contents.listCheckpoints (path (ctx w)) (storage w) with
    | (inl e, st) => (Rejected e, {| ctx := ctx w; storage := st |})
    | (inr l, st) => (Resolved (checkpoint_list l), {| ctx := ctx w; storage := st |})
    end.

(** Modelled from the spec: [deleteCheckpoint(checkpointID)]. *)
Definition deleteCheckpoint (checkpointID : nat) (w : World) : Settled * World :=
  if isDisposed (ctx w) then (Rejected disposed_error, w)
  else
    match Contents.deleteCheckpoint (path (ctx w)) checkpointID (storage w) with
    | (inl e, st) => (Rejected e, {| ctx := ctx w; storage := st |})
    | (inr _, st) => (Resolved undefined, {| ctx := ctx w; storage := st |})
    end.

(** Modelled from the spec: [restoreCheckpoint(checkpointID?)]; without an
    id, the most recent checkpoint is restored, as [IContext] documents. *)
Definition restoreCheckpoint (checkpointID : option nat) (w : World)
  : Settled * World :=
  if isDisposed (ctx w) then (Rejected disposed_error, w)
  else
    let p := path (ctx w) in
    let chosen :=
      match checkpointID with
      | Some i => Some i
      | None =>
          Contents.id <$> (Contents.model <$>
            head (default [] (Contents.checkpoints (storage w) !! p)))
      end in
    match chosen with
    | None => (Rejected Contents.not_found_404, w)
    | Some i =>
        match Contents.restoreCheckpoint p i (storage w) with
        | (inl e, st) => (Rejected e, {| ctx := ctx w; storage := st |})
        | (inr _, st) => (Resolved undefined, {| ctx := ctx w; storage := st |})
        end
    end.

(** Modelled from the spec: [dispose()], which is idempotent. *)
Definition dispose (w : World) : World :=
  let c := ctx w in
  if isDisposed c then w
  else
    {| ctx :=
         {| path := path c; model := model c; contentsModel := contentsModel c;
            isReady := isReady c; isDisposed := true; useCRLF := useCRLF c;
            saveState := saveState c; pathChanged := pathChanged c;
            fileChanged := fileChanged c; disposed := disposed c ++ [tt] |};
       storage := storage w |}.

(** *** Programs over a context *)

(** What a caller, or another client of the store, can do. *)
Inductive Op : Type :=
| Initialize (isNew : bool)
| Save (manual : bool) (choice : Choice)
| SaveAs (answers : list Choice)
| Revert
| Rename (newPath : string)
| CreateCheckpoint
| ListCheckpoints
| DeleteCheckpoint (checkpointID : nat)
| RestoreCheckpoint (checkpointID : option nat)
| Dispose
| Model_fromString (value : string)
| Contents_save (path content : string).

Definition step (op : Op) (w : World) : Settled * World :=
  match op with
  | Initialize isNew => initialize_context isNew w
  | Save manual choice => save manual choice w
  | SaveAs answers => saveAs answers w
  | Revert => revert w
  | Rename newPath => rename newPath w
  | CreateCheckpoint => createCheckpoint w
  | ListCheckpoints => listCheckpoints w
  | DeleteCheckpoint i => deleteCheckpoint i w
  | RestoreCheckpoint i => restoreCheckpoint i w
  | Dispose => (Resolved undefined, dispose w)
  | Model_fromString v =>
      (Resolved undefined,
       {| ctx := set_model (fromString v (model (ctx w))) (ctx w);
          storage := storage w |})
  | Contents_save p c =>
      match Contents.save p c (storage w) with
      | (inl e, st) => (Rejected e, {| ctx := ctx w; storage := st |})
      | (inr _, st) => (Resolved undefined, {| ctx := ctx w; storage := st |})
      end
  end.

(** The operations one after the other, each awaited, with how each was
    settled. *)
Fixpoint run (ops : list Op) (w : World) : list Settled * World :=
  match ops with
  | [] => ([], w)
  | op :: ops =>
      let '(r, w) := step op w in
      let '(rs, w) := run ops w in
      (r :: rs, w)
  end.

(** The operations that go to the store on behalf of the context and
    come back with the metadata of the document. *)
Definition refreshes (op : Op) : bool :=
  match op with
  | Initialize _ | Save _ _ | SaveAs _ | Revert | Rename _ => true
  | _ => false
  end.



(** What the store holds at the path of the context. *)
Definition stored (w : World) : option string :=
  Contents.content <$> (Contents.files (storage w) !! path (ctx w)).

(** The writes among the requests the store has received. *)
Definition writes (w : World) : list Contents.Request :=
  List.filter Contents.is_write (Contents.log (storage w)).

(** The world of a test: a new context and the store of the mock. *)
Definition fresh (p : string) : World :=
  {| ctx := new_Context p; storage := Contents.mock |}.

Definition foo_LF_bar : string := "foo" ++ String LF "bar".
Definition foo_CRLF_bar : string := "foo" ++ String CR (String LF "bar").



(** *** The test suite [docregistry/context] *)

(** 'should preserve LF line endings upon save' *)
Definition test_save_preserves_LF (p : string) : bool :=
  let '(_, w) :=
    run [Initialize true; Contents_save p foo_LF_bar; Revert; Save false cancel]
        (fresh p) in
  bool_decide (stored w = Some foo_LF_bar).

(** 'should preserve CRLF line endings upon save' *)
Definition test_save_preserves_CRLF (p : string) : bool :=
  let '(_, w) :=
    run [Initialize true; Contents_save p foo_CRLF_bar; Revert; Save false cancel]
        (fresh p) in
  bool_decide (stored w = Some foo_CRLF_bar).

(** 'should normalize CRLF line endings to LF' *)
Definition test_revert_normalizes_CRLF (p : string) : bool :=
  let '(_, w) :=
    run [Initialize true; Contents_save p foo_CRLF_bar; Revert] (fresh p) in
  bool_decide (toString (model (ctx w)) = foo_LF_bar).

(** 'should revert the contents of the file to the disk' *)
Definition test_revert (p : string) : bool :=
  let '(_, w) :=
    run [Initialize true; Model_fromString "foo"; Save false cancel;
         Model_fromString "bar"; Revert] (fresh p) in
  bool_decide (toString (model (ctx w)) = "foo").

(** 'should emit 'failed' when the save operation fails out' *)
Definition test_saving_failed : bool :=
  let '(r, w) := run [Initialize true] (fresh "readonly.txt") in
  bool_decide (r = [Rejected "Invalid response: 403 Forbidden"]) &&
  bool_decide (length (saveState (ctx w)) = 2) &&
  bool_decide (last (saveState (ctx w)) = Some DocumentRegistry.failed).

(** 'should emit 'completed' when the file ends saving' *)
Definition test_saving_completed (p : string) : bool :=
  let '(_, w) := run [Initialize true] (fresh p) in
  bool_decide (saveState (ctx w) =
               [DocumentRegistry.started; DocumentRegistry.completed]).

(** '#contentsModel': null before population, set after it. *)
Definition test_contentsModel (p : string) : bool :=
  bool_decide (contentsModel (ctx (fresh p)) = None) &&
  let '(_, w) := run [Initialize true] (fresh p) in
  isReady (ctx w) &&
  bool_decide (Contents.path <$> contentsModel (ctx w) = Some p).

(** '#restoreCheckpoint()': 'should restore the value to the last
    checkpoint value'. *)
Definition test_restoreCheckpoint (p : string) : bool :=
  let '(r, w) :=
    run [Model_fromString "bar"; Initialize true; CreateCheckpoint] (fresh p) in
  match last r with
  | Some (Resolved (checkpoint m)) =>
      let '(_, w) :=
        run [Model_fromString "foo"; Save false cancel;
             RestoreCheckpoint (Some (Contents.id m)); Revert] w in
      bool_decide (toString (model (ctx w)) = "bar")
  | _ => false
  end.

(** '#saveAs()': 'should keep the file if overwrite is aborted'. *)
Definition test_saveAs_aborted (oldPath newPath : string) : bool :=
  let '(_, w) :=
    run [Contents_save newPath "foo"; Initialize true;
         SaveAs [proceed_with_path newPath; cancel]] (fresh oldPath) in
  bool_decide (path (ctx w) = oldPath).

(** '#saveAs()': 'should save the document to a different path chosen by
    the user'; both files are there afterwards. *)
Definition test_saveAs (oldPath newPath : string) : bool :=
  let '(_, w) :=
    run [Initialize true; SaveAs [proceed_with_path newPath]] (fresh oldPath) in
  bool_decide (path (ctx w) = newPath) &&
  bool_decide (is_Some (Contents.files (storage w) !! oldPath)) &&
  bool_decide (is_Some (Contents.files (storage w) !! newPath)).

(** '#saveAs()': 'should bring up a conflict dialog'. *)
Definition test_saveAs_conflict (oldPath newPath : string) : bool :=
  let '(_, w) :=
    run [Contents_save newPath "foo"; Initialize true;
         SaveAs [proceed_with_path newPath; overwrite]] (fresh oldPath) in
  bool_decide (path (ctx w) = newPath).

(** '#rename()': 'should change the name of the file to the new name'. *)
Definition test_rename (oldPath newName : string) : bool :=
  let '(_, w) :=
    run [Initialize true; Model_fromString "foo"; Rename newName;
         Save false cancel] (fresh oldPath) in
  bool_decide (Contents.content <$> (Contents.files (storage w) !! newName)
               = Some "foo").

Example the_tests_pass :
  test_save_preserves_LF "a.txt" = true /\
  test_save_preserves_CRLF "a.txt" = true /\
  test_revert_normalizes_CRLF "a.txt" = true /\
  test_revert "a.txt" = true /\
  test_saving_failed = true /\
  test_saving_completed "a.txt" = true /\
  test_contentsModel "a.txt" = true /\
  test_restoreCheckpoint "a.txt" = true /\
  test_saveAs_aborted "a.txt" "b.txt" = true /\
  test_saveAs "a.txt" "b.txt" = true /\
  test_saveAs_conflict "a.txt" "b.txt" = true /\
  test_rename "a.txt" "b.txt" = true.
Proof. vm_compute. repeat split; reflexivity. Qed.

(** *** Worlds to run the operations on *)


(** The world of a test after [initialize(true)]. *)
Definition initialized : World :=
  snd (initialize_context true (fresh "a.txt")).

(** The world of the test 'should keep the file if overwrite is aborted'
    before [saveAs]. *)
Definition before_saveAs : World :=
  snd (run [Contents_save "b.txt" "foo"; Initialize true] (fresh "a.txt")).


(** *** Facts: the gateway *)

Lemma get_stored p st f :
  Contents.files st !! p = Some f ->
  Contents.get p st =
  (inr (Contents.content f, Contents.metadata p f), Contents.request (Contents.GET p) st).
Proof. intros H. unfold Contents.get. simpl. now rewrite H. Qed.

Lemma get_missing p st :
  Contents.files st !! p = None ->
  Contents.get p st = (inl Contents.not_found_404, Contents.request (Contents.GET p) st).
Proof. intros H. unfold Contents.get. simpl. now rewrite H. Qed.

Lemma get_reads_only p st :
  let st' := snd (Contents.get p st) in
  Contents.files st' = Contents.files st /\
  Contents.checkpoints st' = Contents.checkpoints st /\
  Contents.protected st' = Contents.protected st /\
  Contents.clock st' = Contents.clock st /\
  List.filter Contents.is_write (Contents.log st') =
  List.filter Contents.is_write (Contents.log st).
Proof.
  unfold Contents.get. simpl.
  destruct (Contents.files st !! p); simpl; repeat split;
    rewrite List.filter_app; simpl; apply app_nil_r.
Qed.

Lemma save_unprotected p c st :
  p ∉ Contents.protected st ->
  Contents.save p c st =
  (inr {| Contents.path := p; Contents.last_modified := S (Contents.clock st);
          Contents.format := "text" |},
   {| Contents.files :=
        <[p := {| Contents.content := c; Contents.modified := S (Contents.clock st) |}]>
          (Contents.files st);
      Contents.checkpoints := Contents.checkpoints st;
      Contents.protected := Contents.protected st;
      Contents.clock := S (Contents.clock st);
      Contents.log := Contents.log st ++ [Contents.PUT p c] |}).
Proof.
  intros H. unfold Contents.save. simpl.
  destruct (decide (p ∈ Contents.protected st)); [contradiction | reflexivity].
Qed.

Lemma save_protected p c st :
  p ∈ Contents.protected st ->
  Contents.save p c st =
  (inl Contents.forbidden_403, Contents.request (Contents.PUT p c) st).
Proof.
  intros H. unfold Contents.save. simpl.
  destruct (decide (p ∈ Contents.protected st)); [reflexivity | contradiction].
Qed.


(** *** Facts: [revert] *)

Lemma load_stored b w f :
  Contents.files (storage w) !! path (ctx w) = Some f ->
  exists w',
    load b w = (Resolved undefined, w') /\
    model (ctx w') =
      set_dirty false (fromString (replace_crlf_lf (Contents.content f)) (model (ctx w))) /\
    useCRLF (ctx w') = contains (String CR EmptyString) (Contents.content f) /\
    contentsModel (ctx w') = Some (Contents.metadata (path (ctx w)) f) /\
    path (ctx w') = path (ctx w) /\
    isDisposed (ctx w') = isDisposed (ctx w) /\
    storage w' = Contents.request (Contents.GET (path (ctx w))) (storage w).
Proof.
  intros Hf. unfold load. rewrite (get_stored _ _ _ Hf).
  eexists. split; [reflexivity|].
  destruct b; repeat split; reflexivity.
Qed.

Lemma revert_resolved w v w' :
  revert w = (Resolved v, w') ->
  exists f,
    Contents.files (storage w) !! path (ctx w) = Some f /\
    model (ctx w') =
      set_dirty false (fromString (replace_crlf_lf (Contents.content f)) (model (ctx w))).
Proof.
  unfold revert. destruct (isDisposed (ctx w)); [discriminate|].
  destruct (Contents.files (storage w) !! path (ctx w)) as [f|] eqn:Hf.
  - destruct (load_stored false w f Hf) as (w1 & Hl & Hm & _).
    rewrite Hl. intros [= _ <-]. now exists f.
  - unfold load. rewrite (get_missing _ _ Hf). discriminate.
Qed.

(** *** Facts: [save] *)

(** Case analysis on whatever the goal branches on. *)
Ltac break_match :=
  match goal with
  | |- context [match ?x with _ => _ end] => destruct x eqn:?
  end.

Ltac crunch := repeat (break_match; simpl in * ); simpl in *.


Lemma write_refused manual w e st' :
  Contents.save (path (ctx w)) (serialized (ctx w)) (storage w) = (inl e, st') ->
  write manual w =
  (Rejected e,
   {| ctx := emit_saveState DocumentRegistry.failed
               (emit_saveState DocumentRegistry.started (ctx w));
      storage := st' |}).
Proof.
  intros H. unfold write.
  change (path (emit_saveState DocumentRegistry.started (ctx w))) with (path (ctx w)).
  change (serialized (emit_saveState DocumentRegistry.started (ctx w)))
    with (serialized (ctx w)).
  now rewrite H.
Qed.

Lemma write_accepted manual w :
  path (ctx w) ∉ Contents.protected (storage w) ->
  exists w',
    write manual w = (Resolved undefined, w') /\
    stored w' = Some (serialized (ctx w)) /\
    Contents.log (storage w') =
      Contents.log (storage w) ++ [Contents.PUT (path (ctx w)) (serialized (ctx w))] /\
    saveState (ctx w') =
      saveState (ctx w) ++
      [DocumentRegistry.started;
       if manual then DocumentRegistry.completed_manual else DocumentRegistry.completed] /\
    contentsModel (ctx w') =
      Some {| Contents.path := path (ctx w);
              Contents.last_modified := S (Contents.clock (storage w));
              Contents.format := "text" |} /\
    model (ctx w') = set_dirty false (model (ctx w)) /\
    path (ctx w') = path (ctx w) /\
    isReady (ctx w') = isReady (ctx w).
Proof.
  intros Hp. unfold write.
  change (path (emit_saveState DocumentRegistry.started (ctx w))) with (path (ctx w)).
  change (serialized (emit_saveState DocumentRegistry.started (ctx w)))
    with (serialized (ctx w)).
  rewrite (save_unprotected _ _ _ Hp).
  eexists. split; [reflexivity|].
  unfold stored. simpl. rewrite lookup_insert_eq. simpl.
  rewrite <- app_assoc. repeat split; reflexivity.
Qed.





Lemma save_after_load manual choice w f :
  isDisposed (ctx w) = false ->
  Contents.files (storage w) !! path (ctx w) = Some f ->
  path (ctx w) ∉ Contents.protected (storage w) ->
  exists w1 w2,
    revert w = (Resolved undefined, w1) /\
    save manual choice w1 = (Resolved undefined, w2) /\
    useCRLF (ctx w1) = contains (String CR EmptyString) (Contents.content f) /\
    toString (model (ctx w1)) = replace_crlf_lf (Contents.content f) /\
    stored w2 =
      Some (if contains (String CR EmptyString) (Contents.content f)
            then replace_lf_crlf (toString (model (ctx w1)))
            else toString (model (ctx w1))).
Proof.
  intros Hd Hf Hp.
  destruct (load_stored false w f Hf) as (w1 & Hl & Hm & Hu & Hc & Hpath & Hdis & Hst).
  exists w1. unfold revert. rewrite Hd, Hl.
  unfold save. rewrite Hdis, Hd.
  assert (Hf1 : Contents.files (storage w1) !! path (ctx w1) = Some f)
    by (rewrite Hst, Hpath; exact Hf).
  rewrite (get_stored _ _ _ Hf1). simpl.
  unfold newer_than_known. rewrite Hc. simpl.
  rewrite Nat.ltb_irrefl. simpl.
  destruct (write_accepted manual
              {| ctx := ctx w1;
                 storage := Contents.request (Contents.GET (path (ctx w1))) (storage w1) |})
    as (w2 & Hw & Hs & _).
  { simpl. rewrite Hst, Hpath. exact Hp. }
  exists w2. split; [reflexivity|]. split; [exact Hw|]. split; [exact Hu|].
  split; [rewrite Hm; reflexivity|].
  rewrite Hs. simpl. unfold serialized. now rewrite Hu.
Qed.

(** *** Facts: what the operations leave alone *)

Lemma write_frame manual w :
  let w' := snd (write manual w) in
  path (ctx w') = path (ctx w) /\
  isReady (ctx w') = isReady (ctx w) /\
  isDisposed (ctx w') = isDisposed (ctx w) /\
  useCRLF (ctx w') = useCRLF (ctx w) /\
  toString (model (ctx w')) = toString (model (ctx w)).
Proof. unfold write. crunch; repeat split; reflexivity. Qed.



Lemma destination_reads_only answers current :
  forall candidate st,
    let st' := snd (destination answers current candidate st) in
    Contents.files st' = Contents.files st /\
    Contents.checkpoints st' = Contents.checkpoints st /\
    Contents.protected st' = Contents.protected st /\
    Contents.clock st' = Contents.clock st /\
    List.filter Contents.is_write (Contents.log st') =
    List.filter Contents.is_write (Contents.log st).
Proof.
  induction answers as [|a rest IH]; intros candidate st; [simpl; tauto|].
  destruct a as [p| |]; simpl.
  - destruct (String.eqb p current); [simpl; tauto|].
    pose proof (get_reads_only p st) as Hget.
    destruct (Contents.get p st) as [[e|r] st1]; simpl in Hget.
    + simpl. exact Hget.
    + specialize (IH (Some p) st1). simpl in IH.
      destruct Hget as (<- & <- & <- & <- & <-). exact IH.
  - destruct candidate; simpl; tauto.
  - tauto.
Qed.

Lemma classic_initialize op :
  (exists isNew, op = Initialize isNew) \/ (forall isNew, op <> Initialize isNew).
Proof. destruct op; try (right; discriminate). left. eauto. Qed.

(** Only [initialize] resolves the [ready] promise. *)
Lemma step_isReady op w :
  (forall isNew, op <> Initialize isNew) ->
  isReady (ctx (snd (step op w))) = isReady (ctx w).
Proof.
  intros Hop. destruct op; simpl; try (exfalso; eapply Hop; reflexivity).
  - unfold save. crunch; try reflexivity.
    match goal with |- context [write ?m ?x] => apply (write_frame m x) end.
  - unfold saveAs, save. crunch; try reflexivity;
      match goal with |- context [write ?m ?x] => apply (write_frame m x) end.
  - unfold revert, load. crunch; reflexivity.
  - unfold rename. crunch; reflexivity.
  - unfold createCheckpoint. crunch; reflexivity.
  - unfold listCheckpoints. crunch; reflexivity.
  - unfold deleteCheckpoint. crunch; reflexivity.
  - unfold restoreCheckpoint. crunch; reflexivity.
  - unfold dispose. crunch; reflexivity.
  - reflexivity.
  - crunch; reflexivity.
Qed.

(** A rejected operation leaves the metadata as it was, and so does an
    operation that is not one of [initialize], [save], [saveAs], [revert]
    and [rename]. *)
Lemma load_rejected b w e w' :
  load b w = (Rejected e, w') -> ctx w' = ctx w.
Proof. unfold load. crunch; intros [= <- <-]; reflexivity. Qed.




Lemma initialize_rejected_isReady isNew w e w' :
  initialize_context isNew w = (Rejected e, w') ->
  isReady (ctx w') = isReady (ctx w).
Proof.
  unfold initialize_context.
  destruct (isDisposed (ctx w)); [now intros [= _ <-]|].
  destruct isNew.
  - pose proof (write_frame false w) as Hf.
    destruct (write false w) as [[v|e'] w1]; [discriminate|].
    intros [= _ <-]. apply Hf.
  - intros H. apply load_rejected in H. now rewrite H.
Qed.

Lemma step_rejected_isReady op w :
  (exists e, fst (step op w) = Rejected e) \/ refreshes op = false ->
  isReady (ctx (snd (step op w))) = isReady (ctx w).
Proof.
  intros H.
  destruct (classic_initialize op) as [[isNew ->]|Hop]; [|now apply step_isReady].
  destruct H as [[e He]|]; [|discriminate]. simpl in *.
  destruct (initialize_context isNew w) as [r w'] eqn:Hi. simpl in *. subst r.
  now apply initialize_rejected_isReady in Hi.
Qed.

(** [ready] is not resolved as long as every [initialize], [save],
    [saveAs], [revert] and [rename] is rejected. *)
Lemma run_isReady ops :
  forall w,
    Forall (fun r => exists e, r = Rejected e)
      (map snd (List.filter (fun x => refreshes (fst x))
                            (combine ops (fst (run ops w))))) ->
    isReady (ctx (snd (run ops w))) = isReady (ctx w).
Proof.
  induction ops as [|op ops IH]; intros w H; [reflexivity|].
  simpl in *.
  pose proof (step_rejected_isReady op w) as Hstep.
  destruct (step op w) as [r w1]. simpl in Hstep.
  specialize (IH w1).
  destruct (run ops w1) as [rs w2]. simpl in *.
  destruct (refreshes op) eqn:Hop; simpl in H.
  - inversion H as [|? ? Hr Hrest]; subst.
    rewrite (IH Hrest). apply Hstep. now left.
  - rewrite (IH H). apply Hstep. now right.
Qed.


Lemma initialize_rejected w e st' :
  isDisposed (ctx w) = false ->
  Contents.save (path (ctx w)) (serialized (ctx w)) (storage w) = (inl e, st') ->
  exists w',
    initialize_context true w = (Rejected e, w') /\
    saveState (ctx w') =
      saveState (ctx w) ++ [DocumentRegistry.started; DocumentRegistry.failed] /\
    isReady (ctx w') = isReady (ctx w) /\
    contentsModel (ctx w') = contentsModel (ctx w).
Proof.
  intros Hd Hs. unfold initialize_context. rewrite Hd.
  rewrite (write_refused false w e st' Hs).
  eexists. split; [reflexivity|]. simpl.
  rewrite <- app_assoc. repeat split; reflexivity.
Qed.


(** *** Facts: [saveAs] *)

Lemma destination_cancelled ps rest current :
  forall candidate st,
    Forall (fun p => p <> current /\ is_Some (Contents.files st !! p)) ps ->
    fst (destination ((proceed_with_path <$> ps) ++ cancel :: rest)
           current candidate st) = Cancelled.
Proof.
  induction ps as [|p ps IH]; intros candidate st Hps; [reflexivity|].
  inversion Hps as [|? ? [Hne [f Hf]] Hrest]; subst. simpl.
  destruct (String.eqb_spec p current) as [|_]; [contradiction|].
  rewrite (get_stored _ _ _ Hf). apply IH. exact Hrest.
Qed.

Lemma saveAs_cancelled answers w :
  fst (destination answers (path (ctx w)) None (storage w)) = Cancelled ->
  let w' := snd (saveAs answers w) in
  ctx w' = ctx w /\
  writes w' = writes w /\
  Contents.files (storage w') = Contents.files (storage w) /\
  (isDisposed (ctx w) = false -> fst (saveAs answers w) = Resolved undefined).
Proof.
  intros Hdest. unfold saveAs.
  destruct (isDisposed (ctx w)); [simpl; repeat split; discriminate|].
  pose proof (destination_reads_only answers (path (ctx w)) None (storage w)) as Hro.
  destruct (destination answers (path (ctx w)) None (storage w)) as [d st].
  simpl in Hdest, Hro. subst d. simpl.
  destruct Hro as (Hfiles & _ & _ & _ & Hlog).
  repeat split; assumption.
Qed.

(** *** Facts: checkpoints *)









(** A stored document in which every LF follows a CR is stored again
    unchanged by a revert followed by a save. *)
Lemma revert_then_save_preserves manual choice w f u :
  isDisposed (ctx w) = false ->
  Contents.files (storage w) !! path (ctx w) = Some f ->
  path (ctx w) ∉ Contents.protected (storage w) ->
  Contents.content f = replace_lf_crlf u ->
  exists w1 w2,
    revert w = (Resolved undefined, w1) /\
    save manual choice w1 = (Resolved undefined, w2) /\
    toString (model (ctx w1)) = u /\
    stored w2 = Some (Contents.content f).
Proof.
  intros Hd Hf Hp Hu.
  destruct (save_after_load manual choice w f Hd Hf Hp)
    as (w1 & w2 & Hr & Hs & _ & Hm & Hst).
  exists w1, w2. split; [exact Hr|]. split; [exact Hs|].
  assert (Hmu : toString (model (ctx w1)) = u)
    by (rewrite Hm, Hu; apply replace_crlf_lf_inverse).
  split; [exact Hmu|]. rewrite Hst, Hmu.
  destruct (contains _ (Contents.content f)) eqn:Hc; [now rewrite Hu|].
  f_equal. rewrite <- (replace_crlf_lf_without _ (contains_CR_CRLF _ Hc)), Hu.
  symmetry. apply replace_crlf_lf_inverse.
Qed.

Lemma revert_after_save w s :
  isDisposed (ctx w) = false ->
  path (ctx w) ∉ Contents.protected (storage w) ->
  exists w1 w2,
    step (Contents_save (path (ctx w)) s) w = (Resolved undefined, w1) /\
    revert w1 = (Resolved undefined, w2) /\
    toString (model (ctx w2)) = replace_crlf_lf s.
Proof.
  intros Hd Hp. simpl. rewrite (save_unprotected _ _ _ Hp).
  set (f := {| Contents.content := s;
               Contents.modified := S (Contents.clock (storage w)) |}).
  set (w1 := {| ctx := ctx w;
                storage :=
                  {| Contents.files := <[path (ctx w) := f]> (Contents.files (storage w));
                     Contents.checkpoints := Contents.checkpoints (storage w);
                     Contents.protected := Contents.protected (storage w);
                     Contents.clock := S (Contents.clock (storage w));
                     Contents.log :=
                       Contents.log (storage w) ++ [Contents.PUT (path (ctx w)) s] |} |}).
  destruct (load_stored false w1 f) as (w2 & Hl & Hm & _).
  { simpl. apply lookup_insert_eq. }
  exists w1, w2. split; [reflexivity|].
  unfold revert. simpl. rewrite Hd. split; [exact Hl|].
  rewrite Hm. reflexivity.
Qed.





(** *** The context against its description *)




(** C3: a successful [revert] hands the deserializer of the model the
    stored content with every CR LF replaced by LF; hence a string saved to
    the store and then reverted is, serialized again, that string with its
    CR LF sequences replaced by LF. *)
Theorem revert_normalizes_CRLF (w : World) :
  (forall v w',
     revert w = (Resolved v, w') ->
     exists f,
       Contents.files (storage w) !! path (ctx w) = Some f /\
       model (ctx w') =
         set_dirty false
           (fromString (replace_crlf_lf (Contents.content f)) (model (ctx w))) /\
       toString (model (ctx w')) = replace_crlf_lf (Contents.content f)) /\
  (forall s,
     isDisposed (ctx w) = false ->
     path (ctx w) ∉ Contents.protected (storage w) ->
     exists w1 w2,
       step (Contents_save (path (ctx w)) s) w = (Resolved undefined, w1) /\
       revert w1 = (Resolved undefined, w2) /\
       toString (model (ctx w2)) = replace_crlf_lf s).
Proof.
  split.
  - intros v w' Hr. destruct (revert_resolved w v w' Hr) as (f & Hf & Hm).
    exists f. split; [exact Hf|]. split; [exact Hm|]. now rewrite Hm.
  - intros s Hd Hp. now apply revert_after_save.
Qed.

Lemma revert_normalizes_CRLF_witness :
  exists w1 w2,
    step (Contents_save "a.txt" foo_CRLF_bar) initialized = (Resolved undefined, w1) /\
    revert w1 = (Resolved undefined, w2) /\
    toString (model (ctx w2)) = foo_LF_bar.
Proof.
  assert (Hp : path (ctx initialized) ∉ Contents.protected (storage initialized))
    by (vm_compute; discriminate).
  exact (proj2 (revert_normalizes_CRLF initialized) foo_CRLF_bar eq_refl Hp).
Defined.

(** C4: when the store refuses the save of [initialize(true)], the context
    emits [started] and then [failed] and nothing else, [initialize] is
    rejected with the error of the store, [isReady] stays false, and
    [ready] is not resolved afterwards for as long as every further
    [initialize], [save], [saveAs], [revert] and [rename] is rejected. *)
Theorem initialize_failure_emits_started_failed
    (w : World) (e : Contents.Error) (st' : Contents.Storage) :
  isDisposed (ctx w) = false ->
  isReady (ctx w) = false ->
  Contents.save (path (ctx w)) (serialized (ctx w)) (storage w) = (inl e, st') ->
  exists w',
    initialize_context true w = (Rejected e, w') /\
    saveState (ctx w') =
      saveState (ctx w) ++ [DocumentRegistry.started; DocumentRegistry.failed] /\
    isReady (ctx w') = false /\
    forall ops,
      Forall (fun r => exists e, r = Rejected e)
        (map snd (List.filter (fun x => refreshes (fst x))
                              (combine ops (fst (run ops w'))))) ->
      isReady (ctx (snd (run ops w'))) = false.
Proof.
  intros Hd Hr Hs.
  destruct (initialize_rejected w e st' Hd Hs) as (w' & Hi & Hss & Hready & _).
  exists w'. split; [exact Hi|]. split; [exact Hss|].
  split; [congruence|].
  intros ops Hops. rewrite (run_isReady ops w' Hops). congruence.
Qed.

Lemma initialize_failure_emits_started_failed_witness :
  exists w',
    initialize_context true (fresh "readonly.txt") =
      (Rejected "Invalid response: 403 Forbidden", w') /\
    saveState (ctx w') = [DocumentRegistry.started; DocumentRegistry.failed] /\
    isReady (ctx w') = false /\
    forall ops,
      Forall (fun r => exists e, r = Rejected e)
        (map snd (List.filter (fun x => refreshes (fst x))
                              (combine ops (fst (run ops w'))))) ->
      isReady (ctx (snd (run ops w'))) = false.
Proof.
  exact (initialize_failure_emits_started_failed (fresh "readonly.txt")
           Contents.forbidden_403
           (Contents.request (Contents.PUT "readonly.txt" "") Contents.mock)
           eq_refl eq_refl eq_refl).
Defined.








(** C7: when every path the policy proposes exists already and the policy
    then cancels, [saveAs] leaves the context, and with it the path, as it
    is, sends the store no write and leaves its files as they are; it is
    resolved unless the context is disposed. *)
Theorem saveAs_cancel_is_noop (w : World) (ps : list string) (rest : list Choice) :
  Forall (fun p => p <> path (ctx w) /\
                   is_Some (Contents.files (storage w) !! p)) ps ->
  let answers := (proceed_with_path <$> ps) ++ cancel :: rest in
  let w' := snd (saveAs answers w) in
  path (ctx w') = path (ctx w) /\
  ctx w' = ctx w /\
  writes w' = writes w /\
  Contents.files (storage w') = Contents.files (storage w) /\
  (isDisposed (ctx w) = false -> fst (saveAs answers w) = Resolved undefined).
Proof.
  intros Hps answers w'.
  destruct (saveAs_cancelled answers w) as (Hctx & Hw & Hf & Hr).
  - apply destination_cancelled. exact Hps.
  - subst w'. rewrite Hctx. repeat split; assumption.
Qed.

Lemma saveAs_cancel_is_noop_witness :
  let w' := snd (saveAs [proceed_with_path "b.txt"; cancel] before_saveAs) in
  path (ctx w') = "a.txt" /\
  ctx w' = ctx before_saveAs /\
  writes w' = writes before_saveAs /\
  Contents.files (storage w') = Contents.files (storage before_saveAs) /\
  (isDisposed (ctx before_saveAs) = false ->
   fst (saveAs [proceed_with_path "b.txt"; cancel] before_saveAs) = Resolved undefined).
Proof.
  assert (H : Forall (fun p => p <> path (ctx before_saveAs) /\
                               is_Some (Contents.files (storage before_saveAs) !! p))
                ["b.txt"]).
  { constructor; [|constructor]. split; [discriminate|].
    vm_compute. eexists. reflexivity. }
  exact (saveAs_cancel_is_noop before_saveAs ["b.txt"] [] H).
Defined.

End DocContext.


(** ** More of the document registry *)

(** The methods of [DocumentRegistry] besides [addWidgetFactory] and
    [getFileTypesForPath], with what they keep and how they compose. *)
Module RegistryMethods.
Import JSString DocumentRegistry.

(** *** Field updates *)

Definition set_modelFactories (m : gmap string IModelFactory) (r : Registry) : Registry :=
  {| _modelFactories := m;
     _widgetFactories := _widgetFactories r;
     _defaultWidgetFactory := _defaultWidgetFactory r;
     _defaultWidgetFactoryOverrides := _defaultWidgetFactoryOverrides r;
     _defaultWidgetFactories := _defaultWidgetFactories r;
     _defaultRenderedWidgetFactories := _defaultRenderedWidgetFactories r;
     _widgetFactoriesForFileType := _widgetFactoriesForFileType r;
     _fileTypes := _fileTypes r;
     _extenders := _extenders r;
     _changed := _changed r;
     _isDisposed := _isDisposed r |}.

Definition set_extenders (m : gmap string (list WidgetExtension)) (r : Registry)
  : Registry :=
  {| _modelFactories := _modelFactories r;
     _widgetFactories := _widgetFactories r;
     _defaultWidgetFactory := _defaultWidgetFactory r;
     _defaultWidgetFactoryOverrides := _defaultWidgetFactoryOverrides r;
     _defaultWidgetFactories := _defaultWidgetFactories r;
     _defaultRenderedWidgetFactories := _defaultRenderedWidgetFactories r;
     _widgetFactoriesForFileType := _widgetFactoriesForFileType r;
     _fileTypes := _fileTypes r;
     _extenders := m;
     _changed := _changed r;
     _isDisposed := _isDisposed r |}.

Definition set_overrides (m : gmap string string) (r : Registry) : Registry :=
  {| _modelFactories := _modelFactories r;
     _widgetFactories := _widgetFactories r;
     _defaultWidgetFactory := _defaultWidgetFactory r;
     _defaultWidgetFactoryOverrides := m;
     _defaultWidgetFactories := _defaultWidgetFactories r;
     _defaultRenderedWidgetFactories := _defaultRenderedWidgetFactories r;
     _widgetFactoriesForFileType := _widgetFactoriesForFileType r;
     _fileTypes := _fileTypes r;
     _extenders := _extenders r;
     _changed := _changed r;
     _isDisposed := _isDisposed r |}.

(** *** [addModelFactory] and [getModelFactory] *)

(** The closures the [add...] methods hand to their [DisposableDelegate],
    with the variables they capture: that of [addWidgetFactory] (or
    [Private.noOp]), of [addModelFactory], of [addWidgetExtension] and of
    [addFileType]; the last one captures the file type object it added,
    which is identified by a number, and the name of the argument. *)
Inductive Closure : Type :=
| of_addWidgetFactory (fn : Callback)
| of_addModelFactory (name : string)
| of_addWidgetExtension (widgetName : string) (extension : WidgetExtension)
| of_addFileType (value : nat) (name : option string).

(** [getModelFactory]. *)
Definition getModelFactory (name : string) (r : Registry) : option IModelFactory :=
  _modelFactories r !! toLowerCase name.

(** What an [add...] method leaves behind: the closure of the disposable
    it returns, the registry after it and the lines it wrote with
    [console.warn]. *)
Record Added : Type := {
  closure : Closure;
  after : Registry;
  warned : list string
}.

(** [addModelFactory]. *)
Definition addModelFactory (factory : IModelFactory) (r : Registry) : Added :=
  let name := toLowerCase (mf_name factory) in
  match _modelFactories r !! name with
  | Some _ =>
      {| closure := of_addWidgetFactory noOp;
         after := r;
         warned := [("Duplicate registered factory " ++ name)%string] |}
  | None =>
      let r := set_modelFactories (<[name := factory]> (_modelFactories r)) r in
      {| closure := of_addModelFactory name;
         after := emit {| ca_type := modelFactory; ca_name := Some name;
                          ca_change := added |} r;
         warned := [] |}
  end.

(** *** [addWidgetExtension] and [widgetExtensions] *)

(** [ArrayExt.firstIndexOf(array, value) !== -1]. *)
Definition has_extension (extension : WidgetExtension) (a : list WidgetExtension) : bool :=
  existsb (Nat.eqb extension) a.

(** [addWidgetExtension]. The empty array for a new widget name is stored
    before the search for the extension. *)
Definition addWidgetExtension (widgetName : string) (extension : WidgetExtension)
    (r : Registry) : Added :=
  let widgetName := toLowerCase widgetName in
  let r :=
    match _extenders r !! widgetName with
    | Some _ => r
    | None => set_extenders (<[widgetName := []]> (_extenders r)) r
    end in
  let extenders := default [] (_extenders r !! widgetName) in
  if has_extension extension extenders then
    {| closure := of_addWidgetFactory noOp;
       after := r;
       warned := [("Duplicate registered extension for " ++ widgetName)%string] |}
  else
    let r := set_extenders (<[widgetName := extenders ++ [extension]]> (_extenders r)) r in
    {| closure := of_addWidgetExtension widgetName extension;
       after := emit {| ca_type := widgetExtension; ca_name := Some widgetName;
                        ca_change := added |} r;
       warned := [] |}.

(** [widgetExtensions], as the array the iterator runs over. *)
Definition widgetExtensions (widgetName : string) (r : Registry)
  : list WidgetExtension :=
  default [] (_extenders r !! toLowerCase widgetName).

(** *** [setDefaultWidgetFactory] *)

(** [setDefaultWidgetFactory(fileType, factory)]; [factory] may be
    [undefined]. *)
Definition setDefaultWidgetFactory (fileType : string) (factory : option string)
    (r : Registry) : Outcome unit :=
  let fileType := toLowerCase fileType in
  let throw m := {| completion := Throw m; registry := r; warnings := [] |} in
  let done r := {| completion := Return tt; registry := r; warnings := [] |} in
  match getFileType fileType r with
  | None => throw ("Cannot find file type " ++ fileType)%string
  | Some _ =>
      match factory with
      | None | Some EmptyString =>
          match _defaultWidgetFactoryOverrides r !! fileType with
          | Some (String _ _) =>
              done (set_overrides (delete fileType (_defaultWidgetFactoryOverrides r)) r)
          | _ => done r
          end
      | Some factory =>
          match getWidgetFactory factory r with
          | None => throw ("Cannot find widget factory " ++ factory)%string
          | Some _ =>
              let factory := toLowerCase factory in
              let factories := _widgetFactoriesForFileType r !! fileType in
              if negb (String.eqb factory (_defaultWidgetFactory r)) &&
                 negb (match factories with
                       | Some factories => includes factory factories
                       | None => false
                       end)
              then throw ("Factory " ++ factory ++ " cannot view file type "
                          ++ fileType)%string
              else done (set_overrides
                           (<[fileType := factory]> (_defaultWidgetFactoryOverrides r)) r)
          end
      end
  end.

(** *** [preferredWidgetFactories] and the default factories *)

(** [Set.prototype.add] on a set kept in insertion order. *)
Definition Set_add (x : string) (s : list string) : list string :=
  if includes x s then s else s ++ [x].

(** [fts.forEach(ft => { if (ft.name in table) add(table[ft.name]) })]. *)
Definition add_for (table : gmap string string) (fts : list IFileType)
    (factories : list string) : list string :=
  fold_left (fun s ft =>
               match table !! ft_name ft with
               | Some n => Set_add n s
               | None => s
               end) fts factories.

(** [each(names, n => factories.add(n))]. *)
Definition add_each (names : list string) (factories : list string) : list string :=
  fold_left (fun s n => Set_add n s) names factories.

Section Preferred.

Variable basename : string -> string.

(** [String.prototype.toLowerCase] as [getFileTypesForPath] takes it, and
    the regular expression match. *)
Variable lower : string -> string.
Variable String_match : string -> string -> Completion bool.

(** The names [preferredWidgetFactories] collects for the file types of
    the path, in the order of the set. *)
Definition preferred_names (fts : list IFileType) (r : Registry) : list string :=
  let factories := [] in
  let factories := add_for (_defaultWidgetFactoryOverrides r) fts factories in
  let factories := add_for (_defaultWidgetFactories r) fts factories in
  let factories := add_for (_defaultRenderedWidgetFactories r) fts factories in
  let factories :=
    if String.eqb (_defaultWidgetFactory r) "" then factories
    else Set_add (_defaultWidgetFactory r) factories in
  let factories :=
    fold_left (fun s ft =>
                 match _widgetFactoriesForFileType r !! ft_name ft with
                 | Some names => add_each names s
                 | None => s
                 end) fts factories in
  match _widgetFactoriesForFileType r !! "*" with
  | Some names => add_each names factories
  | None => factories
  end.

(** The names [preferredWidgetFactories] goes through, in its order: for
    the matching file types the overrides, the defaults and the rendered
    defaults, then the global default, then the factories of the matching
    file types and those of ['*']. *)
Definition candidates (fts : list IFileType) (r : Registry) : list string :=
  let of_table (table : gmap string string) :=
    omap (fun ft => table !! ft_name ft) fts in
  of_table (_defaultWidgetFactoryOverrides r) ++
  of_table (_defaultWidgetFactories r) ++
  of_table (_defaultRenderedWidgetFactories r) ++
  (if String.eqb (_defaultWidgetFactory r) "" then [] else [_defaultWidgetFactory r]) ++
  concat (omap (fun ft => _widgetFactoriesForFileType r !! ft_name ft) fts) ++
  default [] (_widgetFactoriesForFileType r !! "*").

(** [factory.modelName || 'text']. *)
Definition modelName_or_text (factory : IWidgetFactory) : string :=
  match wf_modelName factory with
  | Some (String c n) => String c n
  | _ => "text"
  end.

(** The last loop of [preferredWidgetFactories], for one name. *)
Definition usable (r : Registry) (name : string) : option IWidgetFactory :=
  match _widgetFactories r !! name with
  | None => None
  | Some factory =>
      if decide (is_Some (_modelFactories r !! modelName_or_text factory))
      then Some factory else None
  end.

(** [preferredWidgetFactories]; what [getFileTypesForPath] throws leaves
    it. *)
Definition preferredWidgetFactories (path : string) (r : Registry)
  : Completion (list IWidgetFactory) :=
  match getFileTypesForPath basename lower String_match (basename path) r with
  | Throw e => Throw e
  | Return fts => Return (omap (usable r) (preferred_names fts r))
  end.

(** [defaultWidgetFactory(path?)]; without a path, or with the empty one,
    the global default. *)
Definition defaultWidgetFactory (path : option string) (r : Registry)
  : Completion (option IWidgetFactory) :=
  match path with
  | None | Some EmptyString => Return (_widgetFactories r !! _defaultWidgetFactory r)
  | Some path =>
      match preferredWidgetFactories path r with
      | Throw e => Throw e
      | Return factories => Return (head factories)
      end
  end.

(** The loop of [defaultRenderedWidgetFactory]: it stops at the first file
    type that has a default rendered factory, registered or not. *)
Fixpoint first_rendered (fts : list IFileType) (r : Registry) : option IWidgetFactory :=
  match fts with
  | [] => None
  | ft :: fts =>
      match _defaultRenderedWidgetFactories r !! ft_name ft with
      | Some n => _widgetFactories r !! n
      | None => first_rendered fts r
      end
  end.

(** [defaultRenderedWidgetFactory]. *)
Definition defaultRenderedWidgetFactory (path : string) (r : Registry)
  : Completion (option IWidgetFactory) :=
  match getFileTypesForPath basename lower String_match (basename path) r with
  | Throw e => Throw e
  | Return fts =>
      match first_rendered fts r with
      | Some factory => Return (Some factory)
      | None => defaultWidgetFactory (Some path) r
      end
  end.

(** *** [getFileTypeForModel] *)

(** [trans.__] of the translator the registry was constructed with. *)
Variable trans : string -> string.

(** [Partial<Contents.IModel>], the members [getFileTypeForModel] reads. *)
Record PartialModel : Type := {
  m_type : option string;
  m_name : option string;
  m_path : option string
}.

(** [a || b] on optional strings. *)
Definition or_else (a b : option string) : option string :=
  match a with
  | Some (String c s) => Some (String c s)
  | _ => b
  end.

(** [getFileTypeForModel]. *)
Definition getFileTypeForModel (model : PartialModel) (r : Registry)
  : Completion IFileType :=
  let by_contentType t :=
    find (fun ft => String.eqb (ft_contentType ft) t) (_fileTypes r) in
  let text :=
    default (getDefaultTextFileType trans) (getFileType "text" r) in
  match m_type model with
  | Some "directory" =>
      Return (default (getDefaultDirectoryFileType trans) (by_contentType "directory"))
  | Some "notebook" =>
      Return (default (getDefaultNotebookFileType trans) (by_contentType "notebook"))
  | _ =>
      match or_else (m_name model) (m_path model) with
      | Some _ =>
          let name :=
            match or_else (m_name model) None with
            | Some name => name
            | None => basename (default "" (m_path model))
            end in
          match getFileTypesForPath basename lower String_match name r with
          | Throw e => Throw e
          | Return (ft :: _) => Return ft
          | Return [] => Return text
          end
      | None => Return text
      end
  end.

End Preferred.

(** *** [addFileType], [dispose] and the disposables *)

(** [fileIcon], of [@jupyterlab/ui-components], by its name. *)
Definition fileIcon : string := "fileIcon".

(** The object [addFileType] builds:
    [{ ...defaults, ...fileType,
       ...(!(fileType.icon || fileType.iconClass) && { icon: fileIcon }) }]. *)
Definition addFileType_value (trans : string -> string) (fileType : PartialFileType)
  : IFileType :=
  let value := spread (getFileTypeDefaults trans) fileType in
  match p_icon fileType, p_iconClass fileType with
  | Some _, _ | None, Some (String _ _) => value
  | _, _ =>
      {| ft_name := ft_name value;
         ft_mimeTypes := ft_mimeTypes value;
         ft_extensions := ft_extensions value;
         ft_displayName := ft_displayName value;
         ft_pattern := ft_pattern value;
         ft_icon := Some fileIcon;
         ft_iconClass := ft_iconClass value;
         ft_iconLabel := ft_iconLabel value;
         ft_contentType := ft_contentType value;
         ft_fileFormat := ft_fileFormat value |}
  end.

(** A registry with what the fields of the class do not show: which object
    each element of [_fileTypes] is ([identities], of the same length; the
    closure of [addFileType] removes the object it added, not an equal
    one), and the disposables handed out so far, each with the closure it
    still holds. *)
Record System : Type := {
  fields : Registry;
  identities : list nat;
  fresh : nat;
  disposables : list (option Closure)
}.

(** The position of the first element equal to [x]. *)
Fixpoint index_of (x : nat) (a : list nat) : option nat :=
  match a with
  | [] => None
  | y :: t => if Nat.eqb y x then Some 0 else S <$> index_of x t
  end.

(** [array.splice(i, 1)]. *)
Definition remove_at {A} (i : nat) (a : list A) : list A :=
  take i a ++ drop (S i) a.

(** [ArrayExt.removeFirstOf(this._fileTypes, value)], [value] being the
    object with the given identity. *)
Definition remove_object {A} (value : nat) (ids : list nat) (a : list A) : list A :=
  match index_of value ids with
  | Some i => remove_at i a
  | None => a
  end.

(** Running the closure of a disposable. The closure of
    [addWidgetExtension] reads [this._extenders[widgetName]], and throws a
    [TypeError] if that is [undefined]. *)
Definition run_closure (c : Closure) (s : System) : option string * System :=
  let r := fields s in
  let within r :=
    {| fields := r; identities := identities s; fresh := fresh s;
       disposables := disposables s |} in
  match c with
  | of_addWidgetFactory fn => (None, within (call fn r))
  | of_addModelFactory name =>
      let r := set_modelFactories (delete name (_modelFactories r)) r in
      (None, within (emit {| ca_type := modelFactory; ca_name := Some name;
                             ca_change := removed |} r))
  | of_addWidgetExtension widgetName extension =>
      match _extenders r !! widgetName with
      | None => (Some "TypeError", s)
      | Some extenders =>
          let r := set_extenders
                     (<[widgetName := removeFirstOf Nat.eqb extenders extension]>
                        (_extenders r)) r in
          (None, within (emit {| ca_type := widgetExtension;
                                 ca_name := Some widgetName;
                                 ca_change := removed |} r))
      end
  | of_addFileType value name =>
      let r := with_fileTypes (remove_object value (identities s) (_fileTypes r)) r in
      (None,
       {| fields := emit {| ca_type := fileType; ca_name := name;
                            ca_change := removed |} r;
          identities := remove_object value (identities s) (identities s);
          fresh := fresh s;
          disposables := disposables s |})
  end.

(** [DocumentRegistry.dispose]. The [dispose] of the factories and
    [Signal.clearData] act on objects outside of the fields. *)
Definition dispose_registry (r : Registry) : Registry :=
  if _isDisposed r then r
  else
    {| _modelFactories := _modelFactories r;
       _widgetFactories := _widgetFactories r;
       _defaultWidgetFactory := _defaultWidgetFactory r;
       _defaultWidgetFactoryOverrides := _defaultWidgetFactoryOverrides r;
       _defaultWidgetFactories := _defaultWidgetFactories r;
       _defaultRenderedWidgetFactories := _defaultRenderedWidgetFactories r;
       _widgetFactoriesForFileType := _widgetFactoriesForFileType r;
       _fileTypes := [];
       _extenders := (fun _ => []) <$> _extenders r;
       _changed := _changed r;
       _isDisposed := true |}.

(** What a client of the registry can call. *)
Inductive Call : Type :=
| AddWidgetFactory (factory : IWidgetFactory)
| AddModelFactory (factory : IModelFactory)
| AddWidgetExtension (widgetName : string) (extension : WidgetExtension)
| AddFileType (fileType : PartialFileType)
| SetDefaultWidgetFactory (fileType : string) (factory : option string)
| DisposeRegistry
| DisposeDelegate (disposable : nat).

Section Calls.

Variable trans : string -> string.

(** A call: the error it throws, if any, and the system after it. A
    disposable drops its closure before it runs it. *)
Definition exec (c : Call) (s : System) : option string * System :=
  let within r :=
    {| fields := r; identities := identities s; fresh := fresh s;
       disposables := disposables s |} in
  let record (a : Added) :=
    {| fields := after a; identities := identities s; fresh := fresh s;
       disposables := disposables s ++ [Some (closure a)] |} in
  match c with
  | AddWidgetFactory factory =>
      let o := addWidgetFactory factory (fields s) in
      match completion o with
      | Throw m => (Some m, s)
      | Return d =>
          (None,
           {| fields := registry o; identities := identities s; fresh := fresh s;
              disposables :=
                disposables s ++ [of_addWidgetFactory <$> _fn d] |})
      end
  | AddModelFactory factory => (None, record (addModelFactory factory (fields s)))
  | AddWidgetExtension widgetName extension =>
      (None, record (addWidgetExtension widgetName extension (fields s)))
  | AddFileType partial_ft =>
      let value := addFileType_value trans partial_ft in
      let r := with_fileTypes (_fileTypes (fields s) ++ [value]) (fields s) in
      (None,
       {| fields := emit {| ca_type := DocumentRegistry.fileType;
                            ca_name := Some (ft_name value);
                            ca_change := added |} r;
          identities := identities s ++ [fresh s];
          fresh := S (fresh s);
          disposables :=
            disposables s ++ [Some (of_addFileType (fresh s) (p_name partial_ft))] |})
  | SetDefaultWidgetFactory name factory =>
      let o := setDefaultWidgetFactory name factory (fields s) in
      match completion o with
      | Throw m => (Some m, s)
      | Return _ => (None, within (registry o))
      end
  | DisposeRegistry =>
      (None,
       {| fields := dispose_registry (fields s);
          identities := if _isDisposed (fields s) then identities s else [];
          fresh := fresh s;
          disposables := disposables s |})
  | DisposeDelegate i =>
      match disposables s !! i with
      | Some (Some c) =>
          run_closure c
            {| fields := fields s; identities := identities s; fresh := fresh s;
               disposables := <[i := None]> (disposables s) |}
      | _ => (None, s)
      end
  end.

(** The system a constructor call that returns leaves: every initial file
    type is an object of its own, and no disposable exists. *)
Definition constructed_system (r : Registry) : System :=
  {| fields := r;
     identities := seq 0 (length (_fileTypes r));
     fresh := length (_fileTypes r);
     disposables := [] |}.

(** The systems a program can reach: the constructor, then calls. *)
Inductive reachable_system : System -> Prop :=
| reach_new TextModelFactory options r :
    constructor trans TextModelFactory options = Return r ->
    reachable_system (constructed_system r)
| reach_exec c s :
    reachable_system s -> reachable_system (snd (exec c s)).

Fixpoint exec_all (cs : list Call) (s : System) : System :=
  match cs with
  | [] => s
  | c :: cs => exec_all cs (snd (exec c s))
  end.

End Calls.

(** *** What the calls keep, and side conditions *)

(** The text model factory is registered, every key of [_modelFactories]
    is in lower case, and no disposable is about to remove the text model
    factory. *)
Definition models_kept (s : System) : Prop :=
  is_Some (_modelFactories (fields s) !! "text") /\
  (forall k, is_Some (_modelFactories (fields s) !! k) -> toLowerCase k = k) /\
  (forall i name,
     disposables s !! i = Some (Some (of_addModelFactory name)) -> name <> "text").

(** No extension is listed twice for a widget name, and the array a
    disposable of [addWidgetExtension] will read exists. *)
Definition extenders_kept (s : System) : Prop :=
  (forall n l, _extenders (fields s) !! n = Some l -> NoDup l) /\
  (forall i n e,
     disposables s !! i = Some (Some (of_addWidgetExtension n e)) ->
     is_Some (_extenders (fields s) !! n)).

(** Every widget factory is registered under its own name in lower case,
    which is neither empty nor ['default']. *)
Definition widgets_kept (s : System) : Prop :=
  forall k f,
    _widgetFactories (fields s) !! k = Some f ->
    toLowerCase (wf_name f) = k /\ k <> "" /\ k <> "default".

(** [identities] runs along [_fileTypes], and every identity in use is
    below the next fresh one. *)
Definition identities_kept (s : System) : Prop :=
  length (identities s) = length (_fileTypes (fields s)) /\
  Forall (fun i => i < fresh s) (identities s).

(** [m] is [m0] but for keys unset in [m0] that [name] has taken. *)
Definition took_over (name : string) (m0 m : gmap string string) : Prop :=
  forall k, m !! k = m0 !! k \/ (m !! k = Some name /\ m0 !! k = None).

(** Nothing in the registry names the factory [name], and no list of
    [_widgetFactoriesForFileType] is empty. *)
Definition unmentioned (name : string) (r : Registry) : Prop :=
  _defaultWidgetFactory r <> name /\
  (forall k, _defaultWidgetFactoryOverrides r !! k <> Some name) /\
  (forall k, _defaultWidgetFactories r !! k <> Some name) /\
  (forall k, _defaultRenderedWidgetFactories r !! k <> Some name) /\
  (forall k l, _widgetFactoriesForFileType r !! k = Some l -> (name ∉ l) /\ l <> []).

(** The factory claims no default that another factory holds: what it is
    the default for, among its file types, has no default yet. *)
Definition claims_free_defaults (factory : IWidgetFactory) (r : Registry) : Prop :=
  Forall (fun ft =>
            includes ft (wf_fileTypes factory) = true ->
            if String.eqb ft "*" then _defaultWidgetFactory r = ""
            else _defaultWidgetFactories r !! ft = None)
         (default [] (wf_defaultFor factory)) /\
  Forall (fun ft =>
            includes ft (wf_fileTypes factory) = true ->
            _defaultRenderedWidgetFactories r !! ft = None)
         (default [] (wf_defaultRendered factory)).

(** Every value of the table is the key of a registered widget factory. *)
Definition all_registered (w : gmap string IWidgetFactory) (m : gmap string string)
  : Prop :=
  forall k v, m !! k = Some v -> is_Some (w !! v).

(** The global default, when there is one, and the defaults, the rendered
    defaults and the overrides of the file types are registered. *)
Definition defaults_kept (r : Registry) : Prop :=
  (_defaultWidgetFactory r = "" \/
   is_Some (_widgetFactories r !! _defaultWidgetFactory r)) /\
  all_registered (_widgetFactories r) (_defaultWidgetFactories r) /\
  all_registered (_widgetFactories r) (_defaultRenderedWidgetFactories r) /\
  all_registered (_widgetFactories r) (_defaultWidgetFactoryOverrides r).

(** *** Example registries *)

(** The system [new DocumentRegistry()] leaves. *)
Definition new_system : System := constructed_system default_registry.

(** The markdown file type of [getDefaultFileTypes], as registered. *)
Definition markdown : IFileType :=
  spread (getFileTypeDefaults nullTranslator)
    (entry nullTranslator "markdown" "Markdown File" ["text/markdown"] [".md"]
       "markdownIcon" None).

(** A second factory for markdown files, their rendered default. *)
Definition preview : IWidgetFactory :=
  {| wf_name := "Preview";
     wf_fileTypes := ["markdown"];
     wf_defaultFor := None;
     wf_defaultRendered := Some ["markdown"];
     wf_readOnly := Some true;
     wf_modelName := None;
     wf_preferKernel := None;
     wf_canStartKernel := None;
     wf_shutdownOnClose := None |}.

(** A factory for the file type ['PDF'], its default. *)
Definition viewer : IWidgetFactory :=
  {| wf_name := "Viewer";
     wf_fileTypes := ["PDF"];
     wf_defaultFor := Some ["PDF"];
     wf_defaultRendered := None;
     wf_readOnly := Some true;
     wf_modelName := None;
     wf_preferKernel := None;
     wf_canStartKernel := None;
     wf_shutdownOnClose := None |}.

(** Another factory that asks to be the global default. *)
Definition reader : IWidgetFactory :=
  {| wf_name := "Reader";
     wf_fileTypes := ["*"];
     wf_defaultFor := Some ["*"];
     wf_defaultRendered := None;
     wf_readOnly := Some true;
     wf_modelName := None;
     wf_preferKernel := None;
     wf_canStartKernel := None;
     wf_shutdownOnClose := None |}.

Definition notebook_model : IModelFactory :=
  {| mf_name := "Notebook"; mf_contentType := "notebook"; mf_fileFormat := "json" |}.

(** A file type whose only extension is in upper case, with the pattern
    of [dockerfile]. *)
Definition scan : IFileType :=
  {| ft_name := "scan";
     ft_mimeTypes := [];
     ft_extensions := [".SCAN"];
     ft_displayName := None;
     ft_pattern := Some "^Dockerfile$";
     ft_icon := None;
     ft_iconClass := None;
     ft_iconLabel := None;
     ft_contentType := "file";
     ft_fileFormat := "base64" |}.

(** The default registry with [editor] and [preview]. *)
Definition two_factories : Registry :=
  registry (addWidgetFactory preview registry_with_editor).

(** The default registry with [viewer]. *)
Definition registry_with_viewer : Registry :=
  registry (addWidgetFactory viewer default_registry).

(** A system after some calls of every kind. *)
Definition busy_system : System :=
  exec_all nullTranslator
    [ AddWidgetFactory editor;
      AddWidgetFactory preview;
      AddModelFactory notebook_model;
      AddWidgetExtension "Editor" 7;
      AddFileType (partial dockerfile);
      SetDefaultWidgetFactory "markdown" (Some "Preview") ]
    new_system.

(** *** Lower case *)

Lemma lower_ascii_idempotent c : lower_ascii (lower_ascii c) = lower_ascii c.
Proof. destruct c as [[] [] [] [] [] [] [] []]; reflexivity. Qed.

Lemma toLowerCase_idempotent s : toLowerCase (toLowerCase s) = toLowerCase s.
Proof.
  induction s as [|c r IH]; simpl; [reflexivity|].
  now rewrite lower_ascii_idempotent, IH.
Qed.

Lemma toLowerCase_empty s : toLowerCase s = "" <-> s = "".
Proof. destruct s; simpl; split; congruence. Qed.

Lemma dot_suffixes_lower s e :
  In e (dot_suffixes (toLowerCase s)) -> toLowerCase e = e.
Proof.
  induction s as [|c r IH]; simpl; [tauto|].
  rewrite lower_ascii_dot.
  destruct (Ascii.eqb c dot); simpl; [|exact IH].
  intros [<-|H]; [|now apply IH].
  simpl. now rewrite lower_ascii_idempotent, toLowerCase_idempotent.
Qed.

Lemma dot_suffixes_length s : length (dot_suffixes s) <= String.length s.
Proof.
  induction s as [|c r IH]; simpl; [lia|].
  destruct (Ascii.eqb c dot); simpl; lia.
Qed.

(** *** What each method changes *)

Lemma addWidgetFactory_fields factory r :
  let r' := registry (addWidgetFactory factory r) in
  _modelFactories r' = _modelFactories r /\
  _extenders r' = _extenders r /\
  _fileTypes r' = _fileTypes r /\
  _defaultWidgetFactoryOverrides r' = _defaultWidgetFactoryOverrides r /\
  _isDisposed r' = _isDisposed r /\
  (_widgetFactories r' = _widgetFactories r \/
   _widgetFactories r' =
     <[toLowerCase (wf_name factory) := factory]> (_widgetFactories r)).
Proof.
  unfold addWidgetFactory.
  destruct (String.eqb _ "" || String.eqb _ "default"); [simpl; tauto|].
  destruct (_widgetFactories r !! toLowerCase (wf_name factory));
    simpl; tauto.
Qed.

Lemma call_fields fn r :
  let r' := call fn r in
  _modelFactories r' = _modelFactories r /\
  _extenders r' = _extenders r /\
  _fileTypes r' = _fileTypes r /\
  _isDisposed r' = _isDisposed r /\
  (_widgetFactories r' = _widgetFactories r \/
   exists name, _widgetFactories r' = delete name (_widgetFactories r)).
Proof. destruct fn as [|name]; simpl; [tauto|]. repeat split. right. eauto. Qed.

Lemma setDefaultWidgetFactory_fields fileType factory r :
  let r' := registry (setDefaultWidgetFactory fileType factory r) in
  _modelFactories r' = _modelFactories r /\
  _widgetFactories r' = _widgetFactories r /\
  _extenders r' = _extenders r /\
  _fileTypes r' = _fileTypes r /\
  _defaultWidgetFactory r' = _defaultWidgetFactory r /\
  _defaultWidgetFactories r' = _defaultWidgetFactories r /\
  _defaultRenderedWidgetFactories r' = _defaultRenderedWidgetFactories r /\
  _widgetFactoriesForFileType r' = _widgetFactoriesForFileType r /\
  _changed r' = _changed r /\
  _isDisposed r' = _isDisposed r.
Proof.
  unfold setDefaultWidgetFactory.
  repeat match goal with
         | |- context [match ?x with _ => _ end] => destruct x
         end; simpl; repeat split; reflexivity.
Qed.

Lemma addModelFactory_fields factory r :
  let r' := after (addModelFactory factory r) in
  _widgetFactories r' = _widgetFactories r /\
  _extenders r' = _extenders r /\
  _fileTypes r' = _fileTypes r /\
  _isDisposed r' = _isDisposed r.
Proof.
  unfold addModelFactory.
  destruct (_modelFactories r !! _); simpl; repeat split; reflexivity.
Qed.

Lemma addWidgetExtension_fields widgetName extension r :
  let r' := after (addWidgetExtension widgetName extension r) in
  _modelFactories r' = _modelFactories r /\
  _widgetFactories r' = _widgetFactories r /\
  _fileTypes r' = _fileTypes r /\
  _isDisposed r' = _isDisposed r.
Proof.
  unfold addWidgetExtension.
  destruct (_extenders r !! toLowerCase widgetName); simpl;
    match goal with |- context [if ?b then _ else _] => destruct b end;
    simpl; repeat split; reflexivity.
Qed.

(** *** The order of [preferredWidgetFactories] *)

Lemma includes_true x (a : list string) : includes x a = true <-> x ∈ a.
Proof.
  unfold includes. rewrite existsb_exists. split.
  - intros (y & Hy & He). apply String.eqb_eq in He. subst. now apply list_elem_of_In.
  - intros H. exists x. split; [now apply list_elem_of_In | apply String.eqb_refl].
Qed.

Lemma add_each_app a b s : add_each (a ++ b) s = add_each b (add_each a s).
Proof. apply fold_left_app. Qed.

Lemma add_for_add_each table fts s :
  add_for table fts s = add_each (omap (fun ft => table !! ft_name ft) fts) s.
Proof.
  revert s. induction fts as [|ft fts IH]; intros s; [reflexivity|].
  unfold add_for, add_each in *. cbn [fold_left omap list_omap].
  destruct (table !! ft_name ft); [cbn [fold_left]|]; apply IH.
Qed.

Lemma add_lists_add_each (table : gmap string (list string)) fts s :
  fold_left (fun s ft =>
               match table !! ft_name ft with
               | Some names => add_each names s
               | None => s
               end) fts s =
  add_each (concat (omap (fun ft => table !! ft_name ft) fts)) s.
Proof.
  revert s. induction fts as [|ft fts IH]; intros s; [reflexivity|].
  cbn [fold_left omap list_omap].
  destruct (table !! ft_name ft) as [names|]; [|apply IH].
  cbn [concat]. rewrite add_each_app. apply IH.
Qed.


Lemma Set_add_NoDup x s : NoDup s -> NoDup (Set_add x s).
Proof.
  intros H. unfold Set_add. destruct (includes x s) eqn:Hi; [exact H|].
  apply NoDup_app. split; [exact H|]. split; [|apply NoDup_singleton].
  intros y Hy Hx. apply list_elem_of_singleton in Hx. subst y.
  apply includes_true in Hy. congruence.
Qed.


Lemma add_each_NoDup l : forall s, NoDup s -> NoDup (add_each l s).
Proof.
  induction l as [|x l IH]; intros s H; [exact H|].
  unfold add_each in *. simpl. apply IH. now apply Set_add_NoDup.
Qed.

Lemma omap_app_head {A B} (f : A -> option B) (a b : list A) :
  head (omap f (a ++ b)) =
  match head (omap f a) with Some y => Some y | None => head (omap f b) end.
Proof.
  induction a as [|x a IH]; [simpl; now destruct (head (omap f b))|].
  cbn [app omap list_omap]. destruct (f x); [reflexivity | exact IH].
Qed.

Lemma omap_elem_of_head {A B} (f : A -> option B) (a : list A) (x : A) :
  x ∈ a -> is_Some (f x) -> is_Some (head (omap f a)).
Proof.
  induction a as [|y a IH]; intros Hin Hx; [now apply elem_of_nil in Hin|].
  cbn [omap list_omap]. destruct (f y) eqn:Hy; [simpl; eauto|].
  apply elem_of_cons in Hin as [->|Hin]; [rewrite Hy in Hx; now destruct Hx|].
  now apply IH.
Qed.

(** Leaving out what has been seen does not change which usable name
    comes first. *)
Lemma add_each_head {B} (f : string -> option B) l :
  forall s, head (omap f (add_each l s)) = head (omap f (s ++ l)).
Proof.
  induction l as [|x l IH]; intros s; [simpl; now rewrite app_nil_r|].
  unfold add_each in *. simpl. rewrite IH. unfold Set_add.
  destruct (includes x s) eqn:Hi.
  - apply includes_true in Hi.
    rewrite !omap_app_head. cbn [omap list_omap].
    destruct (head (omap f s)) eqn:Hs; [reflexivity|].
    destruct (f x) eqn:Hx; [|reflexivity].
    destruct (omap_elem_of_head f s x Hi) as [y Hy]; [rewrite Hx; eauto|].
    congruence.
  - now rewrite <- app_assoc.
Qed.

(** *** What the calls keep *)

Lemma lookup_snoc_Some {A} (l : list A) (x y : A) (i : nat) :
  (l ++ [x]) !! i = Some y -> l !! i = Some y \/ x = y.
Proof.
  intros H. apply lookup_app_Some in H as [H|[_ H]]; [now left|].
  right. destruct (i - length l) as [|n]; simpl in H; [congruence|].
  destruct n; discriminate.
Qed.

Lemma lookup_cleared {A} (l : list (option A)) (i j : nat) (c : A) :
  <[i := None]> l !! j = Some (Some c) -> l !! j = Some (Some c).
Proof.
  destruct (decide (i = j)) as [->|Hne].
  - destruct (decide (j < length l)) as [Hlt|Hge].
    + rewrite list_lookup_insert_eq by exact Hlt. discriminate.
    + rewrite list_insert_ge by lia. trivial.
  - now rewrite list_lookup_insert_ne.
Qed.

Section Kept.

Variable trans : string -> string.

Lemma exec_models_kept c s : models_kept s -> models_kept (snd (exec trans c s)).
Proof.
  intros (Htext & Hlow & Hdel).
  destruct c as [factory|factory|widgetName extension|pft|ftname factory| |di]; simpl.
  - pose proof (addWidgetFactory_fields factory (fields s)) as (Hm & _).
    destruct (completion (addWidgetFactory factory (fields s))) as [d|m];
      [|repeat split; assumption].
    simpl. unfold models_kept. simpl. rewrite Hm.
    split; [exact Htext|]. split; [exact Hlow|].
    intros i name Hi. apply lookup_snoc_Some in Hi as [Hi|Hi]; [eauto|].
    destruct (_fn d); discriminate.
  - unfold addModelFactory.
    destruct (_modelFactories (fields s) !! toLowerCase (mf_name factory))
      as [old|] eqn:Hreg; unfold models_kept; simpl.
    + split; [exact Htext|]. split; [exact Hlow|].
      intros i name Hi. apply lookup_snoc_Some in Hi as [Hi|Hi]; [eauto|discriminate].
    + assert (Hne : toLowerCase (mf_name factory) <> "text").
      { intros E. rewrite E in Hreg. rewrite Hreg in Htext. now destruct Htext. }
      split; [rewrite lookup_insert_ne by exact Hne; exact Htext|].
      split.
      * intros k Hk. destruct (decide (toLowerCase (mf_name factory) = k)) as [<-|Hk'].
        -- apply toLowerCase_idempotent.
        -- rewrite lookup_insert_ne in Hk by exact Hk'. now apply Hlow.
      * intros i name Hi. apply lookup_snoc_Some in Hi as [Hi|Hi]; [eauto|].
        injection Hi as <-. exact Hne.
  - pose proof (addWidgetExtension_fields widgetName extension (fields s)) as (Hm & _).
    unfold models_kept. simpl. rewrite Hm.
    split; [exact Htext|]. split; [exact Hlow|].
    intros i name Hi. apply lookup_snoc_Some in Hi as [Hi|Hi]; [eauto|].
    unfold addWidgetExtension in Hi.
    destruct (_extenders (fields s) !! toLowerCase widgetName); simpl in Hi;
      match type of Hi with context [if ?b then _ else _] => destruct b end;
      discriminate.
  - unfold models_kept. simpl.
    split; [exact Htext|]. split; [exact Hlow|].
    intros i name Hi. apply lookup_snoc_Some in Hi as [Hi|Hi]; [eauto|discriminate].
  - pose proof (setDefaultWidgetFactory_fields ftname factory (fields s)) as (Hm & _).
    destruct (completion (setDefaultWidgetFactory ftname factory (fields s)));
      [|repeat split; assumption].
    unfold models_kept. simpl. rewrite Hm. repeat split; assumption.
  - unfold models_kept, dispose_registry. simpl.
    destruct (_isDisposed (fields s)); simpl; repeat split; assumption.
  - destruct (disposables s !! di) as [[cl|]|] eqn:Hd;
      [|repeat split; assumption..].
    assert (Hdel' : forall i name,
               <[di := None]> (disposables s) !! i
               = Some (Some (of_addModelFactory name)) -> name <> "text")
      by (intros i name Hi; apply lookup_cleared in Hi; eauto).
    destruct cl as [fn|name|n e|v nm]; simpl.
    + pose proof (call_fields fn (fields s)) as (Hm & _).
      unfold models_kept. simpl. rewrite Hm. repeat split; assumption.
    + unfold models_kept. simpl.
      assert (Hne : name <> "text") by eauto.
      split; [rewrite lookup_delete_ne by exact Hne; exact Htext|].
      split; [|exact Hdel'].
      intros k Hk. apply Hlow.
      destruct (decide (name = k)) as [->|Hk'];
        [rewrite lookup_delete_eq in Hk; now destruct Hk
        |now rewrite lookup_delete_ne in Hk].
    + destruct (_extenders (fields s) !! n); simpl;
        unfold models_kept; simpl; repeat split; assumption.
    + unfold models_kept. simpl. repeat split; assumption.
Qed.

Lemma reachable_models_kept s : reachable_system trans s -> models_kept s.
Proof.
  induction 1 as [tmf options r Hc|c s _ IH]; [|now apply exec_models_kept].
  unfold constructor in Hc.
  destruct (match textModelFactory options with
            | Some f => negb (String.eqb (mf_name f) "text")
            | None => false
            end); [discriminate|].
  injection Hc as <-. unfold models_kept. simpl.
  split; [rewrite lookup_singleton_eq; eauto|]. split.
  - intros k Hk. destruct (decide ("text" = k)) as [<-|Hne]; [reflexivity|].
    rewrite lookup_singleton_ne in Hk by exact Hne. now destruct Hk.
  - intros i name Hi. discriminate.
Qed.

Lemma has_extension_false e l : has_extension e l = false -> e ∉ l.
Proof.
  unfold has_extension. intros H Hin.
  assert (existsb (Nat.eqb e) l = true); [|congruence].
  apply existsb_exists. exists e. split; [now apply list_elem_of_In|].
  apply Nat.eqb_refl.
Qed.

Lemma NoDup_push {A} (l : list A) (x : A) : x ∉ l -> NoDup l -> NoDup (l ++ [x]).
Proof.
  intros Hx Hl. apply NoDup_app. split; [exact Hl|]. split; [|apply NoDup_singleton].
  intros y Hy Hin. apply list_elem_of_singleton in Hin. now subst.
Qed.

Lemma removeFirstOf_sublist {A} (eqb : A -> A -> bool) (a : list A) x :
  sublist (removeFirstOf eqb a x) a.
Proof.
  induction a as [|y t IH]; simpl; [constructor|].
  destruct (eqb y x); [now apply sublist_cons | now apply sublist_skip].
Qed.

Lemma exec_extenders_kept c s :
  extenders_kept s -> extenders_kept (snd (exec trans c s)).
Proof.
  intros (Hnd & Hdel).
  destruct c as [factory|factory|widgetName extension|pft|ftname factory| |di]; simpl.
  - pose proof (addWidgetFactory_fields factory (fields s)) as (_ & He & _).
    destruct (completion (addWidgetFactory factory (fields s))) as [d|m];
      [|split; assumption].
    unfold extenders_kept. simpl. rewrite He. split; [exact Hnd|].
    intros i n e Hi. apply lookup_snoc_Some in Hi as [Hi|Hi]; [eauto|].
    destruct (_fn d); discriminate.
  - pose proof (addModelFactory_fields factory (fields s)) as (_ & He & _).
    unfold extenders_kept. simpl. rewrite He. split; [exact Hnd|].
    intros i n e Hi. apply lookup_snoc_Some in Hi as [Hi|Hi]; [eauto|].
    unfold addModelFactory in Hi.
    destruct (_modelFactories (fields s) !! _); discriminate.
  - unfold extenders_kept, addWidgetExtension.
    set (w := toLowerCase widgetName).
    destruct (_extenders (fields s) !! w) as [l|] eqn:Hw; simpl.
    + rewrite Hw. simpl.
      destruct (has_extension extension l) eqn:Hh; simpl.
      * split; [exact Hnd|].
        intros i n e Hi. apply lookup_snoc_Some in Hi as [Hi|Hi]; [eauto|discriminate].
      * split.
        -- intros n l' Hl. destruct (decide (w = n)) as [<-|Hne].
           ++ rewrite lookup_insert_eq in Hl. injection Hl as <-.
              apply NoDup_push; [now apply has_extension_false | eauto].
           ++ rewrite lookup_insert_ne in Hl by exact Hne. eauto.
        -- intros i n e Hi. apply lookup_snoc_Some in Hi as [Hi|Hi].
           ++ destruct (decide (w = n)) as [<-|Hne];
                [rewrite lookup_insert_eq; eauto
                |rewrite lookup_insert_ne by exact Hne; eauto].
           ++ injection Hi as <- <-. rewrite lookup_insert_eq. eauto.
    + rewrite lookup_insert_eq. simpl. rewrite insert_insert_eq. split.
      * intros n l' Hl. destruct (decide (w = n)) as [<-|Hne].
        -- rewrite lookup_insert_eq in Hl. injection Hl as <-.
           apply NoDup_singleton.
        -- rewrite lookup_insert_ne in Hl by exact Hne. eauto.
      * intros i n e Hi. apply lookup_snoc_Some in Hi as [Hi|Hi].
        -- destruct (decide (w = n)) as [<-|Hne];
             [rewrite lookup_insert_eq; eauto
             |rewrite lookup_insert_ne by exact Hne; eauto].
        -- injection Hi as <- <-. rewrite lookup_insert_eq. eauto.
  - unfold extenders_kept. simpl. split; [exact Hnd|].
    intros i n e Hi. apply lookup_snoc_Some in Hi as [Hi|Hi]; [eauto|discriminate].
  - pose proof (setDefaultWidgetFactory_fields ftname factory (fields s))
      as (_ & _ & He & _).
    destruct (completion (setDefaultWidgetFactory ftname factory (fields s)));
      [|split; assumption].
    unfold extenders_kept. simpl. rewrite He. split; assumption.
  - unfold extenders_kept, dispose_registry. simpl.
    destruct (_isDisposed (fields s)); simpl; [split; assumption|]. split.
    + intros n l Hl. rewrite lookup_fmap in Hl.
      destruct (_extenders (fields s) !! n); [|discriminate].
      injection Hl as <-. constructor.
    + intros i n e Hi. rewrite lookup_fmap.
      destruct (Hdel i n e Hi) as [l ->]. simpl. eauto.
  - destruct (disposables s !! di) as [[cl|]|] eqn:Hd; [|split; assumption..].
    assert (Hdel' : forall i n e,
               <[di := None]> (disposables s) !! i
               = Some (Some (of_addWidgetExtension n e)) ->
               is_Some (_extenders (fields s) !! n))
      by (intros i n e Hi; apply lookup_cleared in Hi; eauto).
    destruct cl as [fn|name|n e|v nm]; simpl.
    + pose proof (call_fields fn (fields s)) as (_ & He & _).
      unfold extenders_kept. simpl. rewrite He. split; assumption.
    + unfold extenders_kept. simpl. split; assumption.
    + destruct (_extenders (fields s) !! n) as [l|] eqn:Hn; simpl;
        [|split; assumption].
      unfold extenders_kept. simpl. split.
      * intros n' l' Hl. destruct (decide (n = n')) as [<-|Hne].
        -- rewrite lookup_insert_eq in Hl. injection Hl as <-.
           eapply sublist_NoDup; [eauto | apply removeFirstOf_sublist].
        -- rewrite lookup_insert_ne in Hl by exact Hne. eauto.
      * intros i n' e' Hi. destruct (decide (n = n')) as [<-|Hne];
          [rewrite lookup_insert_eq; eauto
          |rewrite lookup_insert_ne by exact Hne; eauto].
    + unfold extenders_kept. simpl. split; assumption.
Qed.

Lemma constructed_fields tmf options r :
  constructor trans tmf options = Return r ->
  _widgetFactories r = ∅ /\ _extenders r = ∅ /\
  _defaultWidgetFactoryOverrides r = ∅ /\ _isDisposed r = false.
Proof.
  unfold constructor.
  destruct (match textModelFactory options with
            | Some f => negb (String.eqb (mf_name f) "text")
            | None => false
            end); [discriminate|].
  intros [= <-]. repeat split; reflexivity.
Qed.

Lemma reachable_extenders_kept s : reachable_system trans s -> extenders_kept s.
Proof.
  induction 1 as [tmf options r Hc|c s _ IH]; [|now apply exec_extenders_kept].
  apply constructed_fields in Hc as (_ & He & _).
  split; simpl.
  - intros n l Hl. rewrite He in Hl. discriminate.
  - intros i n e Hi. discriminate.
Qed.

Lemma addWidgetFactory_key factory r f k :
  (forall k f, _widgetFactories r !! k = Some f ->
               toLowerCase (wf_name f) = k /\ k <> "" /\ k <> "default") ->
  _widgetFactories (registry (addWidgetFactory factory r)) !! k = Some f ->
  toLowerCase (wf_name f) = k /\ k <> "" /\ k <> "default".
Proof.
  intros Hold. unfold addWidgetFactory.
  destruct (String.eqb_spec (toLowerCase (wf_name factory)) "") as [|N1];
    [simpl; apply Hold|].
  destruct (String.eqb_spec (toLowerCase (wf_name factory)) "default") as [|N2];
    [simpl; apply Hold|].
  simpl. destruct (_widgetFactories r !! toLowerCase (wf_name factory)) eqn:Hr;
    simpl; [apply Hold|].
  destruct (decide (toLowerCase (wf_name factory) = k)) as [<-|Hne].
  - rewrite lookup_insert_eq. intros [= <-]. auto.
  - rewrite lookup_insert_ne by exact Hne. apply Hold.
Qed.

Lemma exec_widgets_kept c s : widgets_kept s -> widgets_kept (snd (exec trans c s)).
Proof.
  intros Hk.
  destruct c as [factory|factory|widgetName extension|pft|ftname factory| |di]; simpl.
  - pose proof (addWidgetFactory_key factory (fields s)) as Hkey.
    destruct (completion (addWidgetFactory factory (fields s))) as [d|m];
      [|exact Hk].
    intros k f Hf. simpl in Hf. eapply Hkey; eauto.
  - pose proof (addModelFactory_fields factory (fields s)) as (Hw & _).
    unfold widgets_kept. simpl. rewrite Hw. exact Hk.
  - pose proof (addWidgetExtension_fields widgetName extension (fields s))
      as (_ & Hw & _).
    unfold widgets_kept. simpl. rewrite Hw. exact Hk.
  - exact Hk.
  - pose proof (setDefaultWidgetFactory_fields ftname factory (fields s))
      as (_ & Hw & _).
    destruct (completion (setDefaultWidgetFactory ftname factory (fields s)));
      [|exact Hk].
    unfold widgets_kept. simpl. rewrite Hw. exact Hk.
  - unfold widgets_kept, dispose_registry. simpl.
    destruct (_isDisposed (fields s)); exact Hk.
  - destruct (disposables s !! di) as [[cl|]|] eqn:Hd; [|exact Hk..].
    destruct cl as [fn|name|n e|v nm]; simpl.
    + pose proof (call_fields fn (fields s)) as (_ & _ & _ & _ & [Hw|[name Hw]]);
        unfold widgets_kept; simpl; rewrite Hw; [exact Hk|].
      intros k f Hf. apply lookup_delete_Some in Hf as [_ Hf]. eauto.
    + exact Hk.
    + destruct (_extenders (fields s) !! n); exact Hk.
    + exact Hk.
Qed.

Lemma reachable_widgets_kept s : reachable_system trans s -> widgets_kept s.
Proof.
  induction 1 as [tmf options r Hc|c s _ IH]; [|now apply exec_widgets_kept].
  apply constructed_fields in Hc as (Hw & _).
  intros k f Hf. simpl in Hf. rewrite Hw in Hf. discriminate.
Qed.

Lemma remove_at_length {A B} (i : nat) (a : list A) (b : list B) :
  length a = length b -> length (remove_at i a) = length (remove_at i b).
Proof.
  intros H. unfold remove_at.
  rewrite !length_app, !length_take, !length_drop. lia.
Qed.

Lemma remove_at_sublist {A} (i : nat) (a : list A) : sublist (remove_at i a) a.
Proof.
  revert a. induction i as [|i IH]; intros [|x t]; simpl;
    try (unfold remove_at; simpl; constructor; fail).
  - unfold remove_at. simpl. rewrite drop_0. now apply sublist_cons.
  - unfold remove_at in *. simpl. apply sublist_skip. apply IH.
Qed.

Lemma remove_object_kept {A} (v : nat) (ids : list nat) (a : list A) (n : nat) :
  length ids = length a -> Forall (fun i => i < n) ids ->
  length (remove_object v ids ids) = length (remove_object v ids a) /\
  Forall (fun i => i < n) (remove_object v ids ids).
Proof.
  intros Hlen Hall. unfold remove_object.
  destruct (index_of v ids) as [i|]; [|split; assumption].
  split; [now apply remove_at_length|].
  rewrite Forall_forall in *. intros x Hx. apply Hall.
  eapply elem_of_sublist; [exact Hx | apply remove_at_sublist].
Qed.

Lemma exec_identities_kept c s :
  identities_kept s -> identities_kept (snd (exec trans c s)).
Proof.
  intros (Hlen & Hall).
  destruct c as [factory|factory|widgetName extension|pft|ftname factory| |di]; simpl.
  - pose proof (addWidgetFactory_fields factory (fields s)) as (_ & _ & Hf & _).
    destruct (completion (addWidgetFactory factory (fields s))) as [d|m];
      [|split; assumption].
    unfold identities_kept. simpl. rewrite Hf. split; assumption.
  - pose proof (addModelFactory_fields factory (fields s)) as (_ & _ & Hf & _).
    unfold identities_kept. simpl. rewrite Hf. split; assumption.
  - pose proof (addWidgetExtension_fields widgetName extension (fields s))
      as (_ & _ & Hf & _).
    unfold identities_kept. simpl. rewrite Hf. split; assumption.
  - unfold identities_kept. simpl. rewrite !length_app. simpl.
    split; [lia|]. apply Forall_app. split.
    + eapply Forall_impl; [exact Hall|]. simpl. intros; lia.
    + repeat constructor.
  - pose proof (setDefaultWidgetFactory_fields ftname factory (fields s))
      as (_ & _ & _ & Hf & _).
    destruct (completion (setDefaultWidgetFactory ftname factory (fields s)));
      [|split; assumption].
    unfold identities_kept. simpl. rewrite Hf. split; assumption.
  - unfold identities_kept, dispose_registry. simpl.
    destruct (_isDisposed (fields s)); simpl; [split; assumption|].
    split; [reflexivity | constructor].
  - destruct (disposables s !! di) as [[cl|]|] eqn:Hd; [|split; assumption..].
    destruct cl as [fn|name|n e|v nm]; simpl.
    + pose proof (call_fields fn (fields s)) as (_ & _ & Hf & _).
      unfold identities_kept. simpl. rewrite Hf. split; assumption.
    + split; assumption.
    + destruct (_extenders (fields s) !! n); split; assumption.
    + unfold identities_kept. simpl.
      apply remove_object_kept; assumption.
Qed.

Lemma reachable_identities_kept s : reachable_system trans s -> identities_kept s.
Proof.
  induction 1 as [tmf options r Hc|c s _ IH]; [|now apply exec_identities_kept].
  split; simpl; [apply length_seq|].
  apply Forall_forall. intros i Hi. apply elem_of_seq in Hi. lia.
Qed.

Lemma reachable_exec_all cs s :
  reachable_system trans s -> reachable_system trans (exec_all trans cs s).
Proof.
  revert s. induction cs as [|c cs IH]; intros s H; [exact H|].
  simpl. apply IH. now apply reach_exec.
Qed.

(** *** What holds of every registry a program can reach *)

(** The text model factory cannot be lost: in every reachable system
    [getModelFactory] finds a factory under ['text'], in any case. *)
Theorem text_model_factory_is_permanent (s : System) (name : string) :
  reachable_system trans s ->
  toLowerCase name = "text" ->
  is_Some (getModelFactory name (fields s)).
Proof.
  intros Hr Hn. unfold getModelFactory. rewrite Hn.
  apply (reachable_models_kept s Hr).
Qed.

(** No extension is registered twice for a widget name: the list of
    [widgetExtensions] has no duplicates. *)
Theorem widgetExtensions_has_no_duplicates (s : System) (widgetName : string) :
  reachable_system trans s ->
  NoDup (widgetExtensions widgetName (fields s)).
Proof.
  intros Hr. unfold widgetExtensions.
  destruct (_extenders (fields s) !! toLowerCase widgetName) as [l|] eqn:Hl;
    simpl; [|constructor].
  exact (proj1 (reachable_extenders_kept s Hr) _ _ Hl).
Qed.

(** Every registered widget factory is the one [getWidgetFactory] finds
    under its own name. *)
Theorem registered_widget_factory_is_found (s : System) (k : string) (f : IWidgetFactory) :
  reachable_system trans s ->
  _widgetFactories (fields s) !! k = Some f ->
  getWidgetFactory (wf_name f) (fields s) = Some f.
Proof.
  intros Hr Hf. unfold getWidgetFactory.
  destruct (reachable_widgets_kept s Hr k f Hf) as (-> & _). exact Hf.
Qed.

Lemma run_closure_disposables c s :
  disposables (snd (run_closure c s)) = disposables s.
Proof.
  destruct c as [fn|name|n e|v nm]; simpl; try reflexivity.
  destruct (_extenders (fields s) !! n); reflexivity.
Qed.

(** Disposing a disposable never throws, and disposing it again changes
    nothing. *)
Theorem disposing_never_throws (s : System) (i : nat) :
  reachable_system trans s ->
  fst (exec trans (DisposeDelegate i) s) = None /\
  exec trans (DisposeDelegate i) (snd (exec trans (DisposeDelegate i) s)) =
    (None, snd (exec trans (DisposeDelegate i) s)).
Proof.
  intros Hr. simpl.
  destruct (disposables s !! i) as [[c|]|] eqn:Hi.
  - split.
    + destruct c as [fn|name|n e|v nm]; try reflexivity.
      destruct (proj2 (reachable_extenders_kept s Hr) i n e Hi) as [l Hl].
      unfold run_closure. cbn [fields].
      match goal with |- context [match ?x with _ => _ end] =>
        replace x with (Some l) by (symmetry; exact Hl) end.
      reflexivity.
    + simpl. rewrite run_closure_disposables. simpl.
      rewrite list_lookup_insert_eq; [reflexivity|].
      now apply lookup_lt_Some in Hi.
  - split; [reflexivity|]. simpl. now rewrite Hi.
  - split; [reflexivity|]. simpl. now rewrite Hi.
Qed.

Lemma index_of_fresh (ids more : list nat) (n : nat) :
  Forall (fun i => i < n) ids ->
  index_of n (ids ++ n :: more) = Some (length ids).
Proof.
  induction ids as [|x t IH]; intros H; simpl.
  - now rewrite Nat.eqb_refl.
  - inversion H as [|? ? Hx Ht]; subst.
    destruct (Nat.eqb_spec x n) as [->|_]; [lia|].
    now rewrite (IH Ht).
Qed.

Lemma remove_at_middle {A} (a b : list A) (x : A) :
  remove_at (length a) (a ++ x :: b) = a ++ b.
Proof.
  induction a as [|y t IH]; [reflexivity|].
  unfold remove_at in *. simpl. now rewrite IH.
Qed.

Lemma exec_all_addFileType later :
  forall s,
    let s' := exec_all trans (map AddFileType later) s in
    _fileTypes (fields s') =
      _fileTypes (fields s) ++ map (addFileType_value trans) later /\
    identities s' = identities s ++ seq (fresh s) (length later) /\
    exists more, disposables s' = disposables s ++ more.
Proof.
  induction later as [|p later IH]; intros s; simpl.
  - rewrite !app_nil_r. repeat split. exists []. now rewrite app_nil_r.
  - specialize (IH (snd (exec trans (AddFileType p) s))).
    simpl in IH. destruct IH as (Hf & Hi & more & Hd).
    rewrite Hf, Hi, Hd, <- !app_assoc. simpl. repeat split. eauto.
Qed.

(** The disposable of [addFileType] removes the very object that call
    added: the file types registered before and after it stay, in their
    order, also when some of them are equal to it. *)
Theorem addFileType_disposable_removes_its_object
    (s : System) (added_ft : PartialFileType) (later : list PartialFileType) :
  reachable_system trans s ->
  let i := length (disposables s) in
  let s1 := exec_all trans (AddFileType added_ft :: map AddFileType later) s in
  let s2 := snd (exec trans (DisposeDelegate i) s1) in
  _fileTypes (fields s1) =
    _fileTypes (fields s) ++
    addFileType_value trans added_ft :: map (addFileType_value trans) later /\
  _fileTypes (fields s2) =
    _fileTypes (fields s) ++ map (addFileType_value trans) later.
Proof.
  intros Hr i s1 s2.
  destruct (reachable_identities_kept s Hr) as (Hlen & Hall).
  pose proof (exec_all_addFileType later (snd (exec trans (AddFileType added_ft) s)))
    as H.
  cbv zeta in H.
  change (exec_all trans (map AddFileType later)
            (snd (exec trans (AddFileType added_ft) s))) with s1 in H.
  subst s2. clearbody s1. simpl in H.
  rewrite <- !app_assoc in H. simpl in H.
  destruct H as (Hf & Hi & more & Hd).
  split; [exact Hf|].
  assert (Hlook : disposables s1 !! i =
                  Some (Some (of_addFileType (fresh s) (p_name added_ft)))).
  { rewrite Hd, <- app_assoc. subst i. simpl. now rewrite list_lookup_middle. }
  simpl. rewrite Hlook. simpl. rewrite Hf, Hi.
  unfold remove_object. rewrite (index_of_fresh _ _ _ Hall).
  rewrite Hlen. apply remove_at_middle.
Qed.

End Kept.

(** *** [getFileTypesForPath], further *)

Lemma find_In {A} (p : A -> bool) (a : list A) x :
  find p a = Some x -> In x a /\ p x = true.
Proof. apply List.find_some. Qed.

Lemma first_listing_In fileTypes ext ft :
  first_listing fileTypes ext = Some ft -> In ft fileTypes /\ ext ∈ ft_extensions ft.
Proof.
  unfold first_listing. intros H. apply List.find_some in H as [Hin Hft].
  split; [exact Hin | now apply bool_decide_eq_true in Hft].
Qed.

Lemma by_extension_In fileTypes exts ft :
  In ft (by_extension fileTypes exts) ->
  exists ext, In ext exts /\ In ft fileTypes /\ ext ∈ ft_extensions ft.
Proof.
  unfold by_extension. induction exts as [|e l IH]; cbn [omap list_omap]; [simpl; tauto|].
  destruct (first_listing fileTypes e) as [x|] eqn:Hf.
  - intros [<-|H].
    + apply first_listing_In in Hf as [? ?]. exists e. simpl. auto.
    + destruct (IH H) as (ext & ? & ? & ?). exists ext. simpl. auto.
  - intros H. destruct (IH H) as (ext & ? & ? & ?). exists ext. simpl. auto.
Qed.

Lemma ext_loop_In fileTypes n :
  forall ext fts ft,
    String.length ext <= n ->
    In ft (ext_loop fileTypes ext fts) -> In ft fts \/ In ft fileTypes.
Proof.
  induction n as [|n IH]; intros ext fts ft Hlen; rewrite ext_loop_equation_1;
    destruct (le_lt_dec _ _) as [Hle|Hgt].
  - simpl. auto.
  - lia.
  - simpl. auto.
  - rewrite ext_loop_clause_1_equation_2. intros Hin.
    apply IH in Hin; [|pose proof (next_ext_shorter ext Hgt); lia].
    destruct Hin as [Hin|Hin]; [|now right].
    destruct (find (lists_extension ext) fileTypes) as [x|] eqn:Hf; simpl in Hin;
      [|now left].
    apply in_app_or in Hin as [Hin|[<-|[]]]; [now left|].
    right. now apply find_In in Hf.
Qed.

Section FileTypesForPathMore.

Variable basename : string -> string.
Variable lower : string -> string.
Variable String_match : string -> string -> Completion bool.

(** Every file type [getFileTypesForPath] returns is registered. *)
Lemma getFileTypesForPath_In (path : string) (r : Registry) fts ft :
  getFileTypesForPath basename lower String_match path r = Return fts ->
  In ft fts -> In ft (_fileTypes r).
Proof.
  unfold getFileTypesForPath.
  destruct (find_or_throw _ _) as [o|e] eqn:Hfind; [|discriminate].
  intros [= <-] Hin. apply (ext_loop_In _ _ _ _ _ (le_n _)) in Hin as [Hin|Hin];
    [|exact Hin].
  destruct o as [x|]; simpl in Hin; [|tauto]. destruct Hin as [<-|[]].
  apply find_or_throw_Some in Hfind as (before & after & -> & _).
  apply in_or_app. right. now left.
Qed.

(** The result depends on the registered file types only. *)
Lemma getFileTypesForPath_fileTypes (path : string) (r r' : Registry) :
  _fileTypes r' = _fileTypes r ->
  getFileTypesForPath basename lower String_match path r' =
  getFileTypesForPath basename lower String_match path r.
Proof. intros H. unfold getFileTypesForPath. now rewrite H. Qed.

(** Without registered file types the result is empty. *)
Lemma getFileTypesForPath_none (path : string) (r : Registry) :
  _fileTypes r = [] ->
  getFileTypesForPath basename lower String_match path r = Return [].
Proof.
  intros H.
  destruct (getFileTypesForPath basename lower String_match path r) as [fts|e] eqn:Hg.
  - destruct fts as [|ft fts]; [reflexivity|].
    pose proof (getFileTypesForPath_In path r _ ft Hg (or_introl eq_refl)) as Hin.
    rewrite H in Hin. destruct Hin.
  - unfold getFileTypesForPath in Hg. rewrite H in Hg. discriminate.
Qed.

(** A file type all of whose extensions differ from their lower case is
    found by its pattern or not at all: the extension of the name is
    lower-cased before the file types are searched for it, the extensions
    of the file types are compared as they are. *)
Theorem upper_case_extensions_never_match
    (path : string) (r : Registry) (fts : list IFileType) (ft : IFileType) :
  (forall s, exists t, lower (String dot s) = String dot t) ->
  (forall s e, In e (dot_suffixes (lower s)) -> lower e = e) ->
  Forall (fun ext => lower ext <> ext) (ft_extensions ft) ->
  getFileTypesForPath basename lower String_match path r = Return fts ->
  In ft fts ->
  pattern_found String_match (basename path) ft.
Proof.
  intros Hdot Hlow Hup. unfold getFileTypesForPath.
  destruct (find_or_throw _ _) as [o|e] eqn:Hfind; [|discriminate].
  intros [= <-] Hin.
  rewrite (ext_loop_compound_extensions basename lower Hdot), push_if_app in Hin.
  simpl in Hin. apply in_app_or in Hin as [Hin|Hin].
  - destruct o as [x|]; simpl in Hin; [|tauto]. destruct Hin as [<-|[]].
    apply find_or_throw_Some in Hfind as (_ & _ & _ & _ & Hft).
    now apply pattern_matches_true in Hft.
  - exfalso. apply by_extension_In in Hin as (ext & He & _ & Hl).
    unfold compound_extensions in He. apply List.filter_In in He as [He _].
    apply Hlow in He. rewrite Forall_forall in Hup. now apply (Hup ext).
Qed.

End FileTypesForPathMore.

(** *** [preferredWidgetFactories], [defaultWidgetFactory] and
    [setDefaultWidgetFactory] *)

Lemma NoDup_omap {A B} (f : A -> option B) (l : list A) :
  NoDup l ->
  (forall x y z, x ∈ l -> y ∈ l -> f x = Some z -> f y = Some z -> x = y) ->
  NoDup (omap f l).
Proof.
  induction 1 as [|x l Hx Hl IH]; intros Hinj; [constructor|].
  cbn [omap list_omap].
  assert (Ht : NoDup (omap f l)).
  { apply IH. intros a b z Ha Hb. apply Hinj; now apply list_elem_of_further. }
  destruct (f x) as [z|] eqn:Hz; [|exact Ht].
  constructor; [|exact Ht].
  intros Hin. apply list_elem_of_omap in Hin as (y & Hy & Hfy).
  assert (x = y).
  { apply (Hinj x y z); [apply list_elem_of_here | now apply list_elem_of_further
                        | exact Hz | exact Hfy]. }
  subst y. contradiction.
Qed.

Lemma add_for_ext (t t' : gmap string string) fts s :
  Forall (fun ft => t' !! ft_name ft = t !! ft_name ft) fts ->
  add_for t' fts s = add_for t fts s.
Proof.
  revert s. induction fts as [|ft fts IH]; intros s H; [reflexivity|].
  inversion H as [|? ? Hft Hfts]; subst.
  unfold add_for in *. cbn [fold_left]. rewrite Hft. now apply IH.
Qed.

Lemma setDefaultWidgetFactory_overrides fileType factory r k :
  k <> toLowerCase fileType ->
  _defaultWidgetFactoryOverrides
    (registry (setDefaultWidgetFactory fileType factory r)) !! k =
  _defaultWidgetFactoryOverrides r !! k.
Proof.
  intros Hk. unfold setDefaultWidgetFactory.
  repeat match goal with
         | |- context [match ?x with _ => _ end] => destruct x
         end; simpl; try reflexivity.
  all: first [now rewrite lookup_delete_ne by congruence
             |now rewrite lookup_insert_ne by congruence].
Qed.

Section PreferredFacts.

Variable basename : string -> string.
Variable lower : string -> string.
Variable String_match : string -> string -> Completion bool.
Variable trans : string -> string.

Lemma preferred_names_candidates fts r :
  preferred_names fts r = add_each (candidates fts r) [].
Proof.
  unfold preferred_names, candidates. cbv zeta.
  rewrite !add_each_app, !add_for_add_each, add_lists_add_each.
  destruct (String.eqb (_defaultWidgetFactory r) "");
    destruct (_widgetFactoriesForFileType r !! "*"); reflexivity.
Qed.


Lemma preferredWidgetFactories_Return path r factories :
  preferredWidgetFactories basename lower String_match path r = Return factories ->
  exists fts,
    getFileTypesForPath basename lower String_match (basename path) r = Return fts /\
    factories = omap (usable r) (preferred_names fts r).
Proof.
  unfold preferredWidgetFactories.
  destruct (getFileTypesForPath _ _ _ _ _) as [fts|e]; [|discriminate].
  intros [= <-]. eauto.
Qed.

(** In a registry a program can reach, [preferredWidgetFactories] returns
    no factory twice. *)
Theorem preferredWidgetFactories_has_no_duplicates
    (s : System) (path : string) (factories : list IWidgetFactory) :
  reachable_system trans s ->
  preferredWidgetFactories basename lower String_match path (fields s)
  = Return factories ->
  NoDup factories.
Proof.
  intros Hr Hp. apply preferredWidgetFactories_Return in Hp as (fts & _ & ->).
  apply NoDup_omap.
  - rewrite preferred_names_candidates. apply add_each_NoDup. constructor.
  - intros x y z _ _ Hx Hy. unfold usable in Hx, Hy.
    destruct (_widgetFactories (fields s) !! x) as [fx|] eqn:Ex; [|discriminate].
    destruct (_widgetFactories (fields s) !! y) as [fy|] eqn:Ey; [|discriminate].
    destruct (decide _); [|discriminate]. destruct (decide _); [|discriminate].
    injection Hx as ->. injection Hy as ->.
    destruct (reachable_widgets_kept trans s Hr x z Ex) as (<- & _).
    destruct (reachable_widgets_kept trans s Hr y z Ey) as (<- & _).
    reflexivity.
Qed.

Lemma usable_registered (s : System) (name : string) (f : IWidgetFactory) :
  reachable_system trans s ->
  usable (fields s) name = Some f ->
  getWidgetFactory (wf_name f) (fields s) = Some f /\
  is_Some (getModelFactory (modelName_or_text f) (fields s)) /\
  toLowerCase (modelName_or_text f) = modelName_or_text f.
Proof.
  intros Hr Hu. unfold usable in Hu.
  destruct (_widgetFactories (fields s) !! name) as [g|] eqn:Eg; [|discriminate].
  destruct (decide _) as [Hm|]; [|discriminate]. injection Hu as ->.
  destruct (reachable_models_kept trans s Hr) as (_ & Hlow & _).
  pose proof (Hlow _ Hm) as Hl.
  split; [|split; [|exact Hl]].
  - unfold getWidgetFactory.
    destruct (reachable_widgets_kept trans s Hr name f Eg) as (-> & _). exact Eg.
  - unfold getModelFactory. now rewrite Hl.
Qed.


(** [setDefaultWidgetFactory] stores the override under the lower-cased
    name of the file type, [preferredWidgetFactories] reads it under the
    name as registered: when no file type is registered under the
    lower-cased name, as for ['PDF'], the call changes the preferred
    factories of no path. *)
Theorem setDefaultWidgetFactory_lower_cased_key
    (fileType : string) (factory : option string) (r : Registry) (path : string) :
  Forall (fun ft => ft_name ft <> toLowerCase fileType) (_fileTypes r) ->
  preferredWidgetFactories basename lower String_match path
    (registry (setDefaultWidgetFactory fileType factory r)) =
  preferredWidgetFactories basename lower String_match path r.
Proof.
  intros Hnames.
  pose proof (setDefaultWidgetFactory_fields fileType factory r)
    as (Hm & Hw & _ & Hf & Hd & Hds & Hdr & Hft & _).
  cbv zeta in *.
  set (r' := registry (setDefaultWidgetFactory fileType factory r)) in *.
  unfold preferredWidgetFactories.
  rewrite (getFileTypesForPath_fileTypes basename lower String_match _ r r' Hf).
  destruct (getFileTypesForPath basename lower String_match (basename path) r)
    as [fts|e] eqn:Hg; [|reflexivity].
  f_equal.
  assert (Hu : forall n, usable r' n = usable r n).
  { intros n. unfold usable. now rewrite Hw, Hm. }
  assert (Hn : preferred_names fts r' = preferred_names fts r).
  { unfold preferred_names. cbv zeta.
    rewrite Hd, Hds, Hdr, Hft.
    rewrite (add_for_ext (_defaultWidgetFactoryOverrides r)
               (_defaultWidgetFactoryOverrides r')); [reflexivity|].
    apply Forall_forall. intros ft Hin.
    apply setDefaultWidgetFactory_overrides.
    rewrite Forall_forall in Hnames.
    apply Hnames. apply list_elem_of_In.
    apply (getFileTypesForPath_In basename lower String_match _ r fts ft Hg).
    now apply list_elem_of_In. }
  rewrite Hn. clear Hn. induction (preferred_names fts r) as [|n l IH];
    [reflexivity|].
  cbn [omap list_omap]. now rewrite Hu, IH.
Qed.

(** Unsetting an override that was set where there was none gives back
    the registry as it was. *)
Theorem setDefaultWidgetFactory_unset_restores
    (fileType factory : string) (r : Registry) :
  _defaultWidgetFactoryOverrides r !! toLowerCase fileType = None ->
  completion (setDefaultWidgetFactory fileType (Some factory) r) = Return tt ->
  setDefaultWidgetFactory fileType None
    (registry (setDefaultWidgetFactory fileType (Some factory) r)) =
  {| completion := Return tt; registry := r; warnings := [] |}.
Proof.
  intros Hnone Hret.
  assert (Hg : forall r', _fileTypes r' = _fileTypes r ->
                 getFileType (toLowerCase fileType) r' =
                 getFileType (toLowerCase fileType) r).
  { intros r' E. unfold getFileType. now rewrite E. }
  unfold setDefaultWidgetFactory in *.
  destruct (getFileType (toLowerCase fileType) r) as [ft|] eqn:Hft;
    [|discriminate].
  destruct factory as [|c factory].
  - rewrite Hnone. simpl. now rewrite (Hg r eq_refl), Hnone.
  - destruct (getWidgetFactory (String c factory) r); [|discriminate].
    destruct (negb _ && negb _); [discriminate|].
    cbn [registry]. rewrite (Hg (set_overrides _ r) eq_refl).
    cbn [_defaultWidgetFactoryOverrides set_overrides].
    rewrite lookup_insert_eq. cbn [toLowerCase].
    unfold set_overrides. cbn. rewrite delete_insert_id by exact Hnone.
    destruct r; reflexivity.
Qed.

(** An override set for the first file type that matches a path makes the
    factory the default for the path, when its model factory is
    registered. *)
Theorem override_is_the_default_for_the_path
    (fileType factory path : string) (r : Registry) (ft : IFileType)
    (fts : list IFileType) (f : IWidgetFactory) :
  completion (setDefaultWidgetFactory fileType (Some factory) r) = Return tt ->
  factory <> "" ->
  getFileTypesForPath basename lower String_match (basename path) r
  = Return (ft :: fts) ->
  ft_name ft = toLowerCase fileType ->
  getWidgetFactory factory r = Some f ->
  is_Some (_modelFactories r !! modelName_or_text f) ->
  path <> "" ->
  defaultWidgetFactory basename lower String_match (Some path)
    (registry (setDefaultWidgetFactory fileType (Some factory) r)) = Return (Some f).
Proof.
  intros Hret Hne Hfts Hname Hf Hm Hpath.
  pose proof (setDefaultWidgetFactory_fields fileType (Some factory) r)
    as (Em & Ew & _ & Ef & _).
  cbv zeta in *.
  assert (Ho : _defaultWidgetFactoryOverrides
                 (registry (setDefaultWidgetFactory fileType (Some factory) r))
               !! toLowerCase fileType = Some (toLowerCase factory)).
  { unfold setDefaultWidgetFactory in *.
    destruct (getFileType (toLowerCase fileType) r); [|discriminate].
    destruct factory as [|c factory]; [congruence|].
    rewrite Hf in *.
    destruct (negb _ && negb _); [discriminate|].
    cbn [registry _defaultWidgetFactoryOverrides set_overrides].
    apply lookup_insert_eq. }
  set (r' := registry (setDefaultWidgetFactory fileType (Some factory) r)) in *.
  unfold defaultWidgetFactory. destruct path as [|c p]; [congruence|].
  unfold preferredWidgetFactories.
  rewrite (getFileTypesForPath_fileTypes basename lower String_match _ r r' Ef), Hfts.
  rewrite preferred_names_candidates, add_each_head. f_equal.
  unfold candidates. cbv zeta.
  cbn [omap list_omap]. rewrite Hname, Ho. cbn [app omap list_omap].
  unfold usable at 1. rewrite Ew, Em.
  unfold getWidgetFactory in Hf. rewrite Hf.
  destruct (decide _); [reflexivity|contradiction].
Qed.

End PreferredFacts.

(** *** [getFileType], [getFileTypeForModel], [addFileType] and [dispose] *)



Section ForModel.

Variable basename : string -> string.
Variable lower : string -> string.
Variable String_match : string -> string -> Completion bool.
Variable trans : string -> string.

Lemma getFileTypeForModel_default_case (model : PartialModel) (r : Registry) :
  m_type model <> Some "directory" ->
  m_type model <> Some "notebook" ->
  getFileTypeForModel basename lower String_match trans model r =
  match or_else (m_name model) (m_path model) with
  | Some _ =>
      match getFileTypesForPath basename lower String_match
              (match or_else (m_name model) None with
               | Some name => name
               | None => basename (default "" (m_path model))
               end) r with
      | Throw e => Throw e
      | Return (ft :: _) => Return ft
      | Return [] =>
          Return (default (getDefaultTextFileType trans) (getFileType "text" r))
      end
  | None => Return (default (getDefaultTextFileType trans) (getFileType "text" r))
  end.
Proof.
  unfold getFileTypeForModel. intros Hd Hn.
  destruct (m_type model) as [t|]; [|reflexivity].
  repeat (destruct t as [|[[] [] [] [] [] [] [] []] t];
          try reflexivity; try congruence).
Qed.

(** For a directory and for a notebook [getFileTypeForModel] returns a
    file type of that content type, whatever is registered and whatever
    the name and the path of the model are: no pattern is tried, and
    nothing is thrown. *)
Theorem getFileTypeForModel_content_type
    (name path : option string) (r : Registry) :
  (exists ft,
     getFileTypeForModel basename lower String_match trans
       {| m_type := Some "directory"; m_name := name; m_path := path |} r
     = Return ft /\
     ft_contentType ft = "directory") /\
  (exists ft,
     getFileTypeForModel basename lower String_match trans
       {| m_type := Some "notebook"; m_name := name; m_path := path |} r
     = Return ft /\
     ft_contentType ft = "notebook").
Proof.
  unfold getFileTypeForModel. cbn [m_type].
  split; eexists; (split; [reflexivity|]).
  - destruct (find _ (_fileTypes r)) as [ft|] eqn:Hf; [|reflexivity].
    apply find_In in Hf as [_ Hf]. now apply String.eqb_eq in Hf.
  - destruct (find _ (_fileTypes r)) as [ft|] eqn:Hf; [|reflexivity].
    apply find_In in Hf as [_ Hf]. now apply String.eqb_eq in Hf.
Qed.

(** [getFileTypeForModel] returns a registered file type or one of the
    three built-in ones; it throws only what [getFileTypesForPath] throws
    on the name of the model, or on the basename of its path. *)
Theorem getFileTypeForModel_registered_or_built_in (model : PartialModel) (r : Registry) :
  match getFileTypeForModel basename lower String_match trans model r with
  | Return ft =>
      In ft (_fileTypes r) \/
      ft = getDefaultTextFileType trans \/
      ft = getDefaultDirectoryFileType trans \/
      ft = getDefaultNotebookFileType trans
  | Throw e =>
      m_type model <> Some "directory" /\
      m_type model <> Some "notebook" /\
      exists name,
        (or_else (m_name model) None = Some name \/
         or_else (m_name model) None = None /\
         name = basename (default "" (m_path model))) /\
        getFileTypesForPath basename lower String_match name r = Throw e
  end.
Proof.
  assert (Htext : let t := default (getDefaultTextFileType trans) (getFileType "text" r) in
                  In t (_fileTypes r) \/ t = getDefaultTextFileType trans).
  { simpl. destruct (getFileType "text" r) as [t|] eqn:Ht; [|now right].
    left. unfold getFileType in Ht. now apply find_In in Ht. }
  cbv zeta in Htext.
  destruct (decide (m_type model = Some "directory")) as [Ed|Nd].
  { unfold getFileTypeForModel. rewrite Ed.
    destruct (find _ (_fileTypes r)) as [x|] eqn:Hf; simpl; [|tauto].
    left. now apply find_In in Hf. }
  destruct (decide (m_type model = Some "notebook")) as [En|Nn].
  { unfold getFileTypeForModel. rewrite En.
    destruct (find _ (_fileTypes r)) as [x|] eqn:Hf; simpl; [|tauto].
    left. now apply find_In in Hf. }
  rewrite (getFileTypeForModel_default_case model r Nd Nn).
  destruct (or_else (m_name model) (m_path model)); [|tauto].
  match goal with
  | |- context [getFileTypesForPath basename lower String_match ?n r] =>
      set (name := n);
      destruct (getFileTypesForPath basename lower String_match name r)
        as [[|x l]|e] eqn:Hg
  end.
  - tauto.
  - left. exact (getFileTypesForPath_In basename lower String_match name r _ x Hg
                   (or_introl eq_refl)).
  - split; [exact Nd|]. split; [exact Nn|]. exists name. split; [|exact Hg].
    subst name. destruct (or_else (m_name model) None); [now left|now right].
Qed.

(** Disposing of a registry empties its file types and its lists of
    extensions, and leaves the factories registered; no path has a file
    type any more, and no pattern is tried. A second [dispose] does
    nothing. *)
Theorem dispose_empties_file_types_and_extensions
    (r : Registry) (path widgetName name : string) :
  _isDisposed r = false ->
  let r' := dispose_registry r in
  getFileTypesForPath basename lower String_match path r' = Return [] /\
  getFileType name r' = None /\
  widgetExtensions widgetName r' = [] /\
  getWidgetFactory name r' = getWidgetFactory name r /\
  getModelFactory name r' = getModelFactory name r /\
  dispose_registry r' = r'.
Proof.
  intros Hd. unfold dispose_registry. rewrite Hd. cbv zeta.
  split; [|split; [|split]].
  - now apply getFileTypesForPath_none.
  - reflexivity.
  - unfold widgetExtensions. cbn [_extenders]. rewrite lookup_fmap.
    now destruct (_extenders r !! toLowerCase widgetName).
  - repeat split; reflexivity.
Qed.

End ForModel.

(** *** Registering, then disposing of the disposable *)

Lemma removeFirstOf_absent (l : list string) (name : string) :
  name ∉ l -> removeFirstOf String.eqb l name = l.
Proof.
  induction l as [|y t IH]; intros H; [reflexivity|].
  apply not_elem_of_cons in H as [Hy Ht]. simpl.
  destruct (String.eqb_spec y name); [congruence|]. now rewrite IH.
Qed.

Lemma removeFirstOf_last (l : list string) (name : string) :
  name ∉ l -> removeFirstOf String.eqb (l ++ [name]) name = l.
Proof.
  induction l as [|y t IH]; intros H; simpl.
  - now rewrite String.eqb_refl.
  - apply not_elem_of_cons in H as [Hy Ht].
    destruct (String.eqb_spec y name); [congruence|]. now rewrite IH.
Qed.

Lemma removeFirstOf_last_nat (l : list nat) (e : nat) :
  e ∉ l -> removeFirstOf Nat.eqb (l ++ [e]) e = l.
Proof.
  induction l as [|y t IH]; intros H; simpl.
  - now rewrite Nat.eqb_refl.
  - apply not_elem_of_cons in H as [Hy Ht].
    destruct (Nat.eqb_spec y e); [congruence|]. now rewrite IH.
Qed.

Lemma addWidgetExtension_cases widgetName extension r :
  let a := addWidgetExtension widgetName extension r in
  let l := default [] (_extenders r !! toLowerCase widgetName) in
  (has_extension extension l = true /\
   closure a = of_addWidgetFactory noOp /\
   forall k, default [] (_extenders (after a) !! k) = default [] (_extenders r !! k)) \/
  (has_extension extension l = false /\
   closure a = of_addWidgetExtension (toLowerCase widgetName) extension /\
   _extenders (after a) =
     <[toLowerCase widgetName := l ++ [extension]]> (_extenders r)).
Proof.
  unfold addWidgetExtension. cbv zeta.
  destruct (_extenders r !! toLowerCase widgetName) as [l|] eqn:Hl.
  - rewrite Hl. cbn [default from_option id].
    destruct (has_extension extension l) eqn:Hh; [left|right]; cbn; auto.
  - cbn [_extenders set_extenders]. rewrite lookup_insert_eq. cbn.
    right. repeat split. now rewrite insert_insert_eq.
Qed.

(** *** [addWidgetFactory], then its disposable *)

Lemma fold_fileTypes_step (name : string) (fts : list string) :
  NoDup fts ->
  forall (m : gmap string (list string)) k,
    fold_left (fileTypes_step name) fts m !! k =
    if decide (k ∈ fts) then Some (default [] (m !! k) ++ [name]) else m !! k.
Proof.
  induction 1 as [|ft t Hft Ht IH]; intros m k; [reflexivity|].
  cbn [fold_left]. rewrite IH.
  assert (Hs : forall j,
             fileTypes_step name m ft !! j =
             if decide (j = ft) then Some (default [] (m !! ft) ++ [name])
             else m !! j).
  { intros j. unfold fileTypes_step.
    destruct (m !! ft) eqn:E; destruct (decide (j = ft)) as [->|N];
      rewrite ?lookup_insert_eq, ?lookup_insert_ne by congruence; reflexivity. }
  rewrite Hs.
  destruct (decide (k = ft)) as [->|N].
  - rewrite decide_False by exact Hft.
    now rewrite decide_True by apply list_elem_of_here.
  - destruct (decide (k ∈ t)) as [I1|N1].
    + now rewrite decide_True by (apply elem_of_cons; now right).
    + now rewrite decide_False by (intros [?|?]%elem_of_cons; contradiction).
Qed.

Lemma took_over_insert name m0 m k :
  took_over name m0 m -> m0 !! k = None -> took_over name m0 (<[k := name]> m).
Proof.
  intros H Hk j. destruct (decide (k = j)) as [<-|N].
  - rewrite lookup_insert_eq. now right.
  - rewrite lookup_insert_ne by exact N. apply H.
Qed.

Lemma took_over_filter name (m0 m : gmap string string) :
  (forall k, m0 !! k <> Some name) ->
  took_over name m0 m ->
  filter (fun kv : string * string => negb (String.eqb (snd kv) name) = true) m = m0.
Proof.
  intros Hno H. apply map_eq. intros k. rewrite map_lookup_filter.
  destruct (H k) as [E|[E1 E2]].
  - rewrite E. destruct (m0 !! k) as [v|] eqn:Ev; [|reflexivity]. simpl.
    destruct (String.eqb_spec v name) as [->|N]; [now apply Hno in Ev|].
    now rewrite option_guard_True.
  - rewrite E1, E2. simpl. rewrite String.eqb_refl.
    now rewrite option_guard_False.
Qed.

Lemma fold_defaultFor factory name l :
  forall d0 m0 d m,
    Forall (fun ft =>
              includes ft (wf_fileTypes factory) = true ->
              if String.eqb ft "*" then d0 = "" else m0 !! ft = None) l ->
    (d = d0 \/ d = name /\ d0 = "") -> took_over name m0 m ->
    let st := fold_left (defaultFor_step factory name) l (d, m) in
    (fst st = d0 \/ fst st = name /\ d0 = "") /\ took_over name m0 (snd st).
Proof.
  induction l as [|ft l IH]; intros d0 m0 d m Hall Hd Hm; [simpl; auto|].
  inversion Hall as [|? ? Hft Hl]; subst. cbn [fold_left].
  assert (Hst : (fst (defaultFor_step factory name (d, m) ft) = d0 \/
                 fst (defaultFor_step factory name (d, m) ft) = name /\ d0 = "") /\
                took_over name m0 (snd (defaultFor_step factory name (d, m) ft))).
  { unfold defaultFor_step.
    destruct (includes ft (wf_fileTypes factory)); cbn [negb]; [|auto].
    specialize (Hft eq_refl).
    destruct (String.eqb ft "*"); cbn [fst snd]; split; auto.
    now apply took_over_insert. }
  destruct (defaultFor_step factory name (d, m) ft) as [d1 m1].
  destruct Hst as [H1 H2]. now apply IH.
Qed.

Lemma fold_defaultRendered factory name l :
  forall m0 m,
    Forall (fun ft =>
              includes ft (wf_fileTypes factory) = true -> m0 !! ft = None) l ->
    took_over name m0 m ->
    took_over name m0 (fold_left (defaultRendered_step factory name) l m).
Proof.
  induction l as [|ft l IH]; intros m0 m Hall Hm; [exact Hm|].
  inversion Hall as [|? ? Hft Hl]; subst. cbn [fold_left].
  apply IH; [exact Hl|]. unfold defaultRendered_step.
  destruct (includes ft (wf_fileTypes factory)); cbn [negb]; [|exact Hm].
  apply took_over_insert; auto.
Qed.

(** Registering a widget factory and disposing of the disposable gives
    back the registry, with the two signals emitted, when the factory
    lists no file type twice and takes no default from another factory. *)
Theorem addWidgetFactory_then_dispose_restores (factory : IWidgetFactory) (r : Registry) :
  let name := toLowerCase (wf_name factory) in
  name <> "" -> name <> "default" ->
  _widgetFactories r !! name = None ->
  unmentioned name r ->
  NoDup (wf_fileTypes factory) ->
  claims_free_defaults factory r ->
  call (removeWidgetFactory name) (registry (addWidgetFactory factory r)) =
  emit {| ca_type := widgetFactory; ca_name := Some name; ca_change := removed |}
    (emit {| ca_type := widgetFactory; ca_name := Some name; ca_change := added |} r).
Proof.
  intros name N1 N2 Hreg (Ud & Uo & Um & Ur & Ul) Hnd (Cd & Cr).
  unfold addWidgetFactory. fold name.
  apply String.eqb_neq in N1, N2. rewrite N1, N2. cbn [orb]. rewrite Hreg.
  destruct (fold_defaultFor factory name (default [] (wf_defaultFor factory))
              (_defaultWidgetFactory r) (_defaultWidgetFactories r)
              (_defaultWidgetFactory r) (_defaultWidgetFactories r) Cd)
    as (Hfst & Hsnd); [now left | intros k; now left |].
  cbv zeta in Hfst, Hsnd.
  pose proof (fold_defaultRendered factory name
                (default [] (wf_defaultRendered factory))
                (_defaultRenderedWidgetFactories r)
                (_defaultRenderedWidgetFactories r) Cr) as Hren.
  cbn [registry call]. unfold removeWidgetFactory_body, emit.
  cbn [_modelFactories _widgetFactories _defaultWidgetFactory
       _defaultWidgetFactoryOverrides _defaultWidgetFactories
       _defaultRenderedWidgetFactories _widgetFactoriesForFileType
       _fileTypes _extenders _changed _isDisposed].
  f_equal.
  - now apply delete_insert_id.
  - destruct Hfst as [->|[-> E]].
    + apply String.eqb_neq in Ud. now rewrite Ud.
    + now rewrite String.eqb_refl, E.
  - apply map_filter_id. intros k v Hk. simpl.
    destruct (String.eqb_spec v name) as [->|]; [now apply Uo in Hk|reflexivity].
  - now apply took_over_filter.
  - apply took_over_filter; [exact Ur|]. apply Hren. intros k. now left.
  - apply map_eq. intros k. rewrite lookup_omap, (fold_fileTypes_step name _ Hnd).
    destruct (decide (k ∈ wf_fileTypes factory)) as [I|N].
    + cbn [mbind option_bind].
      destruct (_widgetFactoriesForFileType r !! k) as [l|] eqn:El; cbn [default].
      * destruct (Ul k l El) as [Hn Hl].
        rewrite removeFirstOf_last by exact Hn. now destruct l.
      * cbn. now rewrite String.eqb_refl.
    + destruct (_widgetFactoriesForFileType r !! k) as [l|] eqn:El; [|reflexivity].
      cbn [mbind option_bind]. destruct (Ul k l El) as [Hn Hl].
      rewrite removeFirstOf_absent by exact Hn. now destruct l.
Qed.

Lemma fold_defaultFor_star factory name l :
  includes "*" (wf_fileTypes factory) = true ->
  forall d m,
    d = name \/ In "*" l ->
    fst (fold_left (defaultFor_step factory name) l (d, m)) = name.
Proof.
  intros Hinc. induction l as [|ft l IH]; intros d m H.
  - destruct H as [->|[]]. reflexivity.
  - cbn [fold_left].
    destruct (defaultFor_step factory name (d, m) ft) as [d1 m1] eqn:Est.
    apply IH. unfold defaultFor_step in Est.
    destruct H as [->|[->|H]]; [| |now right].
    + destruct (negb _); [|destruct (String.eqb ft "*")];
        injection Est as <- _; now left.
    + rewrite Hinc in Est. cbn in Est. injection Est as <- _. now left.
Qed.

Section DroppedDefault.

Variable basename : string -> string.
Variable lower : string -> string.
Variable String_match : string -> string -> Completion bool.
Variable trans : string -> string.

(** A factory registered as the global default is the default without a
    path; once its disposable is disposed of there is no global default
    at all: the factory that was the default before it is not put back. *)
Theorem disposing_the_global_default_leaves_none (s : System) (factory : IWidgetFactory) :
  reachable_system trans s ->
  fst (exec trans (AddWidgetFactory factory) s) = None ->
  getWidgetFactory (wf_name factory) (fields s) = None ->
  In "*" (default [] (wf_defaultFor factory)) ->
  includes "*" (wf_fileTypes factory) = true ->
  let s1 := snd (exec trans (AddWidgetFactory factory) s) in
  let s2 := snd (exec trans (DisposeDelegate (length (disposables s))) s1) in
  defaultWidgetFactory basename lower String_match None (fields s1)
  = Return (Some factory) /\
  defaultWidgetFactory basename lower String_match None (fields s2) = Return None.
Proof.
  intros Hr Hok Hnew Hstar Hinc s1 s2.
  assert (Hr2 : reachable_system trans s2) by (do 2 apply reach_exec; exact Hr).
  pose proof (reachable_widgets_kept trans s2 Hr2) as Hk.
  subst s2 s1. revert Hok Hk. cbn [exec].
  unfold addWidgetFactory, getWidgetFactory in *.
  destruct (String.eqb _ "" || String.eqb _ "default"); [discriminate|].
  rewrite Hnew. cbn [completion registry fst snd fields disposables _fn fmap option_fmap option_map].
  intros _. rewrite list_lookup_middle by reflexivity.
  cbn [run_closure fields call snd]. unfold defaultWidgetFactory.
  unfold removeWidgetFactory_body, emit.
  cbn [_widgetFactories _defaultWidgetFactory].
  rewrite (fold_defaultFor_star factory _ _ Hinc) by now right.
  rewrite String.eqb_refl, lookup_insert_eq. intros Hk.
  split; [reflexivity|]. f_equal.
  match goal with |- ?m !! "" = None => destruct (m !! "") as [f|] eqn:E end;
    [|reflexivity].
  destruct (Hk "" f) as (_ & Hne & _); [|congruence].
  cbn [fields]. exact E.
Qed.

End DroppedDefault.

(** *** The defaults name registered factories *)

Lemma all_registered_insert w m name (f : IWidgetFactory) :
  all_registered w m -> all_registered (<[name := f]> w) m.
Proof.
  intros H k v Hk. apply lookup_insert_is_Some'. right. eauto.
Qed.

Lemma all_registered_removed w m name :
  all_registered w m ->
  all_registered (delete name w)
    (filter (fun kv : string * string => negb (String.eqb (snd kv) name) = true) m).
Proof.
  intros H k v Hk. apply map_lookup_filter_Some in Hk as [Hk Hv]. simpl in Hv.
  apply negb_true_iff, String.eqb_neq in Hv.
  rewrite lookup_delete_ne by congruence. eauto.
Qed.

Lemma fold_defaultFor_registered factory name w l :
  is_Some (w !! name) ->
  forall d m,
    (d = "" \/ is_Some (w !! d)) -> all_registered w m ->
    let st := fold_left (defaultFor_step factory name) l (d, m) in
    (fst st = "" \/ is_Some (w !! fst st)) /\ all_registered w (snd st).
Proof.
  intros Hn. induction l as [|ft l IH]; intros d m Hd Hm; [simpl; auto|].
  cbn [fold_left].
  assert (Hst : (fst (defaultFor_step factory name (d, m) ft) = "" \/
                 is_Some (w !! fst (defaultFor_step factory name (d, m) ft))) /\
                all_registered w (snd (defaultFor_step factory name (d, m) ft))).
  { unfold defaultFor_step.
    destruct (negb _); [auto|].
    destruct (String.eqb ft "*"); cbn [fst snd]; split; auto.
    intros k v Hk. destruct (decide (ft = k)) as [<-|N].
    - rewrite lookup_insert_eq in Hk. now injection Hk as <-.
    - rewrite lookup_insert_ne in Hk by exact N. eauto. }
  destruct (defaultFor_step factory name (d, m) ft) as [d1 m1].
  destruct Hst. now apply IH.
Qed.

Lemma fold_defaultRendered_registered factory name w l :
  is_Some (w !! name) ->
  forall m,
    all_registered w m ->
    all_registered w (fold_left (defaultRendered_step factory name) l m).
Proof.
  intros Hn. induction l as [|ft l IH]; intros m Hm; [exact Hm|].
  cbn [fold_left]. apply IH. unfold defaultRendered_step.
  destruct (negb _); [exact Hm|].
  intros k v Hk. destruct (decide (ft = k)) as [<-|N].
  - rewrite lookup_insert_eq in Hk. now injection Hk as <-.
  - rewrite lookup_insert_ne in Hk by exact N. eauto.
Qed.

Lemma addWidgetFactory_defaults_kept factory r :
  defaults_kept r -> defaults_kept (registry (addWidgetFactory factory r)).
Proof.
  intros (Hd & Hm & Hr & Ho). unfold addWidgetFactory.
  destruct (String.eqb _ "" || String.eqb _ "default");
    [repeat split; assumption|].
  destruct (_widgetFactories r !! toLowerCase (wf_name factory)) eqn:Hreg;
    [repeat split; assumption|].
  cbn [registry]. unfold defaults_kept, emit.
  cbn [_widgetFactories _defaultWidgetFactory _defaultWidgetFactoryOverrides
       _defaultWidgetFactories _defaultRenderedWidgetFactories].
  set (name := toLowerCase (wf_name factory)).
  set (w := <[name := factory]> (_widgetFactories r)).
  assert (Hn : is_Some (w !! name)) by (unfold w; rewrite lookup_insert_eq; eauto).
  destruct (fold_defaultFor_registered factory name w
              (default [] (wf_defaultFor factory)) Hn
              (_defaultWidgetFactory r) (_defaultWidgetFactories r)) as (H1 & H2).
  { destruct Hd as [Hd|Hd]; [now left|right].
    unfold w. apply lookup_insert_is_Some'. now right. }
  { now apply all_registered_insert. }
  split; [exact H1|]. split; [exact H2|]. split.
  - apply fold_defaultRendered_registered; [exact Hn|].
    now apply all_registered_insert.
  - now apply all_registered_insert.
Qed.

Lemma call_defaults_kept fn r : defaults_kept r -> defaults_kept (call fn r).
Proof.
  intros (Hd & Hm & Hr & Ho). destruct fn as [|name]; [repeat split; assumption|].
  cbn [call]. unfold removeWidgetFactory_body, defaults_kept, emit.
  cbn [_widgetFactories _defaultWidgetFactory _defaultWidgetFactoryOverrides
       _defaultWidgetFactories _defaultRenderedWidgetFactories].
  split; [|repeat split; now apply all_registered_removed].
  destruct (String.eqb_spec (_defaultWidgetFactory r) name) as [E|N]; [now left|].
  destruct Hd as [Hd|Hd]; [now left|right].
  now rewrite lookup_delete_ne by congruence.
Qed.

Lemma setDefaultWidgetFactory_defaults_kept fileType factory r :
  defaults_kept r ->
  defaults_kept (registry (setDefaultWidgetFactory fileType factory r)).
Proof.
  intros (Hd & Hm & Hr & Ho). unfold setDefaultWidgetFactory.
  assert (Hdel : forall k,
             defaults_kept (set_overrides (delete k (_defaultWidgetFactoryOverrides r)) r)).
  { intros k. repeat split; try assumption.
    intros j v Hj. cbn in Hj. apply lookup_delete_Some in Hj as [_ Hj].
    eapply Ho, Hj. }
  assert (Hins : forall k f,
             is_Some (getWidgetFactory f r) ->
             defaults_kept
               (set_overrides (<[k := toLowerCase f]> (_defaultWidgetFactoryOverrides r)) r)).
  { intros k f Hf. repeat split; try assumption.
    intros j v Hj. cbn in Hj. destruct (decide (k = j)) as [<-|N].
    - rewrite lookup_insert_eq in Hj. injection Hj as <-. exact Hf.
    - rewrite lookup_insert_ne in Hj by exact N. eapply Ho, Hj. }
  destruct (getFileType (toLowerCase fileType) r); [|repeat split; assumption].
  destruct factory as [[|c f]|].
  - destruct (_defaultWidgetFactoryOverrides r !! toLowerCase fileType)
      as [[|? ?]|]; cbn [registry]; auto; repeat split; assumption.
  - destruct (getWidgetFactory (String c f) r) eqn:Hf; [|repeat split; assumption].
    destruct (negb _ && negb _); [repeat split; assumption|].
    cbn [registry]. apply Hins. rewrite Hf. eauto.
  - destruct (_defaultWidgetFactoryOverrides r !! toLowerCase fileType)
      as [[|? ?]|]; cbn [registry]; auto; repeat split; assumption.
Qed.

Section DefaultsKept.

Variable basename : string -> string.
Variable lower : string -> string.
Variable String_match : string -> string -> Completion bool.
Variable trans : string -> string.

Lemma exec_defaults_kept c s :
  defaults_kept (fields s) -> defaults_kept (fields (snd (exec trans c s))).
Proof.
  intros H.
  destruct c as [factory|factory|widgetName extension|pft|ftname factory| |di];
    cbn [exec].
  - pose proof (addWidgetFactory_defaults_kept factory (fields s) H) as H'.
    destruct (completion (addWidgetFactory factory (fields s))); [exact H'|exact H].
  - unfold addModelFactory. destruct (_ !! _); exact H.
  - unfold addWidgetExtension.
    destruct (_extenders (fields s) !! toLowerCase widgetName);
      cbn [snd fields]; match goal with |- context [if ?b then _ else _] =>
                          destruct b end; exact H.
  - exact H.
  - pose proof (setDefaultWidgetFactory_defaults_kept ftname factory (fields s) H)
      as H'.
    destruct (completion (setDefaultWidgetFactory ftname factory (fields s)));
      [exact H'|exact H].
  - cbn [snd fields]. unfold dispose_registry.
    destruct (_isDisposed (fields s)); exact H.
  - destruct (disposables s !! di) as [[cl|]|]; [|exact H..].
    destruct cl as [fn|name|n e|v nm]; cbn [run_closure snd fields].
    + now apply call_defaults_kept.
    + exact H.
    + destruct (_extenders (fields s) !! n); exact H.
    + exact H.
Qed.

Lemma reachable_defaults_kept s : reachable_system trans s -> defaults_kept (fields s).
Proof.
  induction 1 as [tmf options r Hc|c s _ IH]; [|now apply exec_defaults_kept].
  unfold constructor in Hc.
  destruct (match textModelFactory options with
            | Some f => negb (String.eqb (mf_name f) "text")
            | None => false
            end); [discriminate|].
  injection Hc as <-. split; [now left|].
  repeat split; intros k v Hk; cbn in Hk; rewrite lookup_empty in Hk; discriminate.
Qed.

(** In every registry a program can reach the defaults are registered
    factories: there is a default without a path exactly when a global
    default is set, and a file type with a rendered default gives every
    path it is the first such match of a rendered factory. What the two
    methods return is registered under its own name. *)
Theorem defaults_are_registered (s : System) (path : string) :
  reachable_system trans s ->
  ((exists f, defaultWidgetFactory basename lower String_match None (fields s)
              = Return (Some f)) <->
   _defaultWidgetFactory (fields s) <> "") /\
  (forall fts,
     getFileTypesForPath basename lower String_match (basename path) (fields s)
     = Return fts ->
     Exists (fun ft => is_Some (_defaultRenderedWidgetFactories (fields s) !! ft_name ft))
            fts ->
     exists f, defaultRenderedWidgetFactory basename lower String_match path (fields s)
               = Return (Some f)) /\
  (forall p f,
     defaultWidgetFactory basename lower String_match p (fields s) = Return (Some f) \/
     defaultRenderedWidgetFactory basename lower String_match path (fields s)
     = Return (Some f) ->
     getWidgetFactory (wf_name f) (fields s) = Some f).
Proof.
  intros Hr.
  destruct (reachable_defaults_kept s Hr) as (Hd & _ & Hren & _).
  pose proof (reachable_widgets_kept trans s Hr) as Hk.
  assert (Hfound : forall k f, _widgetFactories (fields s) !! k = Some f ->
                     getWidgetFactory (wf_name f) (fields s) = Some f).
  { intros k f Hf. unfold getWidgetFactory.
    destruct (Hk k f Hf) as (-> & _). exact Hf. }
  assert (Hdef : forall p f,
             defaultWidgetFactory basename lower String_match p (fields s)
             = Return (Some f) ->
             getWidgetFactory (wf_name f) (fields s) = Some f).
  { intros p f Hf. unfold defaultWidgetFactory in Hf.
    assert (Hhead : forall q,
               match preferredWidgetFactories basename lower String_match q (fields s)
               with
               | Throw e => Throw e
               | Return factories => Return (head factories)
               end = Return (Some f) ->
               getWidgetFactory (wf_name f) (fields s) = Some f).
    { intros q Hq.
      destruct (preferredWidgetFactories basename lower String_match q (fields s))
        as [factories|e] eqn:Hp; [|discriminate].
      injection Hq as Hq. apply head_Some_elem_of in Hq.
      apply (preferredWidgetFactories_Return basename lower String_match)
        in Hp as (fts & _ & ->).
      apply list_elem_of_omap in Hq as (name & _ & Hu).
      apply (usable_registered trans s name f Hr Hu). }
    destruct p as [[|c q]|]; [injection Hf as Hf; eauto|eauto|injection Hf as Hf; eauto]. }
  split; [|split].
  - unfold defaultWidgetFactory. split.
    + intros [f Hf] E. injection Hf as Hf. rewrite E in Hf.
      destruct (Hk "" f Hf) as (_ & Hne & _). congruence.
    + intros Hne. destruct Hd as [Hd|Hd]; [contradiction|].
      destruct Hd as [f Hf]. exists f. now rewrite Hf.
  - intros fts Hfts Hex. unfold defaultRenderedWidgetFactory. rewrite Hfts.
    assert (Hfirst : is_Some (first_rendered fts (fields s))).
    { clear Hfts. induction Hex as [ft l [n Hn]|ft l _ IH]; cbn [first_rendered].
      - rewrite Hn. eapply Hren, Hn.
      - destruct (_defaultRenderedWidgetFactories (fields s) !! ft_name ft)
          as [n|] eqn:Hn; [eapply Hren, Hn | exact IH]. }
    destruct Hfirst as [f Hf]. rewrite Hf. eauto.
  - intros p f [Hf|Hf]; [now apply (Hdef p)|].
    unfold defaultRenderedWidgetFactory in Hf.
    destruct (getFileTypesForPath basename lower String_match (basename path) (fields s))
      as [fts|e]; [|discriminate].
    destruct (first_rendered _ _) as [g|] eqn:Hg; [|now apply (Hdef (Some path))].
    injection Hf as ->.
    induction fts as [|ft l IH]; [discriminate|].
    cbn [first_rendered] in Hg.
    destruct (_defaultRenderedWidgetFactories (fields s) !! ft_name ft) as [n|];
      [eapply Hfound, Hg | now apply IH].
Qed.

End DefaultsKept.

Section AddThenDispose.

Variable trans : string -> string.


(** Adding a widget extension and disposing of the disposable gives back
    the extensions every widget name had. *)
Theorem addWidgetExtension_then_dispose
    (s : System) (widgetName : string) (extension : WidgetExtension) (other : string) :
  let s1 := snd (exec trans (AddWidgetExtension widgetName extension) s) in
  let s2 := snd (exec trans (DisposeDelegate (length (disposables s))) s1) in
  extension ∈ widgetExtensions widgetName (fields s1) /\
  widgetExtensions other (fields s2) = widgetExtensions other (fields s).
Proof.
  cbv zeta. cbn [exec snd disposables].
  rewrite list_lookup_middle by reflexivity.
  destruct (addWidgetExtension_cases widgetName extension (fields s))
    as [(Hh & -> & He)|(Hh & -> & He)]; unfold widgetExtensions.
  - cbn. split; [|apply He].
    rewrite He. unfold has_extension in Hh.
    apply existsb_exists in Hh as (x & Hx & Heq).
    apply Nat.eqb_eq in Heq. subst x. now apply list_elem_of_In.
  - cbn [fields]. rewrite He, lookup_insert_eq. split; [set_solver|].
    cbn [run_closure fields]. rewrite He, lookup_insert_eq.
    cbn [snd fields emit set_extenders _extenders].
    rewrite removeFirstOf_last_nat by now apply has_extension_false.
    destruct (decide (toLowerCase widgetName = toLowerCase other)) as [E|N].
    + now rewrite <- E, lookup_insert_eq.
    + now rewrite !lookup_insert_ne by exact N.
Qed.

End AddThenDispose.

(** *** Instances *)

Lemma new_system_reachable : reachable_system nullTranslator new_system.
Proof.
  apply (reach_new nullTranslator text_factory
           {| textModelFactory := None; initialFileTypes := None |}).
  reflexivity.
Qed.

Lemma busy_system_reachable : reachable_system nullTranslator busy_system.
Proof. apply reachable_exec_all, new_system_reachable. Qed.

Lemma text_model_factory_is_permanent_witness :
  toLowerCase "TEXT" = "text" /\
  is_Some (getModelFactory "TEXT" (fields busy_system)).
Proof.
  split; [reflexivity|].
  exact (text_model_factory_is_permanent nullTranslator busy_system "TEXT"
           busy_system_reachable eq_refl).
Defined.

Lemma widgetExtensions_has_no_duplicates_witness :
  NoDup (widgetExtensions "EDITOR" (fields busy_system)).
Proof.
  exact (widgetExtensions_has_no_duplicates nullTranslator busy_system "EDITOR"
           busy_system_reachable).
Defined.

Lemma registered_widget_factory_is_found_witness :
  _widgetFactories (fields busy_system) !! "preview" = Some preview /\
  getWidgetFactory "Preview" (fields busy_system) = Some preview.
Proof.
  assert (H : _widgetFactories (fields busy_system) !! "preview" = Some preview)
    by (vm_compute; reflexivity).
  split; [exact H|].
  exact (registered_widget_factory_is_found nullTranslator busy_system "preview"
           preview busy_system_reachable H).
Defined.

Lemma disposing_never_throws_witness :
  fst (exec nullTranslator (DisposeDelegate 3) busy_system) = None /\
  exec nullTranslator (DisposeDelegate 3)
    (snd (exec nullTranslator (DisposeDelegate 3) busy_system)) =
  (None, snd (exec nullTranslator (DisposeDelegate 3) busy_system)).
Proof.
  exact (disposing_never_throws nullTranslator busy_system 3 busy_system_reachable).
Defined.

Lemma addFileType_disposable_removes_its_object_witness :
  let s := busy_system in
  let twice := [partial dockerfile; partial table_json] in
  let s1 := exec_all nullTranslator
              (AddFileType (partial dockerfile) :: map AddFileType twice) s in
  let s2 := snd (exec nullTranslator (DisposeDelegate (length (disposables s))) s1) in
  _fileTypes (fields s2) =
    _fileTypes (fields s) ++ map (addFileType_value nullTranslator) twice.
Proof.
  exact (proj2 (addFileType_disposable_removes_its_object nullTranslator busy_system
                  (partial dockerfile) [partial dockerfile; partial table_json]
                  busy_system_reachable)).
Defined.

Lemma upper_case_extensions_never_match_witness :
  let r := with_fileTypes [scan] default_registry in
  getFileTypesForPath same_name toLowerCase only_Dockerfile "page.SCAN" r = Return [] /\
  getFileTypesForPath same_name toLowerCase only_Dockerfile "Dockerfile" r
  = Return [scan] /\
  pattern_found only_Dockerfile (same_name "Dockerfile") scan.
Proof.
  intros r.
  assert (H : getFileTypesForPath same_name toLowerCase only_Dockerfile "Dockerfile" r
              = Return [scan]) by (vm_compute; reflexivity).
  split; [vm_compute; reflexivity|]. split; [exact H|].
  apply (upper_case_extensions_never_match same_name toLowerCase only_Dockerfile
           "Dockerfile" r [scan] scan toLowerCase_keeps_dot dot_suffixes_lower).
  - repeat constructor. simpl. discriminate.
  - exact H.
  - now left.
Defined.

Lemma busy_system_prefers_preview :
  preferredWidgetFactories same_name toLowerCase only_Dockerfile "notes.md"
    (fields busy_system)
  = Return [preview; editor].
Proof. vm_compute. reflexivity. Qed.

Lemma preferredWidgetFactories_has_no_duplicates_witness :
  preferredWidgetFactories same_name toLowerCase only_Dockerfile "notes.md"
    (fields busy_system)
  = Return [preview; editor] /\
  NoDup [preview; editor].
Proof.
  split; [exact busy_system_prefers_preview|].
  exact (preferredWidgetFactories_has_no_duplicates same_name toLowerCase
           only_Dockerfile nullTranslator busy_system "notes.md" [preview; editor]
           busy_system_reachable busy_system_prefers_preview).
Defined.


Lemma setDefaultWidgetFactory_lower_cased_key_witness :
  completion (setDefaultWidgetFactory "PDF" (Some "Editor") registry_with_editor)
  = Return tt /\
  _defaultWidgetFactoryOverrides
    (registry (setDefaultWidgetFactory "PDF" (Some "Editor") registry_with_editor))
  !! "pdf" = Some "editor" /\
  preferredWidgetFactories same_name toLowerCase only_Dockerfile "paper.pdf"
    (registry (setDefaultWidgetFactory "PDF" (Some "Editor") registry_with_editor)) =
  preferredWidgetFactories same_name toLowerCase only_Dockerfile "paper.pdf"
    registry_with_editor.
Proof.
  split; [vm_compute; reflexivity|]. split; [vm_compute; reflexivity|].
  apply (setDefaultWidgetFactory_lower_cased_key same_name toLowerCase only_Dockerfile).
  vm_compute. repeat (constructor; [discriminate|]). constructor.
Defined.

Lemma setDefaultWidgetFactory_unset_restores_witness :
  setDefaultWidgetFactory "Markdown" None
    (registry (setDefaultWidgetFactory "Markdown" (Some "Preview") two_factories)) =
  {| completion := Return tt; registry := two_factories; warnings := [] |}.
Proof.
  apply setDefaultWidgetFactory_unset_restores; vm_compute; reflexivity.
Defined.

Lemma two_factories_markdown :
  getFileTypesForPath same_name toLowerCase only_Dockerfile (same_name "notes.md")
    two_factories = Return [markdown].
Proof. vm_compute. reflexivity. Qed.

Lemma override_is_the_default_for_the_path_witness :
  defaultWidgetFactory same_name toLowerCase only_Dockerfile (Some "notes.md")
    two_factories = Return (Some preview) /\
  defaultWidgetFactory same_name toLowerCase only_Dockerfile (Some "notes.md")
    (registry (setDefaultWidgetFactory "Markdown" (Some "Editor") two_factories))
  = Return (Some editor).
Proof.
  split; [vm_compute; reflexivity|].
  apply (override_is_the_default_for_the_path same_name toLowerCase only_Dockerfile
           "Markdown" "Editor" "notes.md" two_factories markdown [] editor).
  - vm_compute. reflexivity.
  - discriminate.
  - exact two_factories_markdown.
  - reflexivity.
  - vm_compute. reflexivity.
  - exists text_factory. vm_compute. reflexivity.
  - discriminate.
Defined.

Lemma dispose_empties_file_types_and_extensions_witness :
  let r' := dispose_registry two_factories in
  getFileTypesForPath same_name toLowerCase only_Dockerfile "notes.md" two_factories
  = Return [markdown] /\
  getFileTypesForPath same_name toLowerCase only_Dockerfile "notes.md" r' = Return [] /\
  getFileType "markdown" r' = None /\
  widgetExtensions "Editor" r' = [] /\
  getWidgetFactory "markdown" r' = getWidgetFactory "markdown" two_factories /\
  getModelFactory "markdown" r' = getModelFactory "markdown" two_factories /\
  dispose_registry r' = r'.
Proof.
  assert (Hd : _isDisposed two_factories = false) by (vm_compute; reflexivity).
  split; [exact two_factories_markdown|].
  exact (dispose_empties_file_types_and_extensions same_name toLowerCase
           only_Dockerfile two_factories "notes.md" "Editor" "markdown" Hd).
Defined.

Lemma registry_with_editor_unmentioned : unmentioned "viewer" registry_with_editor.
Proof.
  assert (E : _widgetFactoriesForFileType registry_with_editor =
              <["*" := ["editor"]]> (<["markdown" := ["editor"]]> ∅))
    by (vm_compute; reflexivity).
  split; [discriminate|].
  repeat split; try (intros k; vm_compute; discriminate).
  - rewrite E in H. intros Hin.
    apply lookup_insert_Some in H as [[_ <-]|[_ H]].
    + apply list_elem_of_singleton in Hin. discriminate.
    + apply lookup_insert_Some in H as [[_ <-]|[_ H]].
      * apply list_elem_of_singleton in Hin. discriminate.
      * rewrite lookup_empty in H. discriminate.
  - rewrite E in H. intros ->.
    apply lookup_insert_Some in H as [[_ H]|[_ H]]; [discriminate|].
    apply lookup_insert_Some in H as [[_ H]|[_ H]]; [discriminate|].
    rewrite lookup_empty in H. discriminate.
Qed.

Lemma addWidgetFactory_then_dispose_restores_witness :
  call (removeWidgetFactory "viewer")
    (registry (addWidgetFactory viewer registry_with_editor)) =
  emit {| ca_type := widgetFactory; ca_name := Some "viewer"; ca_change := removed |}
    (emit {| ca_type := widgetFactory; ca_name := Some "viewer"; ca_change := added |}
       registry_with_editor).
Proof.
  apply (addWidgetFactory_then_dispose_restores viewer registry_with_editor).
  - discriminate.
  - discriminate.
  - vm_compute. reflexivity.
  - exact registry_with_editor_unmentioned.
  - repeat constructor. intros H. now apply elem_of_nil in H.
  - split; repeat constructor; try (intros _; vm_compute; reflexivity).
Defined.

Lemma disposing_the_global_default_leaves_none_witness :
  let s := busy_system in
  let s1 := snd (exec nullTranslator (AddWidgetFactory reader) s) in
  let s2 := snd (exec nullTranslator (DisposeDelegate (length (disposables s))) s1) in
  defaultWidgetFactory same_name toLowerCase only_Dockerfile None (fields s)
  = Return (Some editor) /\
  defaultWidgetFactory same_name toLowerCase only_Dockerfile None (fields s1)
  = Return (Some reader) /\
  defaultWidgetFactory same_name toLowerCase only_Dockerfile None (fields s2)
  = Return None.
Proof.
  intros s s1 s2.
  assert (H1 : fst (exec nullTranslator (AddWidgetFactory reader) busy_system) = None)
    by (vm_compute; reflexivity).
  assert (H2 : getWidgetFactory (wf_name reader) (fields busy_system) = None)
    by (vm_compute; reflexivity).
  split; [vm_compute; reflexivity|].
  exact (disposing_the_global_default_leaves_none same_name toLowerCase
           only_Dockerfile nullTranslator busy_system reader busy_system_reachable
           H1 H2 (or_introl eq_refl) eq_refl).
Defined.

Lemma busy_system_markdown :
  getFileTypesForPath same_name toLowerCase only_Dockerfile (same_name "notes.md")
    (fields busy_system) = Return [markdown].
Proof. vm_compute. reflexivity. Qed.

Lemma defaults_are_registered_witness :
  (exists f, defaultWidgetFactory same_name toLowerCase only_Dockerfile None
               (fields busy_system) = Return (Some f)) /\
  (exists f, defaultRenderedWidgetFactory same_name toLowerCase only_Dockerfile
               "notes.md" (fields busy_system) = Return (Some f)).
Proof.
  destruct (defaults_are_registered same_name toLowerCase only_Dockerfile
              nullTranslator busy_system "notes.md" busy_system_reachable)
    as (H1 & H2 & _).
  split.
  - apply H1. vm_compute. discriminate.
  - apply (H2 [markdown] busy_system_markdown).
    apply Exists_cons_hd. exists "preview". vm_compute. reflexivity.
Defined.

End RegistryMethods.
